(** * Facial-recognition API: shallow embedding of the recognition core

    The definitions follow the layout of the Python services:

    - [Numpy]             the array primitives the services rely on
                          ([sum], [norm], [argmin], [argmax]);
    - [FileUtils]         [allowed_file], [os.path.splitext] and
                          [secure_filename];
    - [FaceService]       app/services/face_service.py: the folder of
                          known faces and the registry lists;
    - [FeatureExtraction] app/services/feature_extraction.py: method
                          selection, detection, LBP and HOG+LBP features;
    - [CNN]               app/services/cnn.py: classifier train / predict;
    - [Recognition]       app/services/recognition_service.py: detection
                          with fallback and nearest-neighbour matching.

    The theorems come after all definitions, one module of facts per
    module of definitions.

    Numbers that are floating point in the program are idealised as real
    numbers; rounding is outside the model.  Calls into third-party
    libraries (face_recognition / dlib, OpenCV, Keras) are section
    variables; a call that can raise returns an [option].  The file
    system is a finite map from entry names to contents; I/O failures of
    the file system itself are outside the model. *)

From Stdlib Require Import Reals Lra ZArith Ascii String.
From stdpp Require Import gmap strings list fin_maps.

#[local] Open Scope string_scope.
#[local] Open Scope nat_scope.
#[local] Open Scope list_scope.

(* ===================================================================== *)
(** * Array primitives *)
(* ===================================================================== *)

Module Numpy.

#[export] Instance Rlt_decision : RelDecision Rlt := Rlt_dec.
#[export] Instance Rle_decision : RelDecision Rle := Rle_dec.
#[export] Instance Rgt_decision : RelDecision Rgt := Rgt_dec.
#[export] Instance Rge_decision : RelDecision Rge := Rge_dec.

  (** [np.sum] of a float vector. *)
Definition sum (v : list R) : R := foldr Rplus 0%R v.

  (** [np.linalg.norm]: the L2 norm. *)
Definition norm (v : list R) : R := sqrt (sum (map (λ x, x * x)%R v)).

  (** Left-to-right scan shared by [argmin] and [argmax]: the candidate is
      replaced only by a strictly better element, so the first best one
      wins. *)
Fixpoint scan_best (better : R → R → Prop) `{!RelDecision better}
    (best : nat) (best_val : R) (i : nat) (l : list R) : nat :=
  match l with
  | [] => best
  | x :: t =>
      if decide (better x best_val)
      then scan_best better i x (S i) t
      else scan_best better best best_val (S i) t
  end.

  (** [np.argmin]; raises [ValueError] on an empty array ([None]). *)
Definition argmin (l : list R) : option nat :=
  match l with
  | [] => None
  | x :: t => Some (scan_best Rlt 0 x 1 t)
  end.

  (** [np.argmax]; raises [ValueError] on an empty array ([None]). *)
Definition argmax (l : list R) : option nat :=
  match l with
  | [] => None
  | x :: t => Some (scan_best Rgt 0 x 1 t)
  end.

End Numpy.

(* ===================================================================== *)
(** * File names: utils/file_utils.py and the library calls around it *)
(* ===================================================================== *)

Module FileUtils.

  (** [str.lower] on ASCII text. *)
Definition lower_ascii (c : ascii) : ascii :=
  let n := nat_of_ascii c in
  if (65 <=? n)%nat && (n <=? 90)%nat then ascii_of_nat (n + 32) else c.

Fixpoint lower (s : string) : string :=
  match s with
  | EmptyString => EmptyString
  | String c t => String (lower_ascii c) (lower t)
  end.

  (** [s.rsplit('.', 1)] when ['.' in s]: the text before and after the
      last dot; [None] when [s] holds no dot. *)
Fixpoint rsplit_dot (s : string) : option (string * string) :=
  match s with
  | EmptyString => None
  | String c t =>
      match rsplit_dot t with
      | Some (before, after) => Some (String c before, after)
      | None => if Ascii.eqb c "." then Some (EmptyString, t) else None
      end
  end.

  (** [Config.ALLOWED_EXTENSIONS]. *)
Definition ALLOWED_EXTENSIONS : gset string := {[ "png"; "jpg"; "jpeg" ]}.

  (** [allowed_file]:
      ['.' in filename and filename.rsplit('.', 1)[1].lower() in ALLOWED_EXTENSIONS]. *)
Definition allowed_file (filename : string) : bool :=
  match rsplit_dot filename with
  | Some (_, ext) => bool_decide (lower ext ∈ ALLOWED_EXTENSIONS)
  | None => false
  end.

Fixpoint all_dots (s : string) : bool :=
  match s with
  | EmptyString => true
  | String c t => Ascii.eqb c "." && all_dots t
  end.

  (** [os.path.splitext] on a directory entry (a name without path
      separator): split at the last dot unless only dots precede it. *)
Definition splitext (p : string) : string * string :=
  match rsplit_dot p with
  | Some (root, ext) =>
      if all_dots root then (p, EmptyString) else (root, String "." ext)
  | None => (p, EmptyString)
  end.

  (** ** [werkzeug.utils.secure_filename], on a POSIX host.

      A string is the UTF-8 text of the Python [str]: the bytes below 128
      are its ASCII characters, and every other character is a run of
      bytes from 128 up.  The library normalises to NFKD
      ([unicodedata.normalize], a table of the Unicode standard: the
      section variable below), drops what is not ASCII
      ([encode("ascii", "ignore")]: the bytes from 128 up), turns path
      separators into spaces, joins the whitespace-separated words with
      ["_"], deletes every character outside [A-Za-z0-9_.-] and strips dots
      and underscores from both ends. *)

Definition is_ascii (c : ascii) : bool := (nat_of_ascii c <? 128)%nat.

Definition is_space (c : ascii) : bool :=
  let n := nat_of_ascii c in
  ((9 <=? n)%nat && (n <=? 13)%nat) || ((28 <=? n)%nat && (n <=? 32)%nat).

Definition is_filename_char (c : ascii) : bool :=
  let n := nat_of_ascii c in
  ((65 <=? n)%nat && (n <=? 90)%nat) || ((97 <=? n)%nat && (n <=? 122)%nat)
  || ((48 <=? n)%nat && (n <=? 57)%nat)
  || Ascii.eqb c "_" || Ascii.eqb c "." || Ascii.eqb c "-".

Definition is_strip_char (c : ascii) : bool := Ascii.eqb c "." || Ascii.eqb c "_".

  (** [str.split()]: the maximal runs of non-blank characters; [cur] is the
      run being read, most recent character first. *)
Fixpoint split_words (cur : list ascii) (l : list ascii) : list (list ascii) :=
  match l with
  | [] => match cur with [] => [] | _ => [rev cur] end
  | c :: t =>
      if is_space c
      then match cur with [] => split_words [] t | _ => rev cur :: split_words [] t end
      else split_words (c :: cur) t
  end.

  (** ["_".join(words)]. *)
Fixpoint join_underscore (words : list (list ascii)) : list ascii :=
  match words with
  | [] => []
  | [w] => w
  | w :: rest => w ++ "_"%char :: join_underscore rest
  end.

Fixpoint lstrip (l : list ascii) : list ascii :=
  match l with
  | [] => []
  | c :: t => if is_strip_char c then lstrip t else l
  end.

Fixpoint rstrip (l : list ascii) : list ascii :=
  match l with
  | [] => []
  | c :: t =>
      match rstrip t with
      | [] => if is_strip_char c then [] else [c]
      | t' => c :: t'
      end
  end.

Section Sanitise.
Variable normalize_NFKD : string → string.

Definition secure_filename (filename : string) : string :=
  let filename := normalize_NFKD filename in
  let chars := filter (λ c, is_ascii c = true) (list_ascii_of_string filename) in
  let chars := map (λ c, if Ascii.eqb c "/" then " "%char else c) chars in
  let chars := join_underscore (split_words [] chars) in
  let chars := filter (λ c, is_filename_char c = true) chars in
  string_of_list_ascii (rstrip (lstrip chars)).

End Sanitise.

  (** NFKD leaves ASCII text as it is; this is the normalisation the
      examples run with, all of whose names are ASCII. *)
Definition NFKD_of_ascii_text (s : string) : string := s.

End FileUtils.

(* ===================================================================== *)
(** * services/face_service.py: the identity store and the registry *)
(* ===================================================================== *)

Module FaceService.
  Import FileUtils.

  (** What the service answers: the first field of the pair returned by
      the Python functions, reduced to the message kind. *)
Inductive message :=
  | MissingInput          (* "Le fichier et le nom sont requis" *)
  | FileTypeNotAllowed    (* "Type de fichier non autorisé" *)
  | NoFaceDetected        (* "Aucun visage détecté dans l'image" *)
  | Registered            (* "Visage de ... enregistré avec succès" *)
  | RegistrationError     (* "Erreur lors de l'enregistrement: ..." *)
  | Deleted               (* "Visage de ... supprimé avec succès" *)
  | NotFound.             (* "Aucun visage trouvé pour ..." *)

Record response := Response {
  success : bool;
  body : message;
  status_code : nat
}.

Section Service.
  (** The libraries: [normalize_NFKD] is the Unicode normalisation
      inside [secure_filename]; [file_content] is what a stored file
      holds, [load_image_file] decodes it (and raises on a corrupt file),
      [face_encodings] returns one encoding per detected face. *)
Context {file_content image encoding : Type}.
Variable normalize_NFKD : string → string.
Variable load_image_file : file_content → option image.
Variable face_encodings : image → list encoding.

  (** An uploaded file (werkzeug [FileStorage]); it is falsy when its
      name is empty. *)
Record FileStorage := {
  filename : string;
  stream : file_content
}.

  (** Process state: the directory [KNOWN_FACES_FOLDER] (entry name to
      content) and the two module-level lists. *)
Record state := State {
  known_faces_folder : gmap string file_content;
  known_face_encodings : list encoding;
  known_face_names : list string
}.

  (** [os.listdir]: the entries, in the directory's own order. *)
Definition listdir (d : gmap string file_content) : list string :=
  (map_to_list d).*1.

  (** One iteration of the loop of [load_known_faces]; [acc] holds the two
      lists being built. *)
Definition load_one (d : gmap string file_content)
    (acc : list encoding * list string) (filename : string)
    : list encoding * list string :=
  if allowed_file filename then
    let name := (splitext filename).1 in
    match d !! filename ≫= load_image_file with
    | Some image =>
        match face_encodings image with
        | encoding :: _ => (acc.1 ++ [encoding], acc.2 ++ [name])
        | [] => acc
        end
    | None => acc
    end
  else acc.

  (** [load_known_faces]: resets both lists, then scans the folder. *)
Definition load_known_faces (s : state) : nat * state :=
  let lists := foldl (load_one (known_faces_folder s)) ([], [])
                 (listdir (known_faces_folder s)) in
  (length lists.2,
   {| known_faces_folder := known_faces_folder s;
      known_face_encodings := lists.1;
      known_face_names := lists.2 |}).

  (** [register_face]. *)
Definition register_face (file : FileStorage) (name : string) (s : state)
    : response * state :=
  if bool_decide (filename file = EmptyString) || bool_decide (name = EmptyString)
  then (Response false MissingInput 400, s)
  else if negb (allowed_file (filename file))
  then (Response false FileTypeNotAllowed 400, s)
  else
    let filename := secure_filename normalize_NFKD name +:+ ".jpg" in
    (* file.save(filepath) *)
    let saved := {| known_faces_folder := <[filename := stream file]> (known_faces_folder s);
                    known_face_encodings := known_face_encodings s;
                    known_face_names := known_face_names s |} in
    match known_faces_folder saved !! filename ≫= load_image_file with
    | None => (Response false RegistrationError 500, saved)
    | Some image =>
        match face_encodings image with
        | [] =>
            (* os.remove(filepath) *)
            (Response false NoFaceDetected 400,
             {| known_faces_folder := delete filename (known_faces_folder saved);
                known_face_encodings := known_face_encodings saved;
                known_face_names := known_face_names saved |})
        | _ :: _ =>
            (Response true Registered 200, (load_known_faces saved).2)
        end
    end.

  (** [delete_face]. *)
Definition delete_face (name : string) (s : state) : response * state :=
  let filename := secure_filename normalize_NFKD name +:+ ".jpg" in
  if bool_decide (is_Some (known_faces_folder s !! filename)) then
    let removed := {| known_faces_folder := delete filename (known_faces_folder s);
                      known_face_encodings := known_face_encodings s;
                      known_face_names := known_face_names s |} in
    (Response true Deleted 200, (load_known_faces removed).2)
  else (Response false NotFound 404, s).

  (** [list_faces]. *)
Definition list_faces (s : state) : list string * nat :=
  (known_face_names s, length (known_face_names s)).

  (** [get_known_faces]. *)
Definition get_known_faces (s : state) : list encoding * list string :=
  (known_face_encodings s, known_face_names s).

  (** Process start: both lists empty, then [initialize] reloads. *)
Definition startup (store : gmap string file_content) : state :=
  (load_known_faces {| known_faces_folder := store;
                       known_face_encodings := [];
                       known_face_names := [] |}).2.

  (** The states the service can be in: after start-up on some store,
      and after any sequence of enrolments and deletions. *)
Inductive reachable (store : gmap string file_content) : state → Prop :=
  | reach_startup : reachable store (startup store)
  | reach_register s file name :
      reachable store s → reachable store (register_face file name s).2
  | reach_delete s name :
      reachable store s → reachable store (delete_face name s).2.

  (** The name under which [register_face] and [delete_face] look a label
      up in the folder. *)
Definition store_key (name : string) : string :=
  secure_filename normalize_NFKD name +:+ ".jpg".

  (** The label under which [load_known_faces] lists a folder entry. *)
Definition label_of (filename : string) : string := (splitext filename).1.

  (** The identity [load_known_faces] reads off one folder entry, if any. *)
Definition identity_of (d : gmap string file_content) (filename : string)
    : option (encoding * string) :=
  if allowed_file filename then
    match d !! filename ≫= load_image_file with
    | Some image =>
        match face_encodings image with
        | encoding :: _ => Some (encoding, label_of filename)
        | [] => None
        end
    | None => None
    end
  else None.

  (** The identities a reload of folder [d] produces, in listing order. *)
Definition identities (d : gmap string file_content) : list (encoding * string) :=
  omap (identity_of d) (listdir d).

End Service.

#[global] Arguments load_known_faces : simpl never.
#[global] Arguments identities : simpl never.

Definition leading_dot (s : string) : bool :=
  match s with
  | String c _ => Ascii.eqb c "."
  | EmptyString => false
  end.

  (** A folder whose image files are all named the way enrolment names
      them: [<stem>.jpg], the stem not starting with a dot.  The empty
      folder is one, and enrolment and deletion keep a folder so. *)
Definition enrollment_named {file_content} (d : gmap string file_content) : Prop :=
  ∀ f, is_Some (d !! f) → allowed_file f = true →
       ∃ stem, f = stem +:+ ".jpg" ∧ leading_dot stem = false.

  (** What holds in every state reached from an enrolment-named store:
      the folder stays enrolment-named, no label is listed twice, and the
      two lists stay parallel. *)
Definition registry_ok {file_content encoding} (s : @state file_content encoding) : Prop :=
  enrollment_named (known_faces_folder s)
  ∧ NoDup (known_face_names s)
  ∧ length (known_face_encodings s) = length (known_face_names s).

  (** A face library to run the service on: a file holds the encodings
      of the faces it shows, [None] when it cannot be decoded. *)
Definition demo_load (content : option (list nat)) : option (list nat) := content.
Definition demo_encodings (image : list nat) : list nat := image.

  (** A service started on a folder that holds one image of alice. *)
Definition demo_alice_enrolled : @state (option (list nat)) nat :=
  startup demo_load demo_encodings {[ "alice.jpg" := Some [7] ]}.

  (** A service started on an empty folder, after bob has enrolled. *)
Definition demo_bob_enrolled : @state (option (list nat)) nat :=
  (register_face NFKD_of_ascii_text demo_load demo_encodings
     {| filename := "portrait.png"; stream := Some [3] |} "bob"
     (startup demo_load demo_encodings ∅)).2.

End FaceService.

(* ===================================================================== *)
(** * services/feature_extraction.py *)
(* ===================================================================== *)

Module FeatureExtraction.
  Import Numpy.

  (** [class FeatureExtractionMethod(Enum)]. *)
Inductive FeatureExtractionMethod := HOG | CNN | CUSTOM_HOG | LBP.

#[export] Instance FeatureExtractionMethod_eq_dec : EqDecision FeatureExtractionMethod.
Proof. solve_decision. Defined.

  (** [FeatureExtractionMethod(value)]: the member with that value;
      [ValueError] ([None]) when there is none. *)
Definition method_of_value (value : string) : option FeatureExtractionMethod :=
  if String.eqb value "hog" then Some HOG
  else if String.eqb value "cnn" then Some CNN
  else if String.eqb value "custom_hog" then Some CUSTOM_HOG
  else if String.eqb value "lbp" then Some LBP
  else None.

  (** [set_method] called with a string: the lower-cased name, [HOG] when
      it names no method. *)
Definition set_method (method : string) : FeatureExtractionMethod :=
  match method_of_value (FileUtils.lower method) with
  | Some m => m
  | None => HOG
  end.

  (** A face rectangle [(top, right, bottom, left)]. *)
Abbreviation box := (Z * Z * Z * Z)%type.

  (** OpenCV returns [(x, y, w, h)]; both cascade detectors convert with
      [(y, x + w, y + h, x)]. *)
Definition to_css (rect : Z * Z * Z * Z) : box :=
  let '(x, y, w, h) := rect in (y, x + w, y + h, x)%Z.

  (** A grayscale image: rows of pixel values. *)
Abbreviation gray_image := (list (list Z)).

  (** [image.shape]. *)
Definition shape (image : gray_image) : nat * nat :=
  (length image, length (hd [] image)).

  (** [image[i, j]] for indices within the image. *)
Definition pixel (image : gray_image) (i j : nat) : Z :=
  nth j (nth i image []) 0%Z.

  (** [a >= b] as the integer numpy shifts: 1 or 0. *)
Definition ge_bit (a b : Z) : Z := if (b <=? a)%Z then 1%Z else 0%Z.

  (** The eight comparisons of [_extract_lbp_features] at pixel [(i, j)],
      in program order: top-left gets bit 7, then clockwise down to the
      left neighbour at bit 0. *)
Definition lbp_code (image : gray_image) (i j : nat) : Z :=
  let center := pixel image i j in
  let code := 0%Z in
  let code := Z.lor code (Z.shiftl (ge_bit (pixel image (i - 1) (j - 1)) center) 7) in
  let code := Z.lor code (Z.shiftl (ge_bit (pixel image (i - 1) j) center) 6) in
  let code := Z.lor code (Z.shiftl (ge_bit (pixel image (i - 1) (j + 1)) center) 5) in
  let code := Z.lor code (Z.shiftl (ge_bit (pixel image i (j + 1)) center) 4) in
  let code := Z.lor code (Z.shiftl (ge_bit (pixel image (i + 1) (j + 1)) center) 3) in
  let code := Z.lor code (Z.shiftl (ge_bit (pixel image (i + 1) j) center) 2) in
  let code := Z.lor code (Z.shiftl (ge_bit (pixel image (i + 1) (j - 1)) center) 1) in
  let code := Z.lor code (Z.shiftl (ge_bit (pixel image i (j - 1)) center) 0) in
  code.

  (** The eight neighbours as row and column offsets, clockwise from the
      top-left one, and the neighbour of [(i, j)] at an offset. *)
Definition clockwise_from_top_left : list (Z * Z) :=
  [(-1, -1); (-1, 0); (-1, 1); (0, 1); (1, 1); (1, 0); (1, -1); (0, -1)]%Z.

Definition neighbour (image : gray_image) (i j : nat) (offset : Z * Z) : Z :=
  pixel image (Z.to_nat (Z.of_nat i + offset.1)) (Z.to_nat (Z.of_nat j + offset.2)).

  (** [np.zeros_like]. *)
Definition zeros_like (image : gray_image) : gray_image :=
  map (map (λ _, 0%Z)) image.

  (** [a[i, j] = v] on an array of unsigned bytes. *)
Definition set_pixel (a : gray_image) (i j : nat) (v : Z) : gray_image :=
  alter (λ row, <[j := (v mod 256)%Z]> row) i a.

  (** The two nested loops: [for i in range(1, rows - 1)],
      [for j in range(1, cols - 1)], writing into [lbp_image]. *)
Definition lbp_image (image : gray_image) : gray_image :=
  let '(rows, cols) := shape image in
  foldl (λ lbp i,
           foldl (λ lbp j, set_pixel lbp i j (lbp_code image i j))
                 lbp (seq 1 (cols - 2)))
        (zeros_like image) (seq 1 (rows - 2)).

  (** [a.ravel()]. *)
Definition ravel (a : gray_image) : list Z := concat a.

  (** [np.histogram(data, bins=n, range=[0, n])] on integer data: bins of
      width one, the last one closed on the right. *)
Definition in_bin (bins b : nat) (v : Z) : bool :=
  (v =? Z.of_nat b)%Z || ((b =? bins - 1)%nat && (v =? Z.of_nat bins)%Z).

Definition bin_count (bins b : nat) (data : list Z) : Z :=
  Z.of_nat (length (filter (λ v, in_bin bins b v = true) data)).

Definition histogram (data : list Z) (bins : nat) : list Z :=
  map (λ b, bin_count bins b data) (seq 0 bins).

  (** Sum of an integer array. *)
Definition Zsum (l : list Z) : Z := foldr Z.add 0%Z l.

  (** The epsilon of the program, [1e-7]. *)
Definition epsilon : R := (1 / 10000000)%R.

  (** [_extract_lbp_features]. *)
Definition _extract_lbp_features (image : gray_image) : list R :=
  let hist := histogram (ravel (lbp_image image)) 256 in
  let hist := map IZR hist in
  map (λ x, x / (sum hist + epsilon))%R hist.

  (** The normalisation that ends [_custom_feature_extraction]. *)
Definition l2_normalize (combined_features : list R) : list R :=
  let norm := norm combined_features in
  if decide (norm > 0)%R
  then map (λ x, x / norm)%R combined_features
  else combined_features.

Section Extraction.
  (** OpenCV and the face library: colour images, the detectors, the
      colour conversion, resizing and the HOG descriptor. *)
Context {image : Type}.
Variable face_locations : string → image → list box.
Variable haarcascade_frontalface_default : gray_image → list (Z * Z * Z * Z).
Variable lbpcascade_frontalface : gray_image → list (Z * Z * Z * Z).
Variable cvtColor_RGB2GRAY : image → gray_image.
Variable resize : gray_image → nat * nat → gray_image.
Variable hog_compute : gray_image → list R.

Definition _custom_hog_detection (img : image) : list box :=
  let gray := cvtColor_RGB2GRAY img in
  map to_css (haarcascade_frontalface_default gray).

Definition _lbp_detection (img : image) : list box :=
  let gray := cvtColor_RGB2GRAY img in
  map to_css (lbpcascade_frontalface gray).

  (** [detect_faces]. *)
Definition detect_faces (method : FeatureExtractionMethod) (img : image) : list box :=
  match method with
  | HOG => face_locations "hog" img
  | CNN => face_locations "cnn" img
  | CUSTOM_HOG => _custom_hog_detection img
  | LBP => _lbp_detection img
  end.

  (** [gray[top:bottom, left:right]] for a rectangle inside the image. *)
Definition crop (gray : gray_image) (face_location : box) : gray_image :=
  let '(top, right', bottom, left') := face_location in
  map (λ row, take (Z.to_nat right' - Z.to_nat left') (drop (Z.to_nat left') row))
      (take (Z.to_nat bottom - Z.to_nat top) (drop (Z.to_nat top) gray)).

  (** The descriptor of one face image already resized to 128 x 128:
      HOG of its 64 x 64 reduction, then LBP, concatenated and
      normalised. *)
Definition combined_features (face_image : gray_image) : list R :=
  let h := hog_compute (resize face_image (64, 64)) in
  let lbp_features := _extract_lbp_features face_image in
  h ++ lbp_features.

Definition custom_descriptor (face_image : gray_image) : list R :=
  l2_normalize (combined_features face_image).

  (** [_custom_feature_extraction]. *)
Definition _custom_feature_extraction (img : image) (face_locations : list box)
    : list (list R) :=
  let gray := cvtColor_RGB2GRAY img in
  map (λ face_location,
         let face_image := crop gray face_location in
         let face_image := resize face_image (128, 128) in
         custom_descriptor face_image)
      face_locations.

End Extraction.

  (** An image of [rows] rows of [cols] pixels. *)
Definition has_shape (image : gray_image) (rows cols : nat) : Prop :=
  length image = rows ∧ Forall (λ row, length row = cols) image.

  (** Content of the LBP image once both loops are done: the code at
      the interior pixels, zero on the one-pixel border. *)
Definition lbp_cell (image : gray_image) (rows cols i j : nat) : Z :=
  if decide ((1 ≤ i ∧ i + 2 ≤ rows) ∧ (1 ≤ j ∧ j + 2 ≤ cols))%nat
  then lbp_code image i j else 0%Z.

  (** Weight of a border pixel, left at zero, in bin [b]. *)
Definition zero_weight (b : nat) : Z := if bool_decide (b = 0) then 1%Z else 0%Z.

  (** ** What the specification describes for the LBP component: the
      histogram of the codes of the interior pixels alone, normalised by
      their number plus epsilon. *)

Definition interior_codes (image : gray_image) : list Z :=
  let '(rows, cols) := shape image in
  i ← seq 1 (rows - 2); j ← seq 1 (cols - 2); [lbp_code image i j].

Definition interior_lbp_histogram (image : gray_image) : list R :=
  let codes := interior_codes image in
  map (λ c, IZR c / (IZR (Z.of_nat (length codes)) + epsilon))%R (histogram codes 256).

  (** A uniformly black 128 x 128 crop. *)
Definition black_crop : gray_image := replicate 128 (replicate 128 0%Z).

End FeatureExtraction.

(* ===================================================================== *)
(** * services/cnn.py: the trainable classifier *)
(* ===================================================================== *)

Module CNN.
  Import Numpy FileUtils.

  (** [s.endswith(suffix)]. *)
Definition endswith (s suffix : string) : bool :=
  (String.length suffix <=? String.length s)
  && String.eqb (substring (String.length s - String.length suffix)
                           (String.length suffix) s) suffix.

  (** [filename.lower().endswith(('.png', '.jpg', '.jpeg'))]. *)
Definition is_image_name (filename : string) : bool :=
  let name := lower filename in
  endswith name ".png" || endswith name ".jpg" || endswith name ".jpeg".

  (** One iteration of the scan of [train], on the label list alone: a
      new person is appended, a person already listed is skipped. *)
Definition scan_step (face_labels : list string) (filename : string) : list string :=
  if is_image_name filename then
    let person_name := (splitext filename).1 in
    if bool_decide (person_name ∈ face_labels) then face_labels
    else face_labels ++ [person_name]
  else face_labels.

  (** The labels the scan of a folder collects. *)
Definition scanned_labels {file_content} (folder : gmap string file_content)
    : list string :=
  foldl scan_step [] (FaceService.listdir folder).

  (** What [model.save] did: it wrote the file, or it raised and left at
      the path what [left_behind] says (nothing, the earlier file, or a
      partial one). *)
Inductive save_outcome (saved_model : Type) :=
  | Saved (file : saved_model)
  | SaveRaised (left_behind : option saved_model).
#[global] Arguments Saved {_} _.
#[global] Arguments SaveRaised {_} _.

  (** The one-digit decimal numeral of [i], for [f'aug_{i}.jpg']. *)
Definition digit (i : nat) : string := String (ascii_of_nat (48 + i)) EmptyString.

Section Classifier.
  (** Keras and OpenCV.  [_create_model] builds the network for a number
      of classes; [imread] reads an image ([None] for OpenCV's [None] on
      an unreadable file); [random_variation person i] is the [i]-th
      randomly rotated and brightened copy made for a person;
      [flow_from_directory] builds the training and the validation
      generator over the training directory; [model_fit] returns the
      network as the call leaves it and whether it returned normally;
      [model_save] and [load_model] write and read the network file;
      [_preprocess_image] and [model_predict] are the inference calls.
      A call that can raise returns [None]. *)
Context {Model saved_model file_content train_image generators face_image tensor : Type}.
Variable _create_model : nat → option Model.
Variable imread : file_content → option train_image.
Variable random_variation : string → nat → train_image → train_image.
Variable flow_from_directory
  : gmap string (gmap string train_image) → nat → option generators.
Variable model_fit : Model → generators → nat → nat → Model * bool.
Variable model_save : Model → option saved_model → save_outcome saved_model.
Variable load_model : saved_model → option Model.
Variable _preprocess_image : face_image → option tensor.
Variable model_predict : Model → tensor → option (list R).

  (** The fields of a [CNNFaceModel] object. *)
Record CNNFaceModel := {
  model : option Model;
  face_labels : list string;
  is_trained : bool
}.

  (** The models directory: the saved network
      ([face_recognition_model.h5]), the saved labels ([face_labels.pkl])
      and the training directory [train_data], which holds one directory
      of image files per person ([None] while it does not exist). *)
Record models_dir := {
  model_file : option saved_model;
  labels_file : option (list string);
  train_data : option (gmap string (gmap string train_image))
}.

  (** [_load_model]: a network file that cannot be loaded leaves the
      object as it was, marked untrained. *)
Definition _load_model (self : CNNFaceModel) (disk : models_dir) : bool * CNNFaceModel :=
  let not_loaded :=
    (false, {| model := model self; face_labels := face_labels self;
               is_trained := false |}) in
  match model_file disk, labels_file disk with
  | Some file, Some labels =>
      match load_model file with
      | Some m => (true, {| model := Some m; face_labels := labels; is_trained := true |})
      | None => not_loaded
      end
  | _, _ => not_loaded
  end.

  (** [__init__]. *)
Definition init (disk : models_dir) : CNNFaceModel :=
  (_load_model {| model := None; face_labels := []; is_trained := false |} disk).2.

  (** [_save_model]: the labels are written after the network, so a
      [model.save] that raises leaves the label file alone. *)
Definition _save_model (self : CNNFaceModel) (disk : models_dir) : bool * models_dir :=
  match model self with
  | Some m =>
      match model_save m (model_file disk) with
      | Saved file =>
          (true, {| model_file := Some file; labels_file := Some (face_labels self);
                    train_data := train_data disk |})
      | SaveRaised left_behind =>
          (false, {| model_file := left_behind; labels_file := labels_file disk;
                     train_data := train_data disk |})
      end
  | None => (false, disk)
  end.

  (** What [train] writes into the directory of a person: nothing when
      the image cannot be read, else the image and ten variations. *)
Definition person_files (person_name : string) (image : option train_image)
    : gmap string train_image :=
  match image with
  | None => ∅
  | Some image =>
      foldl (λ person_dir i,
               <["aug_" +:+ digit i +:+ ".jpg" := random_variation person_name i image]>
                 person_dir)
        {[ "original.jpg" := image ]} (seq 0 10)
  end.

  (** One iteration of the scan of [train], on the label list and the
      training directory: a new person is appended and gets a directory,
      a person already listed is skipped. *)
Definition scan_entry (known_faces_folder : gmap string file_content)
    (acc : list string * gmap string (gmap string train_image)) (filename : string)
    : list string * gmap string (gmap string train_image) :=
  if is_image_name filename then
    let person_name := (splitext filename).1 in
    if bool_decide (person_name ∈ acc.1) then acc
    else
      (acc.1 ++ [person_name],
       <[person_name := person_files person_name (known_faces_folder !! filename ≫= imread)]>
         acc.2)
  else acc.

  (** The training directory as the scan of a folder leaves it. *)
Definition training_directory (known_faces_folder : gmap string file_content)
    : gmap string (gmap string train_image) :=
  (foldl (scan_entry known_faces_folder) ([], ∅)
     (FaceService.listdir known_faces_folder)).2.

  (** [train]; [known_faces_folder] is [None] when the path does not
      exist.  The training directory is created if need be and emptied
      (it holds nothing but the person directories [train] itself makes),
      then refilled by the scan, all of it before the number of persons
      is checked. *)
Definition train (self : CNNFaceModel) (disk : models_dir)
    (known_faces_folder : option (gmap string file_content))
    (epochs batch_size : nat) : bool * CNNFaceModel * models_dir :=
  match known_faces_folder with
  | None => (false, self, disk)
  | Some folder =>
      if bool_decide (length (FaceService.listdir folder) = 0) then (false, self, disk)
      else
        (* self.face_labels = [] and the scan of the folder *)
        let scanned := foldl (scan_entry folder) ([], ∅) (FaceService.listdir folder) in
        let disk := {| model_file := model_file disk; labels_file := labels_file disk;
                       train_data := Some scanned.2 |} in
        let self := {| model := model self; face_labels := scanned.1;
                       is_trained := is_trained self |} in
        if length (face_labels self) <? 2 then (false, self, disk)
        else
          match flow_from_directory scanned.2 batch_size with
          | None => (false, self, disk)
          | Some train_generators =>
              match _create_model (length (face_labels self)) with
              | None => (false, self, disk)
              | Some m =>
                  let fitted := model_fit m train_generators epochs batch_size in
                  let self := {| model := Some fitted.1; face_labels := face_labels self;
                                 is_trained := is_trained self |} in
                  if fitted.2 then
                    (* the result of _save_model is not looked at *)
                    let disk := (_save_model self disk).2 in
                    (true,
                     {| model := model self; face_labels := face_labels self;
                        is_trained := true |},
                     disk)
                  else (false, self, disk)
              end
          end
  end.

  (** Labels the classifier answers with when it names nobody. *)
Definition Inconnu : string := "Inconnu".
Definition Erreur : string := "Erreur".

  (** The acceptance threshold written in [predict]. *)
Definition threshold : R := (6 / 10)%R.

  (** [predict]: the name is [None] for Python's [None]. *)
Definition predict (self : CNNFaceModel) (face : face_image) : option string * R :=
  match is_trained self, model self with
  | true, Some m =>
      let attempt :=
        processed_image ← _preprocess_image face;
        predictions ← model_predict m processed_image;
        best_index ← argmax predictions;
        confidence ← predictions !! best_index;
        if decide (confidence >= threshold)%R
        then label ← face_labels self !! best_index; Some (Some label, confidence)
        else Some (Some Inconnu, confidence) in
      match attempt with
      | Some result => result
      | None => (Some Erreur, 0%R)
      end
  | _, _ => (None, 0%R)
  end.

End Classifier.

  (** Stand-ins to run the classifier on: a network is its number of
      classes and is saved as that number, every image is readable and
      its variations are the image itself, training and saving always
      succeed, and a face image is the vector of class probabilities the
      network will return for it. *)
Definition demo_create_model (num_classes : nat) : option nat := Some num_classes.
Definition demo_imread (content : unit) : option unit := Some content.
Definition demo_variation (person_name : string) (i : nat) (image : unit) : unit := image.
Definition demo_flow (train_dir : gmap string (gmap string unit)) (batch_size : nat)
    : option unit := Some tt.
Definition demo_fit (m : nat) (train_generators : unit) (epochs batch_size : nat)
    : nat * bool := (m, true).
Definition demo_save (m : nat) (previous : option nat) : save_outcome nat := Saved m.
Definition demo_load_model (file : nat) : option nat := Some file.
Definition demo_preprocess (face : list R) : option (list R) := Some face.
Definition demo_model_predict (m : nat) (x : list R) : option (list R) := Some x.

  (** [train] and [__init__] on the stand-ins. *)
Definition demo_train :=
  train demo_create_model demo_imread demo_variation demo_flow demo_fit demo_save.
Definition demo_init := init (train_image := unit) demo_load_model.

  (** A classifier just constructed with nothing saved on disk. *)
Definition fresh_classifier : @CNNFaceModel nat :=
  {| model := None; face_labels := []; is_trained := false |}.

  (** A classifier loaded from a model trained on alice and bob. *)
Definition trained_classifier : @CNNFaceModel nat :=
  {| model := Some 2; face_labels := ["alice"; "bob"]; is_trained := true |}.

Definition empty_models_dir : @models_dir nat unit :=
  {| model_file := None; labels_file := None; train_data := None |}.

End CNN.

(* ===================================================================== *)
(** * recognition_service.py: nearest-neighbour matching *)
(* ===================================================================== *)

Module Recognition.
  Import Numpy.

  (** A face encoding: a vector of floats. *)
Abbreviation descriptor := (list R).

  (** Label reported when no identity is accepted (the program's
      ["Inconnu"], which the specification renders as "Unknown"). *)
Definition Inconnu : string := "Inconnu".

  (** One row of the array minus the probe, under numpy's broadcasting:
      entry by entry when the lengths agree, else the one-entry operand is
      repeated along the other. *)
Definition broadcast_sub (e face_to_compare : descriptor) : descriptor :=
  if length e =? length face_to_compare then zip_with Rminus e face_to_compare
  else
    match face_to_compare, e with
    | [y], _ => map (λ x, x - y)%R e
    | _, [x] => map (λ y, x - y)%R face_to_compare
    | _, _ => []
    end.

  (** [face_recognition.face_distance]: an empty array for an empty
      list, else [np.linalg.norm(face_encodings - face_to_compare, axis=1)].
      The list of encodings becomes a two-dimensional array, which wants
      them all of one length, and the subtraction wants that length and
      the probe's to agree or one of the two to be 1; otherwise numpy
      raises ([None]). *)
Definition face_distance (face_encodings : list descriptor)
    (face_to_compare : descriptor) : option (list R) :=
  match face_encodings with
  | [] => Some []
  | e0 :: _ =>
      let columns := length e0 in
      let probe_length := length face_to_compare in
      if forallb (λ e, length e =? columns) face_encodings
         && ((columns =? probe_length) || (columns =? 1) || (probe_length =? 1))
      then Some (map (λ e, norm (broadcast_sub e face_to_compare)) face_encodings)
      else None
  end.

  (** Euclidean distance, written out: the square root of the sum of the
      squared coordinate differences. *)
Fixpoint sum_sq_diff (a b : descriptor) : R :=
  match a, b with
  | x :: a', y :: b' => ((x - y) ^ 2 + sum_sq_diff a' b')%R
  | _, _ => 0%R
  end.

Definition euclidean_distance (a b : descriptor) : R := sqrt (sum_sq_diff a b).

  (** Body of the per-face loop of [recognize_faces] on the standard path
      ([use_cnn_model = False]): returns [(name, confidence)], or [None]
      when an exception escapes to the handler of [recognize_faces]. *)
Definition match_face (known_face_encodings : list descriptor)
    (known_face_names : list string) (face_encoding : descriptor)
    (threshold : R) : option (string * R) :=
  let name := Inconnu in
  let confidence := 0%R in
  match known_face_encodings with
  | [] => Some (name, confidence)
  | _ :: _ =>
      face_distances ← face_distance known_face_encodings face_encoding;
      best_match_index ← argmin face_distances;
      d ← face_distances !! best_match_index;
      let confidence := (1 - d)%R in
      if decide (confidence > threshold)%R
      then name ← known_face_names !! best_match_index; Some (name, confidence)
      else Some (name, confidence)
  end.

Section Detection.
  (** The detectors behind [FeatureExtractor.detect_faces]. *)
Context {image : Type}.
Variable face_locations : string → image → list FeatureExtraction.box.
Variable haarcascade_frontalface_default
  : FeatureExtraction.gray_image → list (Z * Z * Z * Z).
Variable lbpcascade_frontalface
  : FeatureExtraction.gray_image → list (Z * Z * Z * Z).
Variable cvtColor_RGB2GRAY : image → FeatureExtraction.gray_image.

  (** [feature_extractor.detect_faces(image)], logging which method ran:
      the log is the sequence of detections made for the request. *)
Definition detect_faces_logged (method : FeatureExtraction.FeatureExtractionMethod)
    (img : image) (log : list FeatureExtraction.FeatureExtractionMethod)
    : list FeatureExtraction.box * list FeatureExtraction.FeatureExtractionMethod :=
  (FeatureExtraction.detect_faces face_locations haarcascade_frontalface_default
     lbpcascade_frontalface cvtColor_RGB2GRAY method img,
   log ++ [method]).

  (** The detection step of [recognize_faces]: the extractor is built
      from the [method] string (for a string argument the CNN-model check
      of [__init__] compares a string with an enum member and is skipped),
      faces are detected, and detection is run again with HOG when nothing
      was found and [method != 'hog']. *)
Definition locate_faces (method : string) (img : image)
    : list FeatureExtraction.box * list FeatureExtraction.FeatureExtractionMethod :=
  let feature_extractor := FeatureExtraction.set_method method in
  let '(face_locations, log) := detect_faces_logged feature_extractor img [] in
  if bool_decide (face_locations = []) && negb (String.eqb method "hog")
  then
    let feature_extractor := FeatureExtraction.HOG in
    detect_faces_logged feature_extractor img log
  else (face_locations, log).

End Detection.

  (** Detectors that find nothing, to run the detection step on. *)
Definition blind_face_locations (model : string) (img : unit)
    : list FeatureExtraction.box := [].
Definition blind_cascade (gray : FeatureExtraction.gray_image)
    : list (Z * Z * Z * Z) := [].
Definition blank_gray (img : unit) : FeatureExtraction.gray_image := [].

End Recognition.

(* ===================================================================== *)
(** * recognition_service.py: [recognize_faces] as a whole *)
(* ===================================================================== *)

Module RecognizeFaces.
  Import Numpy FileUtils FeatureExtraction Recognition.

  (** What a detected face is compared with: its encoding, or the
      placeholder [True] put in the list when the classifier is
      requested. *)
Inductive face_probe := Encoding (d : list R) | Placeholder.

  (** One entry of ["results"]; [name] is [None] for Python's [None]. *)
Record face_result := {
  id : nat;
  name : option string;
  confidence : R;
  result_method : string;
  location : box
}.

  (** The body of a successful response. *)
Record recognition := {
  faces_detected : nat;
  results : list face_result;
  response_method : string;
  output_image : option string
}.

  (** The pair returned: a response with status 200, or an error status. *)
Inductive reply := Recognized (r : recognition) | Failed (status_code : nat).

Section Recognize.
  (** The libraries: image decoding, the detectors and extractors of
      [FeatureExtractor], the standard encoder
      [face_recognition.face_encodings(image, locations)], array slicing
      of the colour image, the classifier's Keras and OpenCV calls, and
      [cv2.imwrite] of the annotated image (which raises, among others,
      on a file name without a known image extension).  [threshold] is
      [FACE_RECOGNITION_THRESHOLD]. *)
Context {file_content image face_image tensor Model saved_model train_image generators : Type}.
Variable normalize_NFKD : string → string.
Variable load_image_file : file_content → option image.
Variable face_locations : string → image → list box.
Variable haarcascade_frontalface_default : gray_image → list (Z * Z * Z * Z).
Variable lbpcascade_frontalface : gray_image → list (Z * Z * Z * Z).
Variable cvtColor_RGB2GRAY : image → gray_image.
Variable resize : gray_image → nat * nat → gray_image.
Variable hog_compute : gray_image → list R.
Variable face_encodings_at : image → list box → option (list (list R)).
Variable crop_image : image → box → face_image.
Variable _create_model : nat → option Model.
Variable imread : file_content → option train_image.
Variable random_variation : string → nat → train_image → train_image.
Variable flow_from_directory
  : gmap string (gmap string train_image) → nat → option generators.
Variable model_fit : Model → generators → nat → nat → Model * bool.
Variable model_save : Model → option saved_model → CNN.save_outcome saved_model.
Variable load_model : saved_model → option Model.
Variable _preprocess_image : face_image → option tensor.
Variable model_predict : Model → tensor → option (list R).
Variable imwrite : string → image → list face_result → option file_content.
Variable threshold : R.

  (** [feature_extractor.extract_features(image, face_locations)]. *)
Definition extract_features (method : FeatureExtractionMethod) (img : image)
    (locations : list box) : option (list face_probe) :=
  match method with
  | CUSTOM_HOG | LBP =>
      Some (map Encoding
              (_custom_feature_extraction cvtColor_RGB2GRAY resize hog_compute
                 img locations))
  | HOG | CNN => map Encoding <$> face_encodings_at img locations
  end.

  (** The classifier of the request: [None] unless requested; otherwise a
      new [CNNFaceModel], trained on the known-faces folder with the
      default arguments when the models directory gave no trained one. *)
Definition request_classifier (use_cnn_model : bool)
    (known_faces_folder : gmap string file_content) (disk : @CNN.models_dir saved_model train_image)
    : option (@CNN.CNNFaceModel Model) * @CNN.models_dir saved_model train_image :=
  if use_cnn_model then
    let cnn_model := CNN.init load_model disk in
    if CNN.is_trained cnn_model then (Some cnn_model, disk)
    else
      let r := CNN.train _create_model imread random_variation flow_from_directory
                 model_fit model_save cnn_model disk (Some known_faces_folder) 10 32 in
      (Some r.1.2, r.2)
  else (None, disk).

  (** The body of the loop over the detected faces, for face number [i]:
      [None] when an exception leaves the loop.  Subtracting the
      placeholder from the list of known encodings raises [TypeError]. *)
Definition identify_face (method : string) (use_cnn_model : bool)
    (cnn_model : option (@CNN.CNNFaceModel Model))
    (known_face_encodings : list (list R)) (known_face_names : list string)
    (img : image) (i : nat) (face_location : box) (face_encoding : face_probe)
    : option face_result :=
  let standard :=
    match known_face_encodings, face_encoding with
    | [], _ => Some (Some Inconnu, 0%R)
    | _ :: _, Encoding d =>
        (λ r : string * R, (Some r.1, r.2))
          <$> match_face known_face_encodings known_face_names d threshold
    | _ :: _, Placeholder => None
    end in
  let answer :=
    match use_cnn_model, cnn_model with
    | true, Some cnn =>
        if CNN.is_trained cnn
        then Some (CNN.predict _preprocess_image model_predict cnn
                     (crop_image img face_location))
        else standard
    | true, None => None
    | false, _ => standard
    end in
  (λ a : option string * R,
     {| id := i; name := a.1; confidence := a.2;
        result_method := if use_cnn_model then "cnn_model" else method;
        location := face_location |}) <$> answer.

  (** [for i, (face_location, face_encoding) in enumerate(zip(...))]. *)
Fixpoint identify_faces (method : string) (use_cnn_model : bool)
    (cnn_model : option (@CNN.CNNFaceModel Model))
    (known_face_encodings : list (list R)) (known_face_names : list string)
    (img : image) (i : nat) (faces : list (box * face_probe))
    : option (list face_result) :=
  match faces with
  | [] => Some []
  | (face_location, face_encoding) :: rest =>
      r ← identify_face method use_cnn_model cnn_model known_face_encodings
             known_face_names img i face_location face_encoding;
      rs ← identify_faces method use_cnn_model cnn_model known_face_encodings
              known_face_names img (S i) rest;
      Some (r :: rs)
  end.

  (** [recognize_faces]: the reply, the upload folder and the models
      directory after the call.  An upload whose sanitised name is empty
      cannot be saved (the path is the upload folder itself). *)
Definition recognize_faces (file : @FaceService.FileStorage file_content)
    (save_result : bool) (method : string) (use_cnn_model : bool)
    (uploads : gmap string file_content)
    (known : @FaceService.state file_content (list R))
    (disk : @CNN.models_dir saved_model train_image)
    : reply * gmap string file_content * @CNN.models_dir saved_model train_image :=
  if bool_decide (FaceService.filename file = EmptyString)
  then (Failed 400, uploads, disk)
  else
    let filename := secure_filename normalize_NFKD (FaceService.filename file) in
    if bool_decide (filename = EmptyString) then (Failed 500, uploads, disk)
    else
      let uploads := <[filename := FaceService.stream file]> uploads in
      match load_image_file (FaceService.stream file) with
      | None => (Failed 500, uploads, disk)
      | Some img =>
          let '(cnn_model, disk) :=
            request_classifier use_cnn_model (FaceService.known_faces_folder known) disk in
          let '(face_locations, log) :=
            locate_faces face_locations haarcascade_frontalface_default
              lbpcascade_frontalface cvtColor_RGB2GRAY method img in
          let extractor := List.last log HOG in
          let '(known_face_encodings, known_face_names) :=
            FaceService.get_known_faces known in
          let face_encodings :=
            if use_cnn_model then Some (replicate (length face_locations) Placeholder)
            else extract_features extractor img face_locations in
          match face_encodings with
          | None => (Failed 500, uploads, disk)
          | Some face_encodings =>
              match identify_faces method use_cnn_model cnn_model known_face_encodings
                      known_face_names img 0 (zip face_locations face_encodings) with
              | None => (Failed 500, uploads, disk)
              | Some results =>
                  let response output_filename :=
                    Recognized
                      {| faces_detected := length face_locations;
                         results := results;
                         response_method := if use_cnn_model then "cnn_model" else method;
                         output_image := output_filename |} in
                  if save_result && negb (bool_decide (face_locations = []))
                  then
                    let output_filename := "result_" +:+ filename in
                    match imwrite output_filename img results with
                    | None => (Failed 500, uploads, disk)
                    | Some annotated =>
                        (response (Some output_filename),
                         <[output_filename := annotated]> uploads, disk)
                    end
                  else (response None, uploads, disk)
              end
          end
      end.

End Recognize.

  (** A request to run: one-pixel "images" whose content is the list of
      face rectangles the HOG detector sees, an encoder that gives every
      face the same encoding, no classifier training. *)
Definition demo_recognize (file : @FaceService.FileStorage (list box))
    (save_result : bool) (method : string) (use_cnn_model : bool)
    (uploads : gmap string (list box))
    (known : @FaceService.state (list box) (list R))
    (disk : @CNN.models_dir nat unit) :=
  recognize_faces (image := list box) (face_image := unit) (tensor := unit)
    (generators := unit)
    NFKD_of_ascii_text
    Some (λ _ img, img) (λ _, []) (λ _, []) (λ _, []) (λ g _, g) (λ _, [])
    (λ _ locations, Some (map (λ _, [0; 0]%R) locations)) (λ _ _, tt)
    (λ _, None) (λ _, None) (λ _ _ img, img) (λ _ _, None) (λ m _ _ _, (m, false))
    (λ _ previous, CNN.SaveRaised previous) Some
    (λ _, None) (λ _ _, None)
    (λ _ img _, Some img) (6 / 10)%R
    file save_result method use_cnn_model uploads known disk.

Definition demo_registry : @FaceService.state (list box) (list R) :=
  {| FaceService.known_faces_folder := ∅;
     FaceService.known_face_encodings := [[0; 0]%R];
     FaceService.known_face_names := ["alice"] |}.

  (** An empty registry, an upload showing two faces and one showing none. *)
Definition demo_nobody : @FaceService.state (list box) (list R) :=
  {| FaceService.known_faces_folder := ∅;
     FaceService.known_face_encodings := [];
     FaceService.known_face_names := [] |}.

Definition demo_upload : @FaceService.FileStorage (list box) :=
  {| FaceService.filename := "photo.jpg";
     FaceService.stream := [(10, 60, 50, 20)%Z; (10, 160, 50, 120)%Z] |}.

Definition demo_blank_upload : @FaceService.FileStorage (list box) :=
  {| FaceService.filename := "wall.png"; FaceService.stream := [] |}.

Definition demo_locate_faces (method : string) (img : list box) :=
  locate_faces (image := list box) (λ _ img, img) (λ _, []) (λ _, []) (λ _, [])
    method img.

Definition demo_reply : recognition :=
  {| faces_detected := 2;
     results :=
       [ {| id := 0; name := Some Inconnu; confidence := 0%R;
            result_method := "hog"; location := (10, 60, 50, 20)%Z |};
         {| id := 1; name := Some Inconnu; confidence := 0%R;
            result_method := "hog"; location := (10, 160, 50, 120)%Z |} ];
     response_method := "hog";
     output_image := Some "result_photo.jpg" |}.

  (** The same request run with cascade detectors that find one face,
      and a registry holding one 128-entry encoding as the standard
      encoder produces them. *)
Definition demo_recognize_cascade (file : @FaceService.FileStorage (list box))
    (save_result : bool) (method : string) (use_cnn_model : bool)
    (uploads : gmap string (list box))
    (known : @FaceService.state (list box) (list R))
    (disk : @CNN.models_dir nat unit) :=
  recognize_faces (image := list box) (face_image := unit) (tensor := unit)
    (generators := unit)
    NFKD_of_ascii_text
    Some (λ _ img, img) (λ _, [(20, 10, 30, 40)%Z]) (λ _, [(20, 10, 30, 40)%Z])
    (λ _, []) (λ g _, g) (λ _, [])
    (λ _ locations, Some (map (λ _, replicate 128 0%R) locations)) (λ _ _, tt)
    (λ _, None) (λ _, None) (λ _ _ img, img) (λ _ _, None) (λ m _ _ _, (m, false))
    (λ _ previous, CNN.SaveRaised previous) Some
    (λ _, None) (λ _ _, None)
    (λ _ img _, Some img) (6 / 10)%R
    file save_result method use_cnn_model uploads known disk.

Definition demo_registry_128 : @FaceService.state (list box) (list R) :=
  {| FaceService.known_faces_folder := ∅;
     FaceService.known_face_encodings := [replicate 128 0%R];
     FaceService.known_face_names := ["alice"] |}.

End RecognizeFaces.

(* ===================================================================== *)
(** * Theorems *)
(* ===================================================================== *)

Module NumpyFacts.
  Import Numpy.

  (** Specification of the scan: the result indexes a best element of the
      whole array, and every earlier element is strictly worse. *)
Lemma scan_best_min (pre l : list R) (best : nat) (bv : R) :
  (pre ++ l) !! best = Some bv →
  best < length pre →
  (∀ j w, pre !! j = Some w → (bv <= w)%R) →
  (∀ j w, j < best → pre !! j = Some w → (bv < w)%R) →
  let k := scan_best Rlt best bv (length pre) l in
  ∃ v, (pre ++ l) !! k = Some v
       ∧ (∀ j w, (pre ++ l) !! j = Some w → (v <= w)%R)
       ∧ (∀ j w, j < k → (pre ++ l) !! j = Some w → (v < w)%R).
Proof.
  revert pre best bv.
  induction l as [|x t IH]; intros pre best bv Hb Hlt Hle Hfirst; simpl.
  - rewrite app_nil_r in *. exists bv. split_and!; eauto.
  - assert (Hpre : (pre ++ x :: t) = (pre ++ [x]) ++ t) by by rewrite <- app_assoc.
    assert (Hlen : S (length pre) = length (pre ++ [x])) by (rewrite length_app; simpl; lia).
    destruct (decide (x < bv)%R) as [Hx|Hx].
    + rewrite Hpre, Hlen. apply IH.
      * rewrite <- Hpre. rewrite lookup_app_r by lia.
        by rewrite Nat.sub_diag.
      * rewrite length_app; simpl; lia.
      * intros j w Hj. apply lookup_app_Some in Hj as [Hj|[Hge Hj]].
        -- specialize (Hle _ _ Hj). lra.
        -- apply list_lookup_singleton_Some in Hj as [_ <-]. lra.
      * intros j w Hjlt Hj. rewrite lookup_app_l in Hj by lia.
        specialize (Hle _ _ Hj). lra.
    + rewrite Hpre, Hlen. apply IH.
      * by rewrite <- Hpre.
      * rewrite length_app; simpl; lia.
      * intros j w Hj. apply lookup_app_Some in Hj as [Hj|[Hge Hj]].
        -- eauto.
        -- apply list_lookup_singleton_Some in Hj as [_ <-]. lra.
      * intros j w Hjlt Hj. rewrite lookup_app_l in Hj by lia. eauto.
Qed.

Lemma argmin_spec (l : list R) (k : nat) :
  argmin l = Some k →
  ∃ v, l !! k = Some v
       ∧ (∀ j w, l !! j = Some w → (v <= w)%R)
       ∧ (∀ j w, j < k → l !! j = Some w → (v < w)%R).
Proof.
  destruct l as [|x t]; simpl; [done|]. intros [= <-].
  apply (scan_best_min [x] t 0 x); simpl; try done; try lia.
  intros [|j] w; simpl; [intros [= <-]; lra | done].
Qed.

Lemma argmin_is_Some (l : list R) : l ≠ [] → is_Some (argmin l).
Proof. destruct l; [done|]. simpl; eauto. Qed.

  (** Scanning for the greatest is scanning the negated array for the
      least. *)
Lemma scan_best_gt_lt (l : list R) (best : nat) (bv : R) (i : nat) :
  scan_best Rgt best bv i l = scan_best Rlt best (- bv) i (map Ropp l).
Proof.
  revert best bv i. induction l as [|x t IH]; intros best bv i; simpl; [done|].
  destruct (decide (x > bv)%R), (decide (- x < - bv)%R); try lra; apply IH.
Qed.

Lemma argmax_argmin (l : list R) : argmax l = argmin (map Ropp l).
Proof. destruct l as [|x t]; simpl; [done|]. by rewrite scan_best_gt_lt. Qed.

Lemma argmax_spec (l : list R) (k : nat) :
  argmax l = Some k →
  ∃ v, l !! k = Some v
       ∧ (∀ j w, l !! j = Some w → (w <= v)%R)
       ∧ (∀ j w, j < k → l !! j = Some w → (w < v)%R).
Proof.
  rewrite argmax_argmin. intros Hk.
  destruct (argmin_spec _ _ Hk) as (v & Hv & Hmin & Hfirst).
  rewrite list_lookup_fmap in Hv.
  destruct (l !! k) as [u|] eqn:Hu; simpl in Hv; [|done].
  injection Hv as <-. exists u. split_and!; [done| |].
  - intros j w Hj. specialize (Hmin j (- w)%R).
    rewrite list_lookup_fmap, Hj in Hmin. specialize (Hmin eq_refl). lra.
  - intros j w Hlt Hj. specialize (Hfirst j (- w)%R Hlt).
    rewrite list_lookup_fmap, Hj in Hfirst. specialize (Hfirst eq_refl). lra.
Qed.

Lemma argmax_None (l : list R) : argmax l = None ↔ l = [].
Proof. by destruct l. Qed.

End NumpyFacts.

(* --------------------------------------------------------------------- *)
(** ** File names *)
(* --------------------------------------------------------------------- *)

Module FileUtilsFacts.
  Import FileUtils FaceService.

Lemma rsplit_dot_jpg (s : string) : rsplit_dot (s +:+ ".jpg") = Some (s, "jpg").
Proof. induction s as [|c s IH]; [done|]. simpl. by rewrite IH. Qed.

Lemma allowed_file_jpg (s : string) : allowed_file (s +:+ ".jpg") = true.
Proof. unfold allowed_file. rewrite rsplit_dot_jpg. by vm_compute. Qed.

Lemma all_dots_leading (s : string) :
  s ≠ EmptyString → leading_dot s = false → all_dots s = false.
Proof. destruct s as [|c s]; [done|]. simpl. by intros _ ->. Qed.

  (** The label read back from an enrolment-named entry. *)
Lemma label_of_jpg (s : string) :
  leading_dot s = false →
  label_of (s +:+ ".jpg") = if decide (s = EmptyString) then ".jpg" else s.
Proof.
  intros Hs. unfold label_of, splitext. rewrite rsplit_dot_jpg.
  destruct (decide (s = EmptyString)) as [->|Hne]; [done|].
  by rewrite all_dots_leading.
Qed.

Lemma label_of_jpg_inj (s1 s2 : string) :
  leading_dot s1 = false → leading_dot s2 = false →
  label_of (s1 +:+ ".jpg") = label_of (s2 +:+ ".jpg") → s1 = s2.
Proof.
  intros H1 H2. rewrite !label_of_jpg by done.
  repeat case_decide; subst; try done.
  - intros <-. done.
  - intros ->. done.
Qed.

Lemma lstrip_head (l : list ascii) (c : ascii) :
  head (lstrip l) = Some c → is_strip_char c = false.
Proof.
  induction l as [|a l IH]; simpl; [done|].
  destruct (is_strip_char a) eqn:Ha; [done|]. simpl. by intros [= <-].
Qed.

Lemma rstrip_head (l : list ascii) (c : ascii) :
  head (rstrip l) = Some c → head l = Some c.
Proof.
  destruct l as [|a l]; simpl; [done|].
  destruct (rstrip l); [destruct (is_strip_char a)|]; simpl; done.
Qed.

Lemma leading_dot_of_list (l : list ascii) :
  leading_dot (string_of_list_ascii l)
  = match head l with Some c => Ascii.eqb c "." | None => false end.
Proof. by destruct l. Qed.

Section Sanitise.
Variable normalize_NFKD : string → string.

#[local] Abbreviation secure_filename := (secure_filename normalize_NFKD).
#[local] Abbreviation store_key := (store_key normalize_NFKD).

  (** [secure_filename] never returns a name starting with a dot. *)
Lemma secure_filename_no_leading_dot (name : string) :
  leading_dot (secure_filename name) = false.
Proof.
  unfold secure_filename. rewrite leading_dot_of_list.
  destruct (head (rstrip _)) as [c|] eqn:Hc; [|done].
  apply rstrip_head, lstrip_head in Hc.
  unfold is_strip_char in Hc. by apply orb_false_iff in Hc as [-> _].
Qed.

Lemma enrollment_named_empty {C} : enrollment_named (∅ : gmap string C).
Proof. intros f [x Hx]. by rewrite lookup_empty in Hx. Qed.

Lemma enrollment_named_insert {C} (d : gmap string C) (name : string) (c : C) :
  enrollment_named d → enrollment_named (<[store_key name := c]> d).
Proof.
  intros Hd f Hf Ha. destruct (decide (f = store_key name)) as [->|Hne].
  - exists (secure_filename name). split; [done|].
    apply secure_filename_no_leading_dot.
  - rewrite lookup_insert_ne in Hf by done. by apply Hd.
Qed.

End Sanitise.

Lemma enrollment_named_delete {C} (d : gmap string C) (k : string) :
  enrollment_named d → enrollment_named (delete k d).
Proof.
  intros Hd f Hf Ha. apply Hd; [|done].
  destruct Hf as [x Hx]. apply lookup_delete_Some in Hx as [_ Hx]. eauto.
Qed.

  (** On an enrolment-named folder distinct image files carry distinct
      labels. *)
Lemma enrollment_named_label_inj {C} (d : gmap string C) (f1 f2 : string) :
  enrollment_named d →
  is_Some (d !! f1) → allowed_file f1 = true →
  is_Some (d !! f2) → allowed_file f2 = true →
  label_of f1 = label_of f2 → f1 = f2.
Proof.
  intros Hd Hf1 Ha1 Hf2 Ha2 Heq.
  destruct (Hd f1 Hf1 Ha1) as (s1 & -> & Hs1).
  destruct (Hd f2 Hf2 Ha2) as (s2 & -> & Hs2).
  f_equal. by apply label_of_jpg_inj.
Qed.

End FileUtilsFacts.

(* --------------------------------------------------------------------- *)
(** ** The identity store and the registry *)
(* --------------------------------------------------------------------- *)

Module FaceServiceFacts.
  Import FileUtils FaceService FileUtilsFacts.

Section Service.
Context {file_content image encoding : Type}.
Variable normalize_NFKD : string → string.
Variable load_image_file : file_content → option image.
Variable face_encodings : image → list encoding.

#[local] Abbreviation state := (@state file_content encoding).
#[local] Abbreviation secure_filename := (secure_filename normalize_NFKD).
#[local] Abbreviation store_key := (store_key normalize_NFKD).
#[local] Abbreviation load_known_faces := (load_known_faces load_image_file face_encodings).
#[local] Abbreviation register_face :=
  (register_face normalize_NFKD load_image_file face_encodings).
#[local] Abbreviation delete_face :=
  (delete_face normalize_NFKD load_image_file face_encodings).
#[local] Abbreviation identity_of := (identity_of load_image_file face_encodings).
#[local] Abbreviation identities := (identities load_image_file face_encodings).
#[local] Abbreviation load_one := (load_one load_image_file face_encodings).
#[local] Abbreviation reachable :=
  (reachable normalize_NFKD load_image_file face_encodings).
#[local] Abbreviation registry_ok := (@registry_ok file_content encoding).

Lemma load_one_identity (d : gmap string file_content) acc f :
  load_one d acc f
  = match identity_of d f with
    | Some (e, n) => (acc.1 ++ [e], acc.2 ++ [n])
    | None => acc
    end.
Proof.
  unfold FaceService.load_one, FaceService.identity_of, label_of.
  destruct (allowed_file f); [|done].
  destruct (d !! f ≫= load_image_file) as [img|]; [|done].
  by destruct (face_encodings img).
Qed.

Lemma foldl_load_one (d : gmap string file_content) (l : list string) acc :
  foldl (load_one d) acc l
  = (acc.1 ++ (omap (identity_of d) l).*1, acc.2 ++ (omap (identity_of d) l).*2).
Proof.
  revert acc. induction l as [|f l IH]; intros acc; simpl.
  - rewrite !app_nil_r. by destruct acc.
  - rewrite IH, load_one_identity.
    destruct (identity_of d f) as [[e n]|]; simpl; [|done].
    by rewrite <- !app_assoc.
Qed.

  (** [load_known_faces] in closed form. *)
Lemma load_known_faces_identities (s : state) :
  known_faces_folder (load_known_faces s).2 = known_faces_folder s
  ∧ known_face_encodings (load_known_faces s).2 = (identities (known_faces_folder s)).*1
  ∧ known_face_names (load_known_faces s).2 = (identities (known_faces_folder s)).*2
  ∧ (load_known_faces s).1 = length (identities (known_faces_folder s)).
Proof.
  unfold FaceService.load_known_faces. simpl.
  rewrite foldl_load_one. simpl. by rewrite length_fmap.
Qed.

Lemma identity_of_Some (d : gmap string file_content) f e n :
  identity_of d f = Some (e, n) →
  is_Some (d !! f) ∧ allowed_file f = true ∧ n = label_of f.
Proof.
  unfold FaceService.identity_of.
  destruct (allowed_file f); [|done].
  destruct (d !! f) as [c|] eqn:Hc; simpl; [|done].
  destruct (load_image_file c) as [img|]; [|done].
  destruct (face_encodings img); [done|]. intros [= _ <-]. eauto.
Qed.

Lemma listdir_NoDup (d : gmap string file_content) : NoDup (listdir d).
Proof. apply NoDup_fst_map_to_list. Qed.

Lemma elem_of_listdir (d : gmap string file_content) f :
  f ∈ listdir d ↔ is_Some (d !! f).
Proof.
  unfold listdir. rewrite list_elem_of_fmap. split.
  - intros ([k c] & -> & Hin). apply elem_of_map_to_list in Hin. eauto.
  - intros [c Hc]. exists (f, c). split; [done|]. by apply elem_of_map_to_list.
Qed.

Lemma elem_of_identities (d : gmap string file_content) e n :
  (e, n) ∈ identities d ↔ ∃ f, is_Some (d !! f) ∧ identity_of d f = Some (e, n).
Proof.
  unfold FaceService.identities. rewrite list_elem_of_omap.
  setoid_rewrite elem_of_listdir. done.
Qed.

  (** Labels of an enrolment-named folder are pairwise distinct. *)
Lemma identities_NoDup (d : gmap string file_content) :
  enrollment_named d → NoDup (identities d).*2.
Proof.
  intros Hd. unfold FaceService.identities.
  assert (Hin : ∀ f, f ∈ listdir d → is_Some (d !! f))
    by (intros f; apply elem_of_listdir).
  pose proof (listdir_NoDup d) as Hnd.
  induction (listdir d) as [|f l IH]; simpl; [constructor|].
  apply NoDup_cons in Hnd as [Hf Hnd].
  assert (IH' : NoDup (omap (identity_of d) l).*2).
  { apply IH; [|done]. intros g Hg. apply Hin. by right. }
  destruct (identity_of d f) as [[e n]|] eqn:Hid; simpl; [|done].
  apply NoDup_cons. split; [|done].
  intros Hn. apply list_elem_of_fmap in Hn as ([e' n'] & Heq & Hn). simpl in Heq. subst n'.
  apply list_elem_of_omap in Hn as (g & Hg & Hidg).
  apply identity_of_Some in Hid as (Hf1 & Hf2 & Hf3).
  apply identity_of_Some in Hidg as (Hg1 & Hg2 & Hg3).
  assert (f = g) by (eapply enrollment_named_label_inj; eauto; congruence).
  by subst g.
Qed.

Lemma load_known_faces_ok (s : state) :
  enrollment_named (known_faces_folder s) → registry_ok (load_known_faces s).2.
Proof.
  intros Hd. destruct (load_known_faces_identities s) as (Hf & He & Hn & _).
  unfold FaceService.registry_ok. rewrite Hf, He, Hn. split_and!; [done| |].
  - by apply identities_NoDup.
  - by rewrite !length_fmap.
Qed.

Lemma register_face_ok (file : FileStorage) (name : string) (s : state) :
  registry_ok s → registry_ok (register_face file name s).2.
Proof.
  intros (Hd & Hn & Hl). unfold FaceService.register_face.
  destruct (_ || _); [done|].
  destruct (negb _); [done|]. simpl.
  destruct (_ ≫= load_image_file) as [img|].
  - destruct (face_encodings img).
    + split_and!; simpl; try done.
      by apply enrollment_named_delete, enrollment_named_insert.
    + apply load_known_faces_ok. simpl. by apply enrollment_named_insert.
  - split_and!; simpl; try done. by apply enrollment_named_insert.
Qed.

Lemma delete_face_ok (name : string) (s : state) :
  registry_ok s → registry_ok (delete_face name s).2.
Proof.
  intros (Hd & Hn & Hl). unfold FaceService.delete_face.
  case_bool_decide; [|done].
  apply load_known_faces_ok. simpl. by apply enrollment_named_delete.
Qed.

Lemma reachable_ok (store : gmap string file_content) (s : state) :
  enrollment_named store → reachable store s → registry_ok s.
Proof.
  intros Hstore. induction 1.
  - by apply load_known_faces_ok.
  - by apply register_face_ok.
  - by apply delete_face_ok.
Qed.

  (** A successful enrolment saved the upload under the label's key,
      found a face in it and reloaded the registry from the folder. *)
Lemma register_face_success (file : FileStorage) (name : string) (s : state) :
  success (register_face file name s).1 = true →
  ∃ image e rest,
    load_image_file (stream file) = Some image
    ∧ face_encodings image = e :: rest
    ∧ known_faces_folder (register_face file name s).2
      = <[store_key name := stream file]> (known_faces_folder s)
    ∧ known_face_encodings (register_face file name s).2
      = (identities (<[store_key name := stream file]> (known_faces_folder s))).*1
    ∧ known_face_names (register_face file name s).2
      = (identities (<[store_key name := stream file]> (known_faces_folder s))).*2.
Proof.
  unfold FaceService.register_face.
  destruct (_ || _); [done|].
  destruct (negb _); [done|]. fold (store_key name). cbv zeta. simpl known_faces_folder.
  rewrite lookup_insert_eq. simpl.
  destruct (load_image_file (stream file)) as [img|]; [|done].
  destruct (face_encodings img) as [|e rest] eqn:He; [done|]. intros _.
  exists img, e, rest. simpl. by rewrite foldl_load_one.
Qed.

  (** An enrolment rejected for want of a face: the registry lists are
      untouched and the entry under the label's key is gone from the
      folder, whether it held the upload only or an earlier image too. *)
Lemma register_face_no_face (file : FileStorage) (name : string) (s : state) :
  body (register_face file name s).1 = NoFaceDetected →
  known_face_encodings (register_face file name s).2 = known_face_encodings s
  ∧ known_face_names (register_face file name s).2 = known_face_names s
  ∧ known_faces_folder (register_face file name s).2
    = delete (store_key name) (known_faces_folder s).
Proof.
  unfold FaceService.register_face.
  destruct (_ || _); [done|].
  destruct (negb _); [done|]. fold (store_key name). cbv zeta.
  destruct (_ ≫= load_image_file) as [img|]; [|done].
  destruct (face_encodings img); [|done]. intros _. simpl.
  by rewrite delete_insert_eq.
Qed.

  (** For a label that had no stored image the rejected enrolment leaves
      the folder as it was. *)
Lemma register_face_no_face_fresh (file : FileStorage) (name : string) (s : state) :
  body (register_face file name s).1 = NoFaceDetected →
  known_faces_folder s !! store_key name = None →
  known_faces_folder (register_face file name s).2 = known_faces_folder s.
Proof.
  intros Hb Hnone. destruct (register_face_no_face _ _ _ Hb) as (_ & _ & ->).
  by apply delete_id.
Qed.

Lemma register_face_other_keys (file : FileStorage) (name : string) (s : state) (k : string) :
  k ≠ store_key name →
  known_faces_folder (register_face file name s).2 !! k = known_faces_folder s !! k.
Proof.
  intros Hk. unfold FaceService.register_face.
  destruct (_ || _); [done|].
  destruct (negb _); [done|]. fold (store_key name). cbv zeta.
  destruct (_ ≫= load_image_file) as [img|].
  - destruct (face_encodings img).
    + simpl. rewrite lookup_delete_ne by done. by rewrite lookup_insert_ne.
    + simpl. by rewrite lookup_insert_ne.
  - simpl. by rewrite lookup_insert_ne.
Qed.

Lemma delete_face_found (name : string) (s : state) :
  is_Some (known_faces_folder s !! store_key name) →
  (delete_face name s).1 = Response true Deleted 200
  ∧ known_faces_folder (delete_face name s).2
    = delete (store_key name) (known_faces_folder s).
Proof.
  intros Hk. unfold FaceService.delete_face. fold (store_key name).
  rewrite bool_decide_eq_true_2 by done. by split.
Qed.

  (** An upload that passes every check of [register_face] is accepted:
      the file is stored under the label's key and the registry is
      reloaded from the folder. *)
Lemma register_face_accepted (file : FileStorage) (name : string) (s : state)
    (img : image) (e : encoding) (rest : list encoding) :
  filename file ≠ EmptyString → name ≠ EmptyString →
  allowed_file (filename file) = true →
  load_image_file (stream file) = Some img → face_encodings img = e :: rest →
  (register_face file name s).1 = Response true Registered 200
  ∧ known_faces_folder (register_face file name s).2
    = <[store_key name := stream file]> (known_faces_folder s)
  ∧ known_face_encodings (register_face file name s).2
    = (identities (<[store_key name := stream file]> (known_faces_folder s))).*1
  ∧ known_face_names (register_face file name s).2
    = (identities (<[store_key name := stream file]> (known_faces_folder s))).*2.
Proof.
  intros Hf Hn Ha Hl He.
  assert (Hs : success (register_face file name s).1 = true).
  { unfold FaceService.register_face.
    rewrite !bool_decide_eq_false_2 by done. rewrite Ha. cbn [orb negb].
    cbv zeta. simpl known_faces_folder. rewrite lookup_insert_eq. simpl.
    by rewrite Hl, He. }
  destruct (register_face_success _ _ _ Hs) as (_ & _ & _ & _ & _ & Hd & Hencs & Hnames).
  split_and!; try done.
  revert Hs. unfold FaceService.register_face.
  rewrite !bool_decide_eq_false_2 by done. rewrite Ha. cbn [orb negb].
  cbv zeta. simpl known_faces_folder. rewrite lookup_insert_eq. simpl.
  by rewrite Hl, He.
Qed.

  (** The identity read off the entry stored for a label whose image
      shows a face. *)
Lemma identity_of_stored (d : gmap string file_content) (name : string)
    (content : file_content) (img : image) (e : encoding) (rest : list encoding) :
  d !! store_key name = Some content →
  load_image_file content = Some img → face_encodings img = e :: rest →
  identity_of d (store_key name) = Some (e, label_of (store_key name)).
Proof.
  intros Hk Hl He. unfold FaceService.identity_of.
  unfold FaceService.store_key at 1. rewrite allowed_file_jpg. rewrite Hk. simpl.
  by rewrite Hl, He.
Qed.

  (** In the reload of an enrolment-named folder, the label of a stored
      image that shows a face is listed once, with the first encoding
      found in that image. *)
Lemma stored_label_listed_once (d : gmap string file_content) (name : string)
    (content : file_content) (img : image) (e : encoding) (rest : list encoding) :
  enrollment_named d →
  d !! store_key name = Some content →
  load_image_file content = Some img → face_encodings img = e :: rest →
  ∃ i, (identities d).*2 !! i = Some (label_of (store_key name))
       ∧ (identities d).*1 !! i = Some e
       ∧ ∀ j, (identities d).*2 !! j = Some (label_of (store_key name)) → j = i.
Proof.
  intros Hd Hk Hl He.
  assert (Hid : (e, label_of (store_key name)) ∈ identities d).
  { apply elem_of_identities. exists (store_key name). split; [eauto|].
    by eapply identity_of_stored. }
  apply list_elem_of_lookup in Hid as [i Hi].
  exists i. split_and!.
  - by rewrite list_lookup_fmap, Hi.
  - by rewrite list_lookup_fmap, Hi.
  - intros j Hj. eapply NoDup_lookup; [by apply identities_NoDup|exact Hj|].
    by rewrite list_lookup_fmap, Hi.
Qed.

  (** From a store whose image files are all enrolment-named (in
      particular from an empty store), every state reached through
      start-up reload, enrolment and deletion lists each label at most
      once, with as many encodings as labels. *)
Lemma enrollment_named_registry (store : gmap string file_content) (s : state) :
  enrollment_named store → reachable store s →
  NoDup (known_face_names s)
  ∧ length (known_face_encodings s) = length (known_face_names s).
Proof.
  intros Hstore Hreach.
  pose proof (reachable_ok _ _ Hstore Hreach) as Hok.
  split; apply Hok.
Qed.

  (** C10.  Enrolment and deletion address the folder by the sanitised
      label.  Take two labels with one sanitised form and two uploads
      that pass the checks of [register_face] (named, of an allowed type,
      decodable, showing a face).  Both labels share one key; both
      enrolments are accepted; after the second the folder is the
      original one with, under that key, the second upload alone (the
      first is overwritten, no other entry changes), and the identity
      read off that entry carries the second upload's first encoding; in
      an enrolment-named folder the registry lists the stored label once,
      with that encoding.  Deleting by either label then succeeds and
      removes the entry; and in any state, deleting by a name succeeds
      whenever an entry is stored under a name of the same sanitised
      form. *)
Theorem store_keyed_by_sanitized_label (s : state) (file1 file2 : FileStorage)
    (name1 name2 : string) (image1 image2 : image) (e1 e2 : encoding)
    (rest1 rest2 : list encoding) :
  secure_filename name1 = secure_filename name2 →
  name1 ≠ EmptyString → name2 ≠ EmptyString →
  filename file1 ≠ EmptyString → allowed_file (filename file1) = true →
  filename file2 ≠ EmptyString → allowed_file (filename file2) = true →
  load_image_file (stream file1) = Some image1 → face_encodings image1 = e1 :: rest1 →
  load_image_file (stream file2) = Some image2 → face_encodings image2 = e2 :: rest2 →
  let r1 := register_face file1 name1 s in
  let r2 := register_face file2 name2 r1.2 in
  store_key name1 = store_key name2
  ∧ r1.1 = Response true Registered 200
  ∧ known_faces_folder r1.2 = <[store_key name1 := stream file1]> (known_faces_folder s)
  ∧ r2.1 = Response true Registered 200
  ∧ known_faces_folder r2.2 = <[store_key name1 := stream file2]> (known_faces_folder s)
  ∧ (∀ k, k ≠ store_key name1 →
       known_faces_folder r2.2 !! k = known_faces_folder s !! k)
  ∧ identity_of (known_faces_folder r2.2) (store_key name1)
    = Some (e2, label_of (store_key name1))
  ∧ (enrollment_named (known_faces_folder s) →
       ∃ i, known_face_names r2.2 !! i = Some (label_of (store_key name1))
            ∧ known_face_encodings r2.2 !! i = Some e2
            ∧ ∀ j, known_face_names r2.2 !! j = Some (label_of (store_key name1)) →
                   j = i)
  ∧ (∀ name, name = name1 ∨ name = name2 →
       (delete_face name r2.2).1 = Response true Deleted 200
       ∧ known_faces_folder (delete_face name r2.2).2
         = delete (store_key name1) (known_faces_folder s))
  ∧ (∀ (s' : state) (stored name : string),
       secure_filename name = secure_filename stored →
       is_Some (known_faces_folder s' !! store_key stored) →
       (delete_face name s').1 = Response true Deleted 200
       ∧ known_faces_folder (delete_face name s').2
         = delete (store_key stored) (known_faces_folder s')).
Proof.
  intros Hsan Hn1 Hn2 Hf1 Ha1 Hf2 Ha2 Hl1 He1 Hl2 He2 r1 r2.
  assert (Hkey : store_key name1 = store_key name2)
    by (unfold FaceService.store_key; by rewrite Hsan).
  destruct (register_face_accepted file1 name1 s _ _ _ Hf1 Hn1 Ha1 Hl1 He1)
    as (Hr1 & Hd1 & _ & _).
  destruct (register_face_accepted file2 name2 r1.2 _ _ _ Hf2 Hn2 Ha2 Hl2 He2)
    as (Hr2 & Hd2 & Hencs & Hnames).
  fold r1 in Hr1, Hd1. fold r2 in Hr2, Hd2, Hencs, Hnames.
  assert (Hd : known_faces_folder r2.2
               = <[store_key name1 := stream file2]> (known_faces_folder s)).
  { rewrite Hd2, Hd1, <- Hkey. apply insert_insert_eq. }
  assert (Hstored : known_faces_folder r2.2 !! store_key name1 = Some (stream file2))
    by (rewrite Hd; apply lookup_insert_eq).
  split_and!; try done.
  - intros k Hk. rewrite Hd. by apply lookup_insert_ne.
  - by eapply identity_of_stored.
  - intros Hnamed. rewrite Hnames, Hencs, <- Hd2.
    eapply stored_label_listed_once; [|exact Hstored|exact Hl2|exact He2].
    rewrite Hd. by apply enrollment_named_insert.
  - intros name Hname.
    assert (Hk : store_key name = store_key name1) by (by destruct Hname as [->| ->]).
    destruct (delete_face_found name r2.2) as [Hdel Hfolder].
    { rewrite Hk, Hstored. eauto. }
    split; [done|]. rewrite Hfolder, Hk, Hd. apply delete_insert_eq.
  - intros s' stored name Hsame Hs'.
    assert (Hk : store_key name = store_key stored)
      by (unfold FaceService.store_key; by rewrite Hsame).
    rewrite <- Hk in *. by apply delete_face_found.
Qed.

End Service.

  (** A folder that holds two image files with one stem: the start-up
      reload lists the label twice. *)
Lemma duplicate_label_on_reload :
  known_face_names
    (startup demo_load demo_encodings
       {[ "alice.jpg" := Some [7]; "alice.png" := Some [8] ]})
  = ["alice"; "alice"].
Proof. by vm_compute. Qed.

  (** C5 at a failing input.  The store holds one image of alice,
      [alice.png], and the service starts on it: the registry lists alice
      once.  Alice is then enrolled again with a new image.  The call is
      accepted, but it writes [alice.jpg] and leaves [alice.png] where it
      was, so that the reload lists the label alice twice, once with the
      new encoding and once with the old one: the second descriptor did
      not replace the first. *)
Theorem enrolment_beside_other_extension_lists_label_twice :
  let store : gmap string (option (list nat)) := {[ "alice.png" := Some [7] ]} in
  let s := startup demo_load demo_encodings store in
  let file := {| filename := "portrait.jpg"; stream := Some [8] |} in
  let r := register_face NFKD_of_ascii_text demo_load demo_encodings file "alice" s in
  known_face_names s = ["alice"]
  ∧ known_face_encodings s = [7]
  ∧ reachable NFKD_of_ascii_text demo_load demo_encodings store r.2
  ∧ r.1 = Response true Registered 200
  ∧ known_faces_folder r.2 = {[ "alice.jpg" := Some [8]; "alice.png" := Some [7] ]}
  ∧ known_face_names r.2 = ["alice"; "alice"]
  ∧ known_face_encodings r.2 = [8; 7]
  ∧ ¬ NoDup (known_face_names r.2).
Proof.
  cbv zeta. split_and!; try by vm_compute.
  - apply reach_register, reach_startup.
  - intros H. vm_compute in H. apply NoDup_cons in H as [H _]. apply H. by left.
Qed.

Lemma enrollment_named_registry_witness :
  NoDup (known_face_names demo_bob_enrolled)
  ∧ length (known_face_encodings demo_bob_enrolled)
    = length (known_face_names demo_bob_enrolled).
Proof.
  apply (enrollment_named_registry NFKD_of_ascii_text demo_load demo_encodings ∅
           demo_bob_enrolled).
  - apply enrollment_named_empty.
  - apply reach_register, reach_startup.
Defined.

Example sanitized_labels_collide :
  "a b" ≠ "a_b"
  ∧ secure_filename NFKD_of_ascii_text "a b" = "a_b"
  ∧ secure_filename NFKD_of_ascii_text "a_b" = "a_b".
Proof. by vm_compute. Qed.

Lemma store_keyed_by_sanitized_label_witness :
  let file1 := {| filename := "one.jpg"; stream := Some [1] |} in
  let file2 := {| filename := "two.jpg"; stream := Some [2] |} in
  let r1 := register_face NFKD_of_ascii_text demo_load demo_encodings file1 "a b"
              demo_bob_enrolled in
  let r2 := register_face NFKD_of_ascii_text demo_load demo_encodings file2 "a_b" r1.2 in
  "a b" ≠ "a_b"
  ∧ store_key NFKD_of_ascii_text "a b" = store_key NFKD_of_ascii_text "a_b"
  ∧ r1.1 = Response true Registered 200
  ∧ known_faces_folder r1.2 = {[ "a_b.jpg" := Some [1]; "bob.jpg" := Some [3] ]}
  ∧ r2.1 = Response true Registered 200
  ∧ known_faces_folder r2.2 = {[ "a_b.jpg" := Some [2]; "bob.jpg" := Some [3] ]}
  ∧ (∃ i, known_face_names r2.2 !! i = Some "a_b"
          ∧ known_face_encodings r2.2 !! i = Some 2
          ∧ ∀ j, known_face_names r2.2 !! j = Some "a_b" → j = i)
  ∧ (delete_face NFKD_of_ascii_text demo_load demo_encodings "a b" r2.2).1
    = Response true Deleted 200
  ∧ known_faces_folder
      (delete_face NFKD_of_ascii_text demo_load demo_encodings "a b" r2.2).2
    = {[ "bob.jpg" := Some [3] ]}.
Proof.
  cbv zeta.
  destruct (store_keyed_by_sanitized_label NFKD_of_ascii_text demo_load demo_encodings
              demo_bob_enrolled
              {| filename := "one.jpg"; stream := Some [1] |}
              {| filename := "two.jpg"; stream := Some [2] |}
              "a b" "a_b" [1] [2] 1 2 [] [])
    as (Hkey & Hr1 & Hd1 & Hr2 & Hd2 & _ & _ & Hlisted & Hdelete & _);
    try reflexivity; try discriminate.
  destruct (Hdelete "a b" (or_introl eq_refl)) as [Hdel Hfolder].
  split_and!.
  - discriminate.
  - exact Hkey.
  - exact Hr1.
  - rewrite Hd1. by vm_compute.
  - exact Hr2.
  - rewrite Hd2. by vm_compute.
  - apply Hlisted.
    apply (reachable_ok NFKD_of_ascii_text demo_load demo_encodings ∅).
    + apply enrollment_named_empty.
    + apply reach_register, reach_startup.
  - exact Hdel.
  - rewrite Hfolder. by vm_compute.
Defined.

  (** C2 at a failing input.  Alice is enrolled; an image without a face
      is then submitted under her label.  The call is rejected with
      NoFaceDetected and the upload is not kept, but the image stored for
      alice before the call is gone from the folder, while the registry
      still lists her. *)
Theorem register_no_face_destroys_previous_image :
  let file := {| filename := "photo.jpg"; stream := Some [] |} in
  let r := register_face NFKD_of_ascii_text demo_load demo_encodings file "alice"
             demo_alice_enrolled in
  known_faces_folder demo_alice_enrolled !! "alice.jpg" = Some (Some [7])
  ∧ known_face_names demo_alice_enrolled = ["alice"]
  ∧ r.1 = Response false NoFaceDetected 400
  ∧ known_faces_folder r.2 !! "alice.jpg" = None
  ∧ known_faces_folder r.2 ≠ known_faces_folder demo_alice_enrolled
  ∧ known_face_names r.2 = ["alice"]
  ∧ known_face_encodings r.2 = [7].
Proof.
  cbv zeta. split_and!; by vm_compute.
Qed.

End FaceServiceFacts.

(* --------------------------------------------------------------------- *)
(** ** Local binary patterns and the hand-engineered descriptor *)
(* --------------------------------------------------------------------- *)

Module FeatureExtractionFacts.
  Import Numpy FeatureExtraction.

  (** An LBP code fits a byte. *)
Lemma lbp_code_range (image : gray_image) (i j : nat) :
  (0 <= lbp_code image i j < 256)%Z.
Proof.
  unfold lbp_code, ge_bit. cbv zeta.
  repeat match goal with |- context [(?a <=? ?b)%Z] => destruct (a <=? b)%Z end;
    by vm_compute.
Qed.

  (** Bit [7 - k] of the code is the comparison with the [k]-th neighbour
      in clockwise order from the top-left one. *)
Lemma lbp_code_bits (image : gray_image) (i j k : nat) (offset : Z * Z) :
  1 ≤ i → 1 ≤ j →
  clockwise_from_top_left !! k = Some offset →
  Z.testbit (lbp_code image i j) (7 - Z.of_nat k)
  = (pixel image i j <=? neighbour image i j offset)%Z.
Proof.
  intros Hi Hj Hk. unfold neighbour.
  assert (Hm : ∀ n, 1 ≤ n → Z.to_nat (Z.of_nat n + -1) = n - 1) by (intros; lia).
  assert (Hz : ∀ n, Z.to_nat (Z.of_nat n + 0) = n) by (intros; lia).
  assert (Hp : ∀ n, Z.to_nat (Z.of_nat n + 1) = n + 1) by (intros; lia).
  do 8 (destruct k as [|k]; [injection Hk as <-; cbn [fst snd];
          rewrite ?Hm, ?Hz, ?Hp by done;
          unfold lbp_code, ge_bit; cbv zeta;
          repeat match goal with
                 | |- context [(?a <=? ?b)%Z] => destruct (a <=? b)%Z
                 end; by vm_compute|]).
  done.
Qed.

Lemma foldl_ext_eq {A B} (f g : A → B → A) (a : A) (l : list B) :
  (∀ a x, f a x = g a x) → foldl f a l = foldl g a l.
Proof. intros H. revert a. induction l as [|x l IH]; intros a; simpl; [done|]. by rewrite H, IH. Qed.

  (** The inner loop only rewrites row [i]. *)
Lemma inner_loop_alter (f : nat → Z) (i : nat) (js : list nat) (a : gray_image) :
  foldl (λ lbp j, set_pixel lbp i j (f j)) a js
  = alter (λ row, foldl (λ r j, <[j := (f j mod 256)%Z]> r) row js) i a.
Proof.
  revert a. induction js as [|j js IH]; intros a; simpl.
  - by rewrite list_alter_id.
  - rewrite IH. unfold set_pixel. by rewrite list_alter_alter_eq.
Qed.

Lemma row_fill_lookup (g : nat → Z) (js : list nat) (row : list Z) (k : nat) :
  foldl (λ r j, <[j := g j]> r) row js !! k
  = if decide (k ∈ js ∧ k < length row) then Some (g k) else row !! k.
Proof.
  revert row. induction js as [|j js IH]; intros row; cbn [foldl].
  - destruct (decide _) as [[H _]|_]; [by apply elem_of_nil in H|done].
  - rewrite IH, length_insert, list_lookup_insert.
    repeat case_decide; destruct_and?; subst; try done; exfalso;
      repeat match goal with H : context [_ ∈ _ :: _] |- _ => rewrite elem_of_cons in H end;
      intuition (subst; eauto).
Qed.

Lemma outer_loop_lookup (G : nat → list Z → list Z) (rows : list nat)
    (a : gray_image) (k : nat) :
  NoDup rows →
  foldl (λ lbp i, alter (G i) i lbp) a rows !! k
  = if decide (k ∈ rows) then G k <$> (a !! k) else a !! k.
Proof.
  revert a. induction rows as [|i rows IH]; intros a Hnd; cbn [foldl].
  - destruct (decide _) as [H|_]; [by apply elem_of_nil in H|done].
  - apply NoDup_cons in Hnd as [Hi Hnd]. rewrite IH by done.
    rewrite list_lookup_alter.
    repeat case_decide; subst; try done; exfalso;
      repeat match goal with H : context [_ ∈ _ :: _] |- _ => rewrite elem_of_cons in H end;
      intuition (subst; eauto).
Qed.

Lemma has_shape_shape (image : gray_image) (rows cols : nat) :
  0 < rows → has_shape image rows cols → shape image = (rows, cols).
Proof.
  intros Hr [Hl Hc]. unfold shape. rewrite Hl.
  destruct image as [|r image]; simpl in *; [lia|].
  apply Forall_cons in Hc as [-> _]. done.
Qed.

Lemma lbp_image_cells (image : gray_image) (rows cols : nat) :
  0 < rows → has_shape image rows cols →
  lbp_image image
  = map (λ i, map (λ j, lbp_cell image rows cols i j) (seq 0 cols)) (seq 0 rows).
Proof.
  intros Hr Hs. pose proof Hs as [Hl Hc].
  unfold lbp_image. rewrite (has_shape_shape _ _ _ Hr Hs).
  erewrite foldl_ext_eq; [|intros a i; apply inner_loop_alter].
  apply list_eq. intros i.
  rewrite (outer_loop_lookup
             (λ i row, foldl (λ r j, <[j := (lbp_code image i j mod 256)%Z]> r) row
                         (seq 1 (cols - 2)))) by apply NoDup_seq.
  unfold zeros_like. rewrite !list_lookup_fmap.
  destruct (decide (i < rows)) as [Hi|Hi].
  - rewrite lookup_seq_lt by done. simpl.
    destruct (lookup_lt_is_Some_2 image i) as [r Hrow]; [lia|].
    rewrite Hrow. simpl.
    assert (Hlen : length r = cols).
    { by eapply (Forall_lookup_1 _ _ _ _ Hc). }
    assert (Hz : ∀ j, map (λ _ : Z, 0%Z) r !! j = if decide (j < cols) then Some 0%Z else None).
    { intros j. rewrite list_lookup_fmap. case_decide.
      - destruct (lookup_lt_is_Some_2 r j) as [x ->]; [lia|done].
      - rewrite lookup_ge_None_2 by lia. done. }
    case_decide as Hin; f_equal; apply list_eq; intros j;
      rewrite (list_lookup_fmap _ (seq 0 cols)).
    + rewrite row_fill_lookup, length_fmap, Hlen, Hz.
      apply elem_of_seq in Hin.
      destruct (decide (j < cols)) as [Hj|Hj].
      * rewrite lookup_seq_lt by done. simpl. unfold lbp_cell.
        repeat case_decide; try done.
        -- rewrite Z.mod_small by apply lbp_code_range. done.
        -- exfalso. rewrite elem_of_seq in *. lia.
        -- exfalso. rewrite elem_of_seq in *. lia.
      * rewrite lookup_seq_ge by lia. simpl.
        case_decide as H; [|done]. lia.
    + rewrite Hz. rewrite elem_of_seq in Hin.
      destruct (decide (j < cols)) as [Hj|Hj].
      * rewrite lookup_seq_lt by done. simpl. unfold lbp_cell.
        case_decide; [lia|done].
      * by rewrite lookup_seq_ge by lia.
  - rewrite lookup_seq_ge by lia. rewrite lookup_ge_None_2 by lia. simpl.
    by case_decide.
Qed.

  (** *** Counting *)

Lemma bin_count_cons (b : nat) (v : Z) (l : list Z) :
  bin_count 256 b (v :: l)
  = ((if in_bin 256 b v then 1 else 0) + bin_count 256 b l)%Z.
Proof.
  unfold bin_count. rewrite filter_cons.
  destruct (in_bin 256 b v) eqn:Hv.
  - rewrite decide_True by done. simpl length. lia.
  - rewrite decide_False by done. lia.
Qed.

Lemma bin_count_app (b : nat) (l1 l2 : list Z) :
  bin_count 256 b (l1 ++ l2) = (bin_count 256 b l1 + bin_count 256 b l2)%Z.
Proof. unfold bin_count. rewrite filter_app, length_app. lia. Qed.

Lemma bin_count_nil (b : nat) : bin_count 256 b [] = 0%Z.
Proof. done. Qed.

  (** A zero falls in bin 0 and in no other. *)
Lemma in_bin_zero (b : nat) : in_bin 256 b 0 = bool_decide (b = 0).
Proof.
  unfold in_bin. rewrite andb_false_r, orb_false_r.
  destruct b; [done|]. rewrite bool_decide_eq_false_2 by done.
  apply Z.eqb_neq. lia.
Qed.

Lemma bin_count_zeros (b n : nat) :
  bin_count 256 b (replicate n 0%Z) = (zero_weight b * Z.of_nat n)%Z.
Proof.
  induction n as [|n IH]; [unfold zero_weight; rewrite bin_count_nil; lia|].
  cbn [replicate]. rewrite bin_count_cons, IH, in_bin_zero. unfold zero_weight.
  case_bool_decide; lia.
Qed.

Lemma seq_border (n : nat) : 2 ≤ n → seq 0 n = 0 :: seq 1 (n - 2) ++ [n - 1].
Proof.
  intros Hn. replace n with (S (n - 2 + 1)) at 1 by lia.
  cbn [seq]. f_equal. rewrite seq_app. simpl. do 2 f_equal. lia.
Qed.

Lemma fmap_const_seq {A} (c : A) (s n : nat) :
  map (λ _, c) (seq s n) = replicate n c.
Proof. revert s. induction n as [|n IH]; intros s; simpl; [done|]. by rewrite IH. Qed.

  (** Rows of the LBP image: zeros on the first and last row, and codes
      between one zero at each end elsewhere. *)
Lemma lbp_row_border (image : gray_image) (rows cols i : nat) :
  ¬ (1 ≤ i ∧ i + 2 ≤ rows) →
  map (lbp_cell image rows cols i) (seq 0 cols) = replicate cols 0%Z.
Proof.
  intros Hi. rewrite <- (fmap_const_seq 0%Z 0 cols).
  apply list_fmap_ext. intros k j _. unfold lbp_cell.
  case_decide as H; [by destruct H|done].
Qed.

Lemma lbp_row_interior (image : gray_image) (rows cols i : nat) :
  2 ≤ cols → 1 ≤ i ∧ i + 2 ≤ rows →
  map (lbp_cell image rows cols i) (seq 0 cols)
  = 0%Z :: map (lbp_code image i) (seq 1 (cols - 2)) ++ [0%Z].
Proof.
  intros Hc Hi. rewrite (seq_border cols) by done.
  cbn [map]. rewrite map_app. cbn [map]. f_equal; [|f_equal].
  - unfold lbp_cell. case_decide; [lia|done].
  - apply list_fmap_ext. intros k j Hj. apply lookup_seq in Hj as [-> Hk].
    unfold lbp_cell. case_decide; [done|lia].
  - unfold lbp_cell. case_decide; [lia|done].
Qed.

Lemma bind_singleton_fmap {A B} (f : A → B) (l : list A) :
  l ≫= (λ x, [f x]) = map f l.
Proof. induction l as [|x l IH]; [done|]. cbn. by rewrite IH. Qed.

Lemma interior_rows_count (image : gray_image) (rows cols b : nat) (idx : list nat) :
  2 ≤ cols → Forall (λ i, 1 ≤ i ∧ i + 2 ≤ rows) idx →
  bin_count 256 b
    (concat (map (λ i, map (lbp_cell image rows cols i) (seq 0 cols)) idx))
  = (bin_count 256 b (idx ≫= λ i, seq 1 (cols - 2) ≫= λ j, [lbp_code image i j])
     + zero_weight b * 2 * Z.of_nat (length idx))%Z.
Proof.
  intros Hc His. induction His as [|i idx Hi His IH].
  - cbn. rewrite bin_count_nil. lia.
  - cbn [map concat length]. change ((i :: idx) ≫= ?f) with (f i ++ (idx ≫= f)).
    rewrite !bin_count_app, IH, bind_singleton_fmap, lbp_row_interior by done.
    rewrite bin_count_cons, bin_count_app, bin_count_cons, bin_count_nil, in_bin_zero.
    unfold zero_weight. case_bool_decide; lia.
Qed.

  (** Bin by bin: the histogram of the whole LBP image counts the codes
      of the interior pixels and, in bin 0, the border pixels as well. *)
Lemma lbp_image_bin_count (image : gray_image) (rows cols b : nat) :
  2 ≤ rows → 2 ≤ cols → has_shape image rows cols →
  bin_count 256 b (ravel (lbp_image image))
  = (bin_count 256 b (interior_codes image)
     + zero_weight b * Z.of_nat (2 * cols + 2 * (rows - 2)))%Z.
Proof.
  intros Hr Hc Hs.
  rewrite (lbp_image_cells image rows cols) by (done || lia).
  unfold interior_codes. rewrite (has_shape_shape image rows cols) by (done || lia).
  unfold ravel. rewrite (seq_border rows) by done.
  cbn [map concat]. rewrite map_app, concat_app. cbn [map concat].
  rewrite app_nil_r, !bin_count_app.
  rewrite !lbp_row_border by lia. rewrite !bin_count_zeros.
  rewrite interior_rows_count; [|done|].
  - rewrite length_seq. lia.
  - apply Forall_forall. intros i Hi. apply elem_of_seq in Hi. lia.
Qed.

  (** *** The normaliser *)

Lemma Zsum_fmap_add {A} (f g : A → Z) (l : list A) :
  Zsum (map (λ x, f x + g x)%Z l) = (Zsum (map f l) + Zsum (map g l))%Z.
Proof.
  unfold Zsum. induction l as [|x l IH]; [done|]. cbn [map foldr]. rewrite IH. lia.
Qed.

Lemma Zsum_indicator (v : Z) (s n : nat) :
  Zsum (map (λ b, if (v =? Z.of_nat b)%Z then 1 else 0)%Z (seq s n))
  = if decide (Z.of_nat s <= v < Z.of_nat (s + n))%Z then 1%Z else 0%Z.
Proof.
  revert s. induction n as [|n IH]; intros s.
  - cbn. case_decide; [lia|done].
  - cbn [seq map]. unfold Zsum in *. cbn [foldr].
    rewrite IH. destruct (Z.eqb_spec v (Z.of_nat s)); repeat case_decide; lia.
Qed.

  (** Every byte lands in exactly one of the 256 bins. *)
Lemma Zsum_in_bin (v : Z) :
  (0 <= v < 256)%Z →
  Zsum (map (λ b, if in_bin 256 b v then 1 else 0)%Z (seq 0 256)) = 1%Z.
Proof.
  intros Hv.
  rewrite (list_fmap_ext _ (λ b, if (v =? Z.of_nat b)%Z then 1 else 0)%Z).
  - rewrite Zsum_indicator. case_decide; [done|lia].
  - intros k b _. unfold in_bin.
    replace (v =? Z.of_nat 256)%Z with false by (symmetry; apply Z.eqb_neq; lia).
    by rewrite andb_false_r, orb_false_r.
Qed.

Lemma histogram_sum (data : list Z) :
  Forall (λ v, 0 <= v < 256)%Z data →
  Zsum (histogram data 256) = Z.of_nat (length data).
Proof.
  unfold histogram. induction 1 as [|v data Hv Hdata IH].
  - rewrite (list_fmap_ext _ (λ _, 0%Z)) by done.
    rewrite fmap_const_seq. by vm_compute.
  - rewrite (list_fmap_ext _ (λ b, (if in_bin 256 b v then 1 else 0)
                                    + bin_count 256 b data)%Z)
      by (intros; apply bin_count_cons).
    rewrite Zsum_fmap_add, IH, Zsum_in_bin by done. cbn [length]. lia.
Qed.

Lemma sum_IZR (l : list Z) : sum (map IZR l) = IZR (Zsum l).
Proof.
  unfold sum, Zsum. induction l as [|x l IH]; [done|].
  cbn [map foldr]. rewrite IH. by rewrite plus_IZR.
Qed.

Lemma lbp_cell_range (image : gray_image) (rows cols i j : nat) :
  (0 <= lbp_cell image rows cols i j < 256)%Z.
Proof. unfold lbp_cell. case_decide; [apply lbp_code_range|lia]. Qed.

Lemma lbp_image_range (image : gray_image) (rows cols : nat) :
  0 < rows → has_shape image rows cols →
  Forall (λ v, 0 <= v < 256)%Z (ravel (lbp_image image)).
Proof.
  intros Hr Hs. rewrite (lbp_image_cells image rows cols) by done.
  unfold ravel. apply Forall_concat, Forall_fmap, Forall_forall. intros i _.
  apply Forall_fmap, Forall_forall. intros j _. apply lbp_cell_range.
Qed.

Lemma length_concat_rows {A} (f : nat → nat → A) (cols : nat) (l : list nat) :
  length (concat (map (λ i, map (f i) (seq 0 cols)) l)) = length l * cols.
Proof.
  induction l as [|i l IH]; [done|].
  cbn [map concat length]. rewrite length_app, length_map, length_seq, IH. lia.
Qed.

Lemma lbp_image_size (image : gray_image) (rows cols : nat) :
  0 < rows → has_shape image rows cols →
  length (ravel (lbp_image image)) = rows * cols.
Proof.
  intros Hr Hs. rewrite (lbp_image_cells image rows cols) by done.
  unfold ravel. by rewrite length_concat_rows, length_seq.
Qed.

Lemma length_bind_rows {A} (f : nat → nat → A) (s c : nat) (l : list nat) :
  length (l ≫= λ i, seq s c ≫= λ j, [f i j]) = length l * c.
Proof.
  induction l as [|i l IH]; [done|].
  change ((i :: l) ≫= ?f) with (f i ++ (l ≫= f)).
  rewrite length_app, IH, bind_singleton_fmap, length_map, length_seq. cbn. lia.
Qed.

Lemma length_interior_codes (image : gray_image) (rows cols : nat) :
  0 < rows → has_shape image rows cols →
  length (interior_codes image) = (rows - 2) * (cols - 2).
Proof.
  intros Hr Hs. unfold interior_codes.
  rewrite (has_shape_shape image rows cols) by done.
  by rewrite length_bind_rows, length_seq.
Qed.

  (** The LBP features of an image of any size with at least two rows
      and two columns. *)
Lemma extract_lbp_features_shape (image : gray_image) (rows cols : nat) :
  2 ≤ rows → 2 ≤ cols → has_shape image rows cols →
  _extract_lbp_features image
  = map (λ b, IZR (bin_count 256 b (interior_codes image)
                   + zero_weight b * Z.of_nat (2 * cols + 2 * (rows - 2)))
              / (IZR (Z.of_nat (rows * cols)) + epsilon))%R
        (seq 0 256).
Proof.
  intros Hr Hc Hs. unfold _extract_lbp_features. cbv zeta.
  rewrite sum_IZR, histogram_sum by (apply (lbp_image_range image rows cols); [lia|done]).
  rewrite (lbp_image_size image rows cols) by (lia || done).
  unfold histogram. rewrite !map_map.
  apply list_fmap_ext. intros k b _. cbn beta.
  by rewrite (lbp_image_bin_count image rows cols).
Qed.

  (** C6, as amended.  On a 128 x 128 grayscale crop the LBP component
      is the 256-bin histogram of the whole LBP image: bin [b] counts the
      interior pixels whose code is [b] and bin 0 counts in addition the
      508 border pixels, which are left at zero; every bin is divided by
      the number of pixels, 16384, plus epsilon.  A pixel's code has one
      bit per neighbour, set when the neighbour is at least the centre:
      bit 7 for the top-left neighbour, then clockwise down to bit 0. *)
Theorem lbp_histogram_counts_border (image : gray_image) :
  has_shape image 128 128 →
  _extract_lbp_features image
  = map (λ b, IZR (bin_count 256 b (interior_codes image) + zero_weight b * 508)
              / (16384 + epsilon))%R
        (seq 0 256)
  ∧ ∀ i j k offset,
      1 ≤ i → 1 ≤ j → clockwise_from_top_left !! k = Some offset →
      Z.testbit (lbp_code image i j) (7 - Z.of_nat k)
      = (pixel image i j <=? neighbour image i j offset)%Z.
Proof.
  intros Hs. split.
  - by rewrite (extract_lbp_features_shape image 128 128) by (done || lia).
  - intros. by apply lbp_code_bits.
Qed.

Lemma lookup_fmap_seq_0 {A} (f : nat → A) (n : nat) :
  0 < n → map f (seq 0 n) !! 0 = Some (f 0).
Proof. destruct n; [lia|done]. Qed.

Lemma black_crop_shape : has_shape black_crop 128 128.
Proof.
  split; [apply length_replicate|]. apply Forall_replicate, length_replicate.
Qed.

Lemma lbp_histogram_counts_border_witness :
  _extract_lbp_features black_crop
  = map (λ b, IZR (bin_count 256 b (interior_codes black_crop) + zero_weight b * 508)
              / (16384 + epsilon))%R
        (seq 0 256)
  ∧ ∀ i j k offset,
      1 ≤ i → 1 ≤ j → clockwise_from_top_left !! k = Some offset →
      Z.testbit (lbp_code black_crop i j) (7 - Z.of_nat k)
      = (pixel black_crop i j <=? neighbour black_crop i j offset)%Z.
Proof.
  apply (lbp_histogram_counts_border black_crop).
  split; [reflexivity|]. apply Forall_replicate. reflexivity.
Defined.

  (** Evaluate the pixel counts, which are closed numerals. *)
Ltac eval_counts_in H :=
  repeat match type of H with
         | context [Z.of_nat ?n] =>
             let z := eval vm_compute in (Z.of_nat n) in
             change (Z.of_nat n) with z in H
         end;
  repeat match type of H with
         | context [(1 * ?z)%Z] => change (1 * z)%Z with z in H
         end.

Ltac eval_counts :=
  repeat match goal with
         | |- context [Z.of_nat ?n] =>
             let z := eval vm_compute in (Z.of_nat n) in
             change (Z.of_nat n) with z
         end;
  repeat match goal with
         | |- context [(1 * ?z)%Z] => change (1 * z)%Z with z
         end.

  (** On no 128 x 128 crop does the program's histogram equal the
      histogram of the interior codes alone: bin 0 differs, since an
      integer count cannot equal 15876 + epsilon. *)
Lemma lbp_border_differs (image : gray_image) :
  has_shape image 128 128 →
  _extract_lbp_features image ≠ interior_lbp_histogram image.
Proof.
  intros Hs Heq.
  rewrite (extract_lbp_features_shape image 128 128) in Heq by (lia || done).
  unfold interior_lbp_histogram in Heq.
  rewrite (length_interior_codes image 128 128) in Heq by (lia || done).
  unfold histogram in Heq. rewrite map_map in Heq.
  apply (f_equal (λ l, l !! 0)) in Heq.
  rewrite !lookup_fmap_seq_0 in Heq by lia.
  injection Heq as Heq. unfold zero_weight in Heq.
  rewrite bool_decide_eq_true_2 in Heq by done.
  generalize dependent (bin_count 256 0 (interior_codes image)). intros c Heq.
  rewrite plus_IZR in Heq. unfold epsilon in Heq.
  eval_counts_in Heq.
  assert (Hx : ((IZR c + 508) * (15876 + 1 / 10000000)
                = IZR c * (16384 + 1 / 10000000))%R).
  { replace ((IZR c + 508) * (15876 + 1 / 10000000))%R
      with ((IZR c + 508) / (16384 + 1 / 10000000)
            * ((16384 + 1 / 10000000) * (15876 + 1 / 10000000)))%R
      by (field; lra).
    rewrite Heq. field. }
  assert (Hc : (IZR c = 15876 + 1 / 10000000)%R) by lra.
  destruct (Z_le_gt_dec c 15876) as [Hle|Hgt].
  - apply IZR_le in Hle. lra.
  - assert (Hge : (15877 <= c)%Z) by lia. apply IZR_le in Hge. lra.
Qed.

  (** C6 as stated fails: on the black crop bin 0 of the program's
      histogram holds the border pixels, which the histogram of the
      interior codes alone does not count, and the normalisers differ. *)
Lemma lbp_border_counterexample :
  _extract_lbp_features black_crop ≠ interior_lbp_histogram black_crop.
Proof. apply lbp_border_differs, black_crop_shape. Qed.

  (** *** L2 normalisation *)

Lemma sum_squares_nonneg (v : list R) : (0 <= sum (map (λ x, x * x) v))%R.
Proof.
  unfold sum. induction v as [|x v IH]; cbn [map foldr]; [lra|]. nra.
Qed.

Lemma sum_squares_zero (v : list R) :
  sum (map (λ x, x * x)%R v) = 0%R ↔ Forall (λ x, x = 0%R) v.
Proof.
  unfold sum. induction v as [|x v IH]; cbn [map foldr].
  - split; [constructor|done].
  - pose proof (sum_squares_nonneg v) as Hv. unfold sum in Hv.
    rewrite Forall_cons, <- IH. split.
    + intros H. split; nra.
    + intros [-> ->]. lra.
Qed.

Lemma norm_nonneg (v : list R) : (0 <= norm v)%R.
Proof. apply sqrt_pos. Qed.

Lemma norm_zero (v : list R) : norm v = 0%R ↔ Forall (λ x, x = 0%R) v.
Proof.
  rewrite <- sum_squares_zero. unfold norm. split.
  - intros H. apply sqrt_eq_0; [apply sum_squares_nonneg|done].
  - intros ->. apply sqrt_0.
Qed.

Lemma zero_or_not (v : list R) :
  Forall (λ x, x = 0%R) v ∨ Exists (λ x, x ≠ 0%R) v.
Proof.
  induction v as [|x v [IH|IH]].
  - left. constructor.
  - destruct (Req_dec x 0) as [Hx|Hx].
    + left. by constructor.
    + right. by apply Exists_cons_hd.
  - right. by apply Exists_cons_tl.
Qed.

Lemma norm_positive (v : list R) : (norm v > 0)%R ↔ Exists (λ x, x ≠ 0%R) v.
Proof.
  pose proof (norm_nonneg v) as Hn. split.
  - intros Hpos. destruct (zero_or_not v) as [Hz|Hz]; [|done].
    apply norm_zero in Hz. lra.
  - intros Hex.
    assert (Hne : norm v ≠ 0%R).
    { intros Hz. apply norm_zero in Hz.
      apply Exists_exists in Hex as (x & Hin & Hx).
      apply Hx. by eapply Forall_forall in Hz. }
    lra.
Qed.

Lemma sum_squares_scaled (v : list R) (n : R) :
  n ≠ 0%R →
  sum (map (λ x, x * x)%R (map (λ x, x / n)%R v))
  = (sum (map (λ x, x * x) v) / (n * n))%R.
Proof.
  intros Hn. unfold sum. induction v as [|x v IH]; cbn [map foldr].
  - field. done.
  - rewrite IH. field. done.
Qed.

  (** Dividing a vector of positive norm by its norm gives a unit
      vector. *)
Lemma norm_scaled (v : list R) :
  (norm v > 0)%R → norm (map (λ x, x / norm v)%R v) = 1%R.
Proof.
  intros Hpos. unfold norm at 1. rewrite sum_squares_scaled by lra.
  unfold norm. rewrite sqrt_sqrt by apply sum_squares_nonneg.
  rewrite Rdiv_diag; [apply sqrt_1|].
  intros H0. unfold norm in Hpos. rewrite H0, sqrt_0 in Hpos. lra.
Qed.

Lemma l2_normalize_unit (v : list R) :
  Exists (λ x, x ≠ 0%R) v → norm (l2_normalize v) = 1%R.
Proof.
  intros Hv. apply norm_positive in Hv. unfold l2_normalize. cbv zeta.
  rewrite decide_True by done. by apply norm_scaled.
Qed.

Lemma l2_normalize_zero (v : list R) :
  Forall (λ x, x = 0%R) v → l2_normalize v = v.
Proof.
  intros Hv. apply norm_zero in Hv. unfold l2_normalize. cbv zeta.
  rewrite decide_False; [done|]. lra.
Qed.

Section Extraction.
Context {image : Type}.
Variable resize : gray_image → nat * nat → gray_image.
Variable hog_compute : gray_image → list R.

#[local] Abbreviation combined_features := (combined_features resize hog_compute).
#[local] Abbreviation custom_descriptor := (custom_descriptor resize hog_compute).

  (** C7.  The descriptor of a face crop, the HOG histogram followed by
      the LBP histogram and normalised, has L2 norm 1 whenever the
      concatenation has a non-zero entry, and is the concatenation itself,
      all zeros, when it has none. *)
Theorem custom_descriptor_unit_norm (face_image : gray_image) :
  (Exists (λ x, x ≠ 0%R) (combined_features face_image) →
     norm (custom_descriptor face_image) = 1%R)
  ∧ (Forall (λ x, x = 0%R) (combined_features face_image) →
     custom_descriptor face_image = combined_features face_image
     ∧ Forall (λ x, x = 0%R) (custom_descriptor face_image)).
Proof.
  unfold FeatureExtraction.custom_descriptor. split.
  - apply l2_normalize_unit.
  - intros Hz. by rewrite l2_normalize_zero.
Qed.

  (** On a 128 x 128 crop the LBP histogram is never all zeros (its bin 0
      holds the border), so the descriptor always has unit norm there. *)
Lemma custom_descriptor_unit_norm_128 (face_image : gray_image) :
  has_shape face_image 128 128 → norm (custom_descriptor face_image) = 1%R.
Proof.
  intros Hs. unfold FeatureExtraction.custom_descriptor. apply l2_normalize_unit.
  unfold FeatureExtraction.combined_features. cbv zeta.
  apply Exists_app. right.
  rewrite (extract_lbp_features_shape face_image 128 128) by (lia || done).
  apply Exists_exists.
  eexists. split; [apply list_elem_of_fmap; exists 0; split; [reflexivity|by left]|].
  cbv beta. unfold zero_weight, epsilon. rewrite bool_decide_eq_true_2 by done.
  assert (Hc : (0 <= bin_count 256 0 (interior_codes face_image))%Z)
    by (unfold bin_count; lia).
  rewrite plus_IZR. apply IZR_le in Hc.
  eval_counts.
  apply Rgt_not_eq. apply Rdiv_lt_0_compat; lra.
Qed.

End Extraction.

Lemma custom_descriptor_unit_norm_witness :
  norm (custom_descriptor (λ img _, img) (λ _, [3; 4]%R) black_crop) = 1%R.
Proof.
  apply (custom_descriptor_unit_norm (λ img _, img) (λ _, [3; 4]%R) black_crop).
  apply Exists_cons_hd. lra.
Defined.

End FeatureExtractionFacts.

(* --------------------------------------------------------------------- *)
(** ** Matching *)
(* --------------------------------------------------------------------- *)

Module RecognitionFacts.
  Import Numpy NumpyFacts Recognition.

Lemma norm_diff_euclidean (a b : descriptor) :
  norm (zip_with Rminus a b) = euclidean_distance a b.
Proof.
  unfold norm, euclidean_distance. f_equal.
  revert b. induction a as [|x a IH]; intros [|y b]; simpl; try done.
  rewrite IH. unfold sum. lra.
Qed.

Lemma broadcast_sub_same_length (e probe : descriptor) :
  length e = length probe → broadcast_sub e probe = zip_with Rminus e probe.
Proof. intros H. unfold broadcast_sub. by rewrite H, Nat.eqb_refl. Qed.

  (** On encodings of the probe's length the distances are the Euclidean
      ones and nothing is raised. *)
Lemma face_distance_same_length (encs : list descriptor) (probe : descriptor) :
  Forall (λ e, length e = length probe) encs →
  face_distance encs probe = Some (map (λ e, euclidean_distance e probe) encs).
Proof.
  intros Hall. unfold face_distance. destruct encs as [|e0 rest]; [done|].
  assert (H0 : length e0 = length probe) by by apply Forall_cons in Hall as [? _].
  cbv zeta.
  assert (Hrect : forallb (λ e, length e =? length e0) (e0 :: rest) = true).
  { apply forallb_forall. intros e He. apply Nat.eqb_eq. rewrite H0.
    apply (proj1 (Forall_forall _ _) Hall). by apply list_elem_of_In. }
  rewrite Hrect, H0, Nat.eqb_refl. cbn [andb orb]. f_equal.
  apply map_ext_Forall. eapply Forall_impl; [exact Hall|].
  intros e He. cbn beta. by rewrite broadcast_sub_same_length, norm_diff_euclidean.
Qed.

  (** Encodings of one length against a probe of another, neither length
      being one: the subtraction raises. *)
Lemma face_distance_shape_mismatch (encs : list descriptor) (probe : descriptor)
    (columns : nat) :
  encs ≠ [] → Forall (λ e, length e = columns) encs →
  length probe ≠ columns → columns ≠ 1 → length probe ≠ 1 →
  face_distance encs probe = None.
Proof.
  intros Hne Hall Hp Hc Hp1. unfold face_distance.
  destruct encs as [|e0 rest]; [done|]. cbv zeta.
  assert (H0 : length e0 = columns) by by apply Forall_cons in Hall as [? _].
  rewrite H0.
  replace (columns =? length probe) with false by (symmetry; apply Nat.eqb_neq; lia).
  replace (columns =? 1) with false by (symmetry; by apply Nat.eqb_neq).
  replace (length probe =? 1) with false by (symmetry; by apply Nat.eqb_neq).
  by rewrite andb_false_r.
Qed.

  (** Whatever the shapes, distances that are returned are norms: one per
      encoding, none negative. *)
Lemma face_distance_nonneg (encs : list descriptor) (probe : descriptor) (ds : list R) :
  face_distance encs probe = Some ds →
  length ds = length encs ∧ Forall (λ d, 0 <= d)%R ds.
Proof.
  unfold face_distance. destruct encs as [|e0 rest]; [by intros [= <-]|].
  cbv zeta. destruct (_ && _); [|done]. intros Heq.
  assert (ds = map (λ e, norm (broadcast_sub e probe)) (e0 :: rest)) as ->
    by congruence.
  clear Heq. generalize (e0 :: rest). intros encs. split.
  - by rewrite length_map.
  - apply Forall_forall. intros d Hd. apply list_elem_of_fmap in Hd as (e & -> & _).
    unfold norm. apply sqrt_pos.
Qed.

  (** C4.  Matching any probe against an empty registry returns the
      sentinel label (the program's "Inconnu", the specification's
      "Unknown") with confidence 0.0 and raises nothing. *)
Theorem match_face_empty_registry (known_face_names : list string)
    (probe : descriptor) (threshold : R) :
  match_face [] known_face_names probe threshold = Some (Inconnu, 0%R).
Proof. reflexivity. Qed.

  (** C1.  On a non-empty registry snapshot (parallel lists of equal
      length, encodings of the probe's length) the match selects the
      identity at minimum Euclidean distance from the probe, the first
      such identity in snapshot order; the confidence reported is one minus
      that distance whatever the verdict; the label is the identity's when
      the confidence strictly exceeds the threshold and the sentinel
      otherwise. *)
Theorem match_face_nearest (known_face_encodings : list descriptor)
    (known_face_names : list string) (probe : descriptor) (threshold : R) :
  known_face_encodings ≠ [] →
  length known_face_names = length known_face_encodings →
  Forall (λ e, length e = length probe) known_face_encodings →
  ∃ (k : nat) (e : descriptor) (label : string),
    known_face_encodings !! k = Some e
    ∧ known_face_names !! k = Some label
    ∧ (∀ j e', known_face_encodings !! j = Some e' →
         (euclidean_distance e probe <= euclidean_distance e' probe)%R)
    ∧ (∀ j e', j < k → known_face_encodings !! j = Some e' →
         (euclidean_distance e probe < euclidean_distance e' probe)%R)
    ∧ match_face known_face_encodings known_face_names probe threshold
      = Some (if decide (1 - euclidean_distance e probe > threshold)%R
              then label else Inconnu,
              (1 - euclidean_distance e probe)%R).
Proof.
  intros Hne Hlen Hshape.
  pose proof (face_distance_same_length _ _ Hshape) as Hfd.
  set (face_distances := map (λ e, euclidean_distance e probe) known_face_encodings) in *.
  assert (Hlookup : ∀ j, face_distances !! j
                         = (λ e, euclidean_distance e probe) <$> known_face_encodings !! j)
    by (intros j; apply list_lookup_fmap).
  destruct (argmin_is_Some face_distances) as [k Hk].
  { unfold face_distances. by destruct known_face_encodings. }
  destruct (argmin_spec _ _ Hk) as (v & Hv & Hmin & Hfirst).
  rewrite Hlookup in Hv.
  destruct (known_face_encodings !! k) as [e|] eqn:He; simpl in Hv; [|done].
  injection Hv as <-.
  destruct (lookup_lt_is_Some_2 known_face_names k) as [label Hlabel].
  { rewrite Hlen. by eapply lookup_lt_Some. }
  exists k, e, label. split_and!; try done.
  - intros j e' He'. apply (Hmin j). by rewrite Hlookup, He'.
  - intros j e' Hj He'. apply (Hfirst j); [done|].
    by rewrite Hlookup, He'.
  - assert (Hd : face_distances !! k = Some (euclidean_distance e probe))
      by by rewrite Hlookup, He.
    unfold match_face. destruct known_face_encodings as [|e0 rest]; [done|].
    cbv beta iota zeta. rewrite Hfd. cbn [mbind option_bind].
    rewrite Hk. cbn [mbind option_bind]. rewrite Hd. cbn [mbind option_bind].
    destruct (decide _); simpl; [|done]. by rewrite Hlabel.
Qed.

Lemma match_face_nearest_witness :
  ∃ (k : nat) (e : descriptor) (label : string),
    [[0; 0]; [1; 0]]%R !! k = Some e
    ∧ ["alice"; "bob"] !! k = Some label
    ∧ (∀ j e', [[0; 0]; [1; 0]]%R !! j = Some e' →
         (euclidean_distance e [1; 0] <= euclidean_distance e' [1; 0])%R)
    ∧ (∀ j e', j < k → [[0; 0]; [1; 0]]%R !! j = Some e' →
         (euclidean_distance e [1; 0] < euclidean_distance e' [1; 0])%R)
    ∧ match_face [[0; 0]; [1; 0]]%R ["alice"; "bob"] [1; 0]%R 0.6%R
      = Some (if decide (1 - euclidean_distance e [1; 0] > 0.6)%R
              then label else Inconnu,
              (1 - euclidean_distance e [1; 0])%R).
Proof.
  apply (match_face_nearest [[0; 0]; [1; 0]]%R ["alice"; "bob"] [1; 0]%R 0.6%R).
  - discriminate.
  - reflexivity.
  - repeat constructor.
Defined.

Lemma face_distance_single (e probe : descriptor) (d : R) :
  length e = length probe →
  (0 <= d)%R → sum_sq_diff e probe = (d * d)%R →
  face_distance [e] probe = Some [d].
Proof.
  intros Hlen Hd Hsq. rewrite face_distance_same_length by by repeat constructor.
  cbn [map]. unfold euclidean_distance. rewrite Hsq. by rewrite sqrt_square.
Qed.

  (** The threshold boundary with the configured threshold 0.6: distance
      0 is accepted with confidence 1, distance 0.41 is rejected and its
      confidence 0.59 is still reported. *)
Example threshold_boundary :
  match_face [[0; 0]]%R ["alice"] [0; 0]%R 0.6%R = Some ("alice", 1%R)
  ∧ match_face [[0; 0]]%R ["alice"] [0.41; 0]%R 0.6%R = Some (Inconnu, 0.59%R).
Proof.
  split; unfold match_face; cbv beta iota zeta.
  - rewrite (face_distance_single _ _ 0%R) by (simpl; (done || lra)). simpl.
    rewrite decide_True by lra. simpl. do 2 f_equal. lra.
  - rewrite (face_distance_single _ _ 0.41%R) by (simpl; (done || lra)). simpl.
    rewrite decide_False by lra. do 2 f_equal. lra.
Qed.

  (** A probe of another length than the enrolled encodings (and not of
      length one) cannot be compared: numpy raises, and so does the
      match. *)
Example match_face_shape_mismatch :
  match_face [[0; 0; 5]]%R ["alice"] [0; 0]%R 0.6%R = None.
Proof. reflexivity. Qed.

  (** The four documented method names select the four methods, and
      other spellings fall back on HOG. *)
Example set_method_values :
  FeatureExtraction.set_method "hog" = FeatureExtraction.HOG
  ∧ FeatureExtraction.set_method "cnn" = FeatureExtraction.CNN
  ∧ FeatureExtraction.set_method "custom_hog" = FeatureExtraction.CUSTOM_HOG
  ∧ FeatureExtraction.set_method "lbp" = FeatureExtraction.LBP
  ∧ FeatureExtraction.set_method "LBP" = FeatureExtraction.LBP
  ∧ FeatureExtraction.set_method "HOG" = FeatureExtraction.HOG
  ∧ FeatureExtraction.set_method "haar" = FeatureExtraction.HOG.
Proof. by vm_compute. Qed.

Section Detection.
Context {image : Type}.
Variable face_locations : string → image → list FeatureExtraction.box.
Variable haarcascade_frontalface_default
  : FeatureExtraction.gray_image → list (Z * Z * Z * Z).
Variable lbpcascade_frontalface
  : FeatureExtraction.gray_image → list (Z * Z * Z * Z).
Variable cvtColor_RGB2GRAY : image → FeatureExtraction.gray_image.

#[local] Abbreviation detect_faces :=
  (FeatureExtraction.detect_faces face_locations haarcascade_frontalface_default
     lbpcascade_frontalface cvtColor_RGB2GRAY).
#[local] Abbreviation locate_faces :=
  (locate_faces face_locations haarcascade_frontalface_default
     lbpcascade_frontalface cvtColor_RGB2GRAY).

  (** The detection step, case by case.  The request runs the detector
      its [method] string resolves to.  If that finds no face and the
      string is not exactly "hog", detection is run once more, with HOG,
      and its result is the one used; if a face was found, or the string
      is exactly "hog", nothing more is run. *)
Lemma locate_faces_fallback (method : string) (img : image) :
  let configured := FeatureExtraction.set_method method in
  (detect_faces configured img = [] → method ≠ "hog" →
     locate_faces method img
     = (detect_faces FeatureExtraction.HOG img, [configured; FeatureExtraction.HOG]))
  ∧ (detect_faces configured img ≠ [] ∨ method = "hog" →
     locate_faces method img = (detect_faces configured img, [configured])).
Proof.
  intros configured. subst configured.
  unfold Recognition.locate_faces, detect_faces_logged.
  cbv beta iota zeta. split.
  - intros Hnone Hm. rewrite Hnone.
    rewrite bool_decide_eq_true_2 by done.
    apply String.eqb_neq in Hm. by rewrite Hm.
  - intros [Hsome| ->].
    + by rewrite bool_decide_eq_false_2 by done.
    + rewrite String.eqb_refl, andb_false_r. done.
Qed.

  (** C9 at a failing input.  A request whose method string resolves to
      HOG without being exactly "hog" ("HOG", "Hog", a name that names no
      method) is configured with the HOG strategy already; when HOG finds
      no face in its image the guard, which compares the string as given
      with "hog", lets the retry run all the same: the HOG detector runs
      twice. *)
Theorem hog_spelling_is_retried (method : string) (img : image) :
  FeatureExtraction.set_method method = FeatureExtraction.HOG →
  method ≠ "hog" →
  detect_faces FeatureExtraction.HOG img = [] →
  locate_faces method img = ([], [FeatureExtraction.HOG; FeatureExtraction.HOG]).
Proof.
  intros Hconfigured Hm Hnone.
  destruct (locate_faces_fallback method img) as [Hretry _].
  rewrite Hconfigured in Hretry. rewrite Hretry by done. by rewrite Hnone.
Qed.

End Detection.

Lemma locate_faces_fallback_witness :
  (locate_faces blind_face_locations blind_cascade blind_cascade blank_gray "lbp" tt
   = ([], [FeatureExtraction.LBP; FeatureExtraction.HOG]))
  ∧ (locate_faces blind_face_locations blind_cascade blind_cascade blank_gray "hog" tt
     = ([], [FeatureExtraction.HOG])).
Proof.
  split.
  - apply (locate_faces_fallback blind_face_locations blind_cascade blind_cascade
             blank_gray "lbp" tt); [reflexivity | discriminate].
  - apply (locate_faces_fallback blind_face_locations blind_cascade blind_cascade
             blank_gray "hog" tt). right. reflexivity.
Defined.

Lemma hog_spelling_is_retried_witness :
  locate_faces blind_face_locations blind_cascade blind_cascade blank_gray "HOG" tt
  = ([], [FeatureExtraction.HOG; FeatureExtraction.HOG]).
Proof.
  apply (hog_spelling_is_retried blind_face_locations blind_cascade blind_cascade
           blank_gray "HOG" tt).
  - reflexivity.
  - discriminate.
  - reflexivity.
Defined.

End RecognitionFacts.

(* --------------------------------------------------------------------- *)
(** ** The classifier *)
(* --------------------------------------------------------------------- *)

Module CNNFacts.
  Import Numpy NumpyFacts CNN.

Section Classifier.
Context {Model saved_model file_content train_image generators face_image tensor : Type}.
Variable _create_model : nat → option Model.
Variable imread : file_content → option train_image.
Variable random_variation : string → nat → train_image → train_image.
Variable flow_from_directory
  : gmap string (gmap string train_image) → nat → option generators.
Variable model_fit : Model → generators → nat → nat → Model * bool.
Variable model_save : Model → option saved_model → save_outcome saved_model.
Variable load_model : saved_model → option Model.
Variable _preprocess_image : face_image → option tensor.
Variable model_predict : Model → tensor → option (list R).

#[local] Abbreviation CNNFaceModel := (@CNNFaceModel Model).
#[local] Abbreviation models_dir := (@models_dir saved_model train_image).
#[local] Abbreviation scan_entry := (scan_entry imread random_variation).
#[local] Abbreviation training_directory := (training_directory imread random_variation).
#[local] Abbreviation train :=
  (train _create_model imread random_variation flow_from_directory model_fit model_save).
#[local] Abbreviation predict := (predict _preprocess_image model_predict).

  (** The label list the scan builds is the one [scan_step] builds. *)
Lemma scan_entry_labels (folder : gmap string file_content) (l : list string)
    (acc : list string * gmap string (gmap string train_image)) :
  (foldl (scan_entry folder) acc l).1 = foldl scan_step acc.1 l.
Proof.
  revert acc. induction l as [|f l IH]; intros acc; [done|].
  cbn [foldl]. rewrite IH. f_equal.
  unfold CNN.scan_entry, scan_step.
  destruct (is_image_name f); [|done]. cbv zeta. by case_bool_decide.
Qed.

Lemma scanned_labels_scan (folder : gmap string file_content) :
  (foldl (scan_entry folder) ([], ∅) (FaceService.listdir folder)).1
  = scanned_labels folder.
Proof. by rewrite scan_entry_labels. Qed.

  (** With fewer than two labels in the folder training fails; the
      network, the trained flag and the two saved files are as before.
      When the folder is missing or empty nothing else changes either;
      otherwise the training directory has been rebuilt from the folder
      and the label list is the scanned one. *)
Lemma train_too_few_labels (self : CNNFaceModel) (disk : models_dir)
    (known_faces_folder : option (gmap string file_content)) (epochs batch_size : nat) :
  match known_faces_folder with
  | Some folder => length (scanned_labels folder) < 2
  | None => True
  end →
  let r := train self disk known_faces_folder epochs batch_size in
  r.1.1 = false
  ∧ model r.1.2 = model self
  ∧ is_trained r.1.2 = is_trained self
  ∧ model_file r.2 = model_file disk
  ∧ labels_file r.2 = labels_file disk
  ∧ match known_faces_folder with
    | Some folder =>
        if bool_decide (length (FaceService.listdir folder) = 0)
        then face_labels r.1.2 = face_labels self ∧ r.2 = disk
        else face_labels r.1.2 = scanned_labels folder
             ∧ train_data r.2 = Some (training_directory folder)
    | None => face_labels r.1.2 = face_labels self ∧ r.2 = disk
    end.
Proof.
  intros Hfew. unfold CNN.train.
  destruct known_faces_folder as [folder|]; [|done].
  case_bool_decide; [done|]. cbv zeta. cbn [face_labels].
  rewrite scanned_labels_scan. apply Nat.ltb_lt in Hfew. by rewrite Hfew.
Qed.

  (** C8.  [predict] answers [(None, 0)] unless the classifier is trained
      and holds a network.  Otherwise the confidence is the greatest
      output probability, taken at its first position: at or above 0.6 the
      label of that class is returned with it, below 0.6 the label
      "Inconnu" is; and whenever a step of the inference fails
      (preprocessing, the network call, an empty output, a class without
      label) the answer is ("Erreur", 0). *)
Theorem predict_cases (self : CNNFaceModel) (face : face_image) :
  (is_trained self = false ∨ model self = None → predict self face = (None, 0%R))
  ∧ ∀ m, is_trained self = true → model self = Some m →
      (_preprocess_image face = None → predict self face = (Some Erreur, 0%R))
      ∧ ∀ x, _preprocess_image face = Some x →
          (model_predict m x = None → predict self face = (Some Erreur, 0%R))
          ∧ (model_predict m x = Some [] → predict self face = (Some Erreur, 0%R))
          ∧ ∀ predictions, model_predict m x = Some predictions → predictions ≠ [] →
              ∃ best_index confidence,
                predictions !! best_index = Some confidence
                ∧ (∀ j p, predictions !! j = Some p → (p <= confidence)%R)
                ∧ (∀ j p, j < best_index → predictions !! j = Some p → (p < confidence)%R)
                ∧ ((confidence >= 6 / 10)%R →
                     ∀ label, face_labels self !! best_index = Some label →
                       predict self face = (Some label, confidence))
                ∧ ((confidence >= 6 / 10)%R →
                     face_labels self !! best_index = None →
                       predict self face = (Some Erreur, 0%R))
                ∧ ((confidence < 6 / 10)%R →
                     predict self face = (Some Inconnu, confidence)).
Proof.
  split.
  - intros [H|H]; unfold CNN.predict; rewrite H; [done|]. by destruct (is_trained self).
  - intros m Ht Hm. unfold CNN.predict. rewrite Ht, Hm. split.
    + by intros ->.
    + intros x ->. simpl. split_and!.
      * by intros ->.
      * by intros ->.
      * intros predictions -> Hne. simpl.
        destruct (argmax predictions) as [k|] eqn:Hk;
          [|by apply argmax_None in Hk].
        destruct (argmax_spec _ _ Hk) as (v & Hv & Hmax & Hfirst).
        exists k, v. simpl. rewrite Hv. simpl. unfold threshold.
        split_and!; try done.
        -- intros Hge label Hl. rewrite decide_True by done. by rewrite Hl.
        -- intros Hge Hl. rewrite decide_True by done. by rewrite Hl.
        -- intros Hlt. rewrite decide_False by lra. done.
Qed.

End Classifier.

  (** C3 at a failing input.  A classifier just constructed (no network,
      no labels, untrained) is trained on a folder holding the image of
      one person.  Training fails, the network, the trained flag and the
      saved network and label files are as before, but the label list is
      no longer what it was: it now holds the one scanned label.  (The
      training directory has been created and filled for that person as
      well.) *)
Theorem train_single_label_changes_labels :
  let r := demo_train fresh_classifier empty_models_dir
             (Some {[ "alice.jpg" := tt ]}) 10 32 in
  r.1.1 = false
  ∧ model r.1.2 = model fresh_classifier
  ∧ is_trained r.1.2 = is_trained fresh_classifier
  ∧ model_file r.2 = model_file empty_models_dir
  ∧ labels_file r.2 = labels_file empty_models_dir
  ∧ face_labels fresh_classifier = []
  ∧ face_labels r.1.2 = ["alice"]
  ∧ train_data empty_models_dir = None
  ∧ train_data r.2 = Some {[ "alice" := person_files demo_variation "alice" (Some tt) ]}.
Proof.
  cbv zeta. do 8 (split; [by vm_compute|]).
  unfold demo_train.
  destruct (train_too_few_labels demo_create_model demo_imread demo_variation demo_flow
              demo_fit demo_save fresh_classifier empty_models_dir
              (Some {[ "alice.jpg" := tt ]}) 10 32) as (_ & _ & _ & _ & _ & H).
  { by vm_compute. }
  rewrite bool_decide_eq_false_2 in H by by vm_compute.
  destruct H as [_ ->]. apply (f_equal Some).
  unfold training_directory, FaceService.listdir.
  rewrite map_to_list_singleton. cbn [fmap list_fmap foldl fst snd].
  unfold scan_entry.
  replace (is_image_name "alice.jpg") with true by by vm_compute.
  cbv zeta. rewrite bool_decide_eq_false_2 by (cbn; apply not_elem_of_nil).
  cbn [fst snd]. rewrite lookup_singleton_eq.
  replace (FileUtils.splitext "alice.jpg").1 with "alice" by by vm_compute.
  by rewrite insert_empty.
Qed.

  (** The same on a trained classifier: the two-class network is kept
      with a one-entry label list, and a face the network assigns to its
      second class is then answered with "Erreur". *)
Example train_failure_breaks_trained_classifier :
  let r := demo_train trained_classifier empty_models_dir
             (Some {[ "alice.jpg" := tt ]}) 10 32 in
  r.1.1 = false
  ∧ r.1.2 = {| model := Some 2; face_labels := ["alice"]; is_trained := true |}
  ∧ predict demo_preprocess demo_model_predict trained_classifier [0.1; 0.9]%R
    = (Some "bob", 0.9%R)
  ∧ predict demo_preprocess demo_model_predict r.1.2 [0.1; 0.9]%R
    = (Some Erreur, 0%R).
Proof.
  split_and!; [by vm_compute|by vm_compute| |].
  - unfold CNN.predict, trained_classifier, demo_preprocess, demo_model_predict.
    simpl. rewrite decide_True by lra. simpl.
    rewrite decide_True by (unfold threshold; lra). done.
  - unfold CNN.predict. simpl. rewrite decide_True by lra. simpl.
    rewrite decide_True by (unfold threshold; lra). done.
Qed.

Lemma predict_cases_witness :
  predict demo_preprocess demo_model_predict fresh_classifier [0.9; 0.1]%R
  = (None, 0%R).
Proof.
  apply (predict_cases demo_preprocess demo_model_predict fresh_classifier).
  left. reflexivity.
Defined.

End CNNFacts.

(* --------------------------------------------------------------------- *)
(** ** More on the identity store: reload, failures, round trips *)
(* --------------------------------------------------------------------- *)

Module FaceServiceMore.
  Import FileUtils FaceService FileUtilsFacts FaceServiceFacts.

Section Service.
Context {file_content image encoding : Type}.
Variable normalize_NFKD : string → string.
Variable load_image_file : file_content → option image.
Variable face_encodings : image → list encoding.

#[local] Abbreviation state := (@state file_content encoding).
#[local] Abbreviation secure_filename := (secure_filename normalize_NFKD).
#[local] Abbreviation store_key := (store_key normalize_NFKD).
#[local] Abbreviation load_known_faces := (load_known_faces load_image_file face_encodings).
#[local] Abbreviation register_face :=
  (register_face normalize_NFKD load_image_file face_encodings).
#[local] Abbreviation delete_face :=
  (delete_face normalize_NFKD load_image_file face_encodings).
#[local] Abbreviation identity_of := (identity_of load_image_file face_encodings).
#[local] Abbreviation identities := (identities load_image_file face_encodings).

Lemma identity_of_iff (d : gmap string file_content) (f : string) (e : encoding) (n : string) :
  identity_of d f = Some (e, n)
  ↔ ∃ content img rest,
      d !! f = Some content ∧ allowed_file f = true
      ∧ load_image_file content = Some img
      ∧ face_encodings img = e :: rest ∧ n = (splitext f).1.
Proof.
  unfold FaceService.identity_of, label_of. split.
  - destruct (allowed_file f); [|done].
    destruct (d !! f) as [c|] eqn:Hc; simpl; [|done].
    destruct (load_image_file c) as [img|] eqn:Hi; [|done].
    destruct (face_encodings img) as [|e' rest] eqn:He; [done|].
    intros [= <- <-]. by exists c, img, rest.
  - intros (c & img & rest & -> & -> & Hi & He & ->). simpl.
    by rewrite Hi, He.
Qed.

  (** X1.  A reload returns the number of identities it lists, keeps the
      two lists parallel, leaves the folder alone, and lists the pair
      (encoding, name) exactly when some folder entry has an allowed
      extension, decodes, shows at least one face whose first encoding is
      that encoding, and has that name as its stem.  Files of other
      types, undecodable files and files without a face are skipped. *)
Theorem reload_lists_exactly_the_faces (s : state) :
  let r := load_known_faces s in
  r.1 = length (known_face_names r.2)
  ∧ length (known_face_encodings r.2) = length (known_face_names r.2)
  ∧ known_faces_folder r.2 = known_faces_folder s
  ∧ ∀ e n,
      (e, n) ∈ zip (known_face_encodings r.2) (known_face_names r.2)
      ↔ ∃ f content img rest,
          known_faces_folder s !! f = Some content
          ∧ allowed_file f = true
          ∧ load_image_file content = Some img
          ∧ face_encodings img = e :: rest
          ∧ n = (splitext f).1.
Proof.
  intros r. subst r.
  destruct (load_known_faces_identities load_image_file face_encodings s)
    as (Hf & He & Hn & Hc).
  rewrite Hf, He, Hn, Hc, zip_fst_snd, !length_fmap. split_and!; try done.
  intros e n. rewrite elem_of_identities. split.
  - intros (f & _ & Hid). apply identity_of_iff in Hid as (c & img & rest & H).
    by exists f, c, img, rest.
  - intros (f & c & img & rest & Hc' & H). exists f. split; [eauto|].
    apply identity_of_iff. by exists c, img, rest.
Qed.

  (** X2.  An enrolment that fails, for whatever reason, leaves both
      registry lists as they were; when it is refused at validation
      (missing file name or label, or an upload whose extension is not
      allowed) the folder is untouched too. *)
Theorem failed_enrolment_keeps_registry (file : FileStorage) (name : string) (s : state) :
  success (register_face file name s).1 = false →
  known_face_encodings (register_face file name s).2 = known_face_encodings s
  ∧ known_face_names (register_face file name s).2 = known_face_names s
  ∧ (filename file = EmptyString ∨ name = EmptyString
     ∨ allowed_file (filename file) = false →
     status_code (register_face file name s).1 = 400
     ∧ (register_face file name s).2 = s).
Proof.
  unfold FaceService.register_face.
  destruct (bool_decide (filename file = EmptyString)) eqn:Hf; simpl.
  { done. }
  destruct (bool_decide (name = EmptyString)) eqn:Hn; simpl.
  { done. }
  destruct (allowed_file (filename file)) eqn:Ha; simpl.
  - apply bool_decide_eq_false in Hf, Hn.
    destruct (_ ≫= load_image_file) as [img|].
    + destruct (face_encodings img); [|done]. simpl. intros _.
      split_and!; try done. intros [?|[?|?]]; done.
    + simpl. intros _. split_and!; try done. intros [?|[?|?]]; done.
  - done.
Qed.

  (** X3.  An upload without a face submitted under a label that has no
      stored image is refused with status 400 and leaves the whole state,
      folder and registry, exactly as it was. *)
Theorem faceless_enrolment_of_new_label_is_undone (file : FileStorage) (name : string)
    (s : state) :
  body (register_face file name s).1 = NoFaceDetected →
  known_faces_folder s !! store_key name = None →
  (register_face file name s).1 = Response false NoFaceDetected 400
  ∧ (register_face file name s).2 = s.
Proof.
  intros Hb Hnone.
  pose proof (register_face_no_face_fresh _ _ _ _ _ _ Hb Hnone) as Hfolder.
  destruct (register_face_no_face _ _ _ _ _ _ Hb) as (He & Hn & _).
  split.
  - revert Hb. unfold FaceService.register_face.
    destruct (_ || _); [done|]. destruct (negb _); [done|].
    destruct (_ ≫= load_image_file) as [img|]; [|done].
    by destruct (face_encodings img).
  - destruct (register_face file name s).2 as [d es ns], s as [d0 es0 ns0].
    simpl in *. by subst.
Qed.

  (** X4.  An upload that cannot be decoded is answered with status 500,
      but the file saved for it stays in the folder under the label's key
      (replacing any image stored there); the registry lists are not
      touched, and a later reload reads no identity from that file. *)
Theorem undecodable_upload_is_left_behind (file : FileStorage) (name : string) (s : state) :
  filename file ≠ EmptyString → name ≠ EmptyString →
  allowed_file (filename file) = true →
  load_image_file (stream file) = None →
  (register_face file name s).1 = Response false RegistrationError 500
  ∧ known_faces_folder (register_face file name s).2
    = <[store_key name := stream file]> (known_faces_folder s)
  ∧ known_face_encodings (register_face file name s).2 = known_face_encodings s
  ∧ known_face_names (register_face file name s).2 = known_face_names s
  ∧ identity_of (known_faces_folder (register_face file name s).2) (store_key name)
    = None.
Proof.
  intros Hf Hn Ha Hl. unfold FaceService.register_face.
  rewrite !bool_decide_eq_false_2 by done. rewrite Ha. simpl.
  fold (store_key name). rewrite lookup_insert_eq. simpl. rewrite Hl. simpl.
  split_and!; try done.
  unfold FaceService.identity_of. destruct (allowed_file (store_key name)); [|done].
  rewrite lookup_insert_eq. simpl. by rewrite Hl.
Qed.

  (** X5.  A successful enrolment answers 200, stores the upload under
      the label's key, and leaves the registry equal to a fresh reading of
      the folder, in which the label (in its stored form) is listed with
      the first encoding found in the upload. *)
Theorem successful_enrolment_is_listed (file : FileStorage) (name : string) (s : state) :
  success (register_face file name s).1 = true →
  let s' := (register_face file name s).2 in
  (register_face file name s).1 = Response true Registered 200
  ∧ known_faces_folder s' = <[store_key name := stream file]> (known_faces_folder s)
  ∧ known_face_encodings s' = (identities (known_faces_folder s')).*1
  ∧ known_face_names s' = (identities (known_faces_folder s')).*2
  ∧ ∃ img e rest,
      load_image_file (stream file) = Some img
      ∧ face_encodings img = e :: rest
      ∧ (e, label_of (store_key name))
        ∈ zip (known_face_encodings s') (known_face_names s').
Proof.
  intros Hs s'. subst s'.
  destruct (register_face_success _ _ _ _ _ _ Hs)
    as (img & e & rest & Hl & He & Hfolder & Hencs & Hnames).
  rewrite Hfolder, Hencs, Hnames, zip_fst_snd. split_and!; try done.
  - revert Hs. unfold FaceService.register_face.
    destruct (_ || _); [done|]. destruct (negb _); [done|].
    destruct (_ ≫= load_image_file) as [i|]; [|done].
    by destruct (face_encodings i).
  - exists img, e, rest. split_and!; try done.
    apply elem_of_identities. exists (store_key name).
    rewrite lookup_insert_eq. split; [eauto|].
    unfold FaceService.identity_of. unfold store_key at 1.
    rewrite allowed_file_jpg, lookup_insert_eq. simpl. by rewrite Hl, He.
Qed.

  (** X6.  Deleting a label that has no stored image answers 404 and
      changes nothing. *)
Theorem delete_unknown_label (name : string) (s : state) :
  known_faces_folder s !! store_key name = None →
  delete_face name s = (Response false NotFound 404, s).
Proof.
  intros Hnone. unfold FaceService.delete_face. fold (store_key name).
  rewrite bool_decide_eq_false_2; [done|]. rewrite Hnone. by intros [? ?].
Qed.

  (** X7.  Enrolling a label that had no stored image and deleting it
      again restores the folder, and leaves the registry equal to a fresh
      reading of that folder. *)
Theorem enrol_then_delete_restores_folder (file : FileStorage) (name : string) (s : state) :
  known_faces_folder s !! store_key name = None →
  success (register_face file name s).1 = true →
  let s' := (delete_face name (register_face file name s).2).2 in
  (delete_face name (register_face file name s).2).1 = Response true Deleted 200
  ∧ known_faces_folder s' = known_faces_folder s
  ∧ known_face_encodings s' = (identities (known_faces_folder s)).*1
  ∧ known_face_names s' = (identities (known_faces_folder s)).*2.
Proof.
  intros Hnone Hs s'. subst s'.
  destruct (register_face_success _ _ _ _ _ _ Hs) as (_ & _ & _ & _ & _ & Hfolder & _).
  assert (Hk : is_Some (known_faces_folder (register_face file name s).2 !! store_key name)).
  { rewrite Hfolder, lookup_insert_eq. eauto. }
  unfold FaceService.delete_face. fold (store_key name).
  rewrite bool_decide_eq_true_2 by done. cbn [fst snd].
  match goal with |- context [FaceService.load_known_faces _ _ ?st] =>
    destruct (load_known_faces_identities load_image_file face_encodings st)
      as (Hf & He & Hn & _) end.
  rewrite Hf, He, Hn. cbn [known_faces_folder].
  rewrite Hfolder, delete_insert_eq, delete_id by done. done.
Qed.

  (** X8.  In a folder whose image files are all enrolment-named, a
      successful deletion removes the label from the registry: its stored
      form is no longer listed. *)
Theorem deleted_label_is_not_listed (name : string) (s : state) :
  enrollment_named (known_faces_folder s) →
  is_Some (known_faces_folder s !! store_key name) →
  (delete_face name s).1 = Response true Deleted 200
  ∧ label_of (store_key name) ∉ known_face_names (delete_face name s).2.
Proof.
  intros Hd Hk. destruct (delete_face_found normalize_NFKD load_image_file face_encodings _ _ Hk)
    as [Hr Hfolder].
  split; [done|].
  assert (Hnames : known_face_names (delete_face name s).2
                   = (identities (known_faces_folder (delete_face name s).2)).*2).
  { unfold FaceService.delete_face. fold (store_key name).
    rewrite bool_decide_eq_true_2 by done. cbn [snd].
    match goal with |- context [FaceService.load_known_faces _ _ ?st] =>
      by destruct (load_known_faces_identities load_image_file face_encodings st)
        as (-> & _ & -> & _) end. }
  rewrite Hnames, Hfolder. intros Hin.
  apply list_elem_of_fmap in Hin as ([e n] & Hn & Hin). simpl in Hn. subst n.
  apply elem_of_identities in Hin as (f & Hf & Hid).
  apply identity_of_Some in Hid as (_ & Ha & Hl).
  destruct Hf as [c Hc]. apply lookup_delete_Some in Hc as [Hne Hc].
  destruct (Hd f (ex_intro _ c Hc) Ha) as (stem & -> & Hstem).
  apply Hne. unfold store_key. f_equal.
  apply label_of_jpg_inj; [apply secure_filename_no_leading_dot|done|done].
Qed.

End Service.

Lemma failed_enrolment_keeps_registry_witness :
  known_face_names
    (register_face NFKD_of_ascii_text demo_load demo_encodings
       {| filename := "photo.jpg"; stream := Some [] |} "carol" demo_bob_enrolled).2
  = known_face_names demo_bob_enrolled.
Proof.
  apply (failed_enrolment_keeps_registry NFKD_of_ascii_text demo_load demo_encodings
           {| filename := "photo.jpg"; stream := Some [] |} "carol" demo_bob_enrolled).
  reflexivity.
Defined.

Lemma faceless_enrolment_of_new_label_is_undone_witness :
  (register_face NFKD_of_ascii_text demo_load demo_encodings
     {| filename := "photo.jpg"; stream := Some [] |} "carol" demo_bob_enrolled).2
  = demo_bob_enrolled.
Proof.
  apply (faceless_enrolment_of_new_label_is_undone NFKD_of_ascii_text demo_load demo_encodings
           {| filename := "photo.jpg"; stream := Some [] |} "carol" demo_bob_enrolled).
  - reflexivity.
  - by vm_compute.
Defined.

Lemma undecodable_upload_is_left_behind_witness :
  (register_face NFKD_of_ascii_text demo_load demo_encodings
     {| filename := "photo.jpg"; stream := None |} "carol" demo_bob_enrolled).1
  = Response false RegistrationError 500.
Proof.
  apply (undecodable_upload_is_left_behind NFKD_of_ascii_text demo_load demo_encodings
           {| filename := "photo.jpg"; stream := None |} "carol" demo_bob_enrolled).
  - discriminate.
  - discriminate.
  - by vm_compute.
  - reflexivity.
Defined.

Lemma successful_enrolment_is_listed_witness :
  (register_face NFKD_of_ascii_text demo_load demo_encodings
     {| filename := "photo.jpg"; stream := Some [5; 6] |} "carol" demo_bob_enrolled).1
  = Response true Registered 200.
Proof.
  apply (successful_enrolment_is_listed NFKD_of_ascii_text demo_load demo_encodings
           {| filename := "photo.jpg"; stream := Some [5; 6] |} "carol"
           demo_bob_enrolled).
  reflexivity.
Defined.

Lemma delete_unknown_label_witness :
  delete_face NFKD_of_ascii_text demo_load demo_encodings "carol" demo_bob_enrolled
  = (Response false NotFound 404, demo_bob_enrolled).
Proof.
  apply (delete_unknown_label NFKD_of_ascii_text demo_load demo_encodings "carol" demo_bob_enrolled).
  by vm_compute.
Defined.

Lemma enrol_then_delete_restores_folder_witness :
  known_faces_folder
    (delete_face NFKD_of_ascii_text demo_load demo_encodings "carol"
       (register_face NFKD_of_ascii_text demo_load demo_encodings
          {| filename := "photo.jpg"; stream := Some [5] |} "carol"
          demo_bob_enrolled).2).2
  = known_faces_folder demo_bob_enrolled.
Proof.
  apply (enrol_then_delete_restores_folder NFKD_of_ascii_text demo_load demo_encodings
           {| filename := "photo.jpg"; stream := Some [5] |} "carol"
           demo_bob_enrolled).
  - by vm_compute.
  - reflexivity.
Defined.

Lemma demo_bob_enrolled_named : enrollment_named (known_faces_folder demo_bob_enrolled).
Proof.
  apply (reachable_ok NFKD_of_ascii_text demo_load demo_encodings ∅).
  - apply enrollment_named_empty.
  - apply reach_register, reach_startup.
Qed.

Lemma deleted_label_is_not_listed_witness :
  (delete_face NFKD_of_ascii_text demo_load demo_encodings "bob" demo_bob_enrolled).1
  = Response true Deleted 200
  ∧ label_of (store_key NFKD_of_ascii_text "bob")
    ∉ known_face_names (delete_face NFKD_of_ascii_text demo_load demo_encodings "bob" demo_bob_enrolled).2.
Proof.
  apply (deleted_label_is_not_listed NFKD_of_ascii_text demo_load demo_encodings "bob" demo_bob_enrolled).
  - apply demo_bob_enrolled_named.
  - vm_compute. eauto.
Defined.

End FaceServiceMore.

(* --------------------------------------------------------------------- *)
(** ** The two file-name filters agree *)
(* --------------------------------------------------------------------- *)

Module FileUtilsMore.
  Import FileUtils FaceService CNN FileUtilsFacts.

Lemma lower_ascii_dot (c : ascii) :
  Ascii.eqb (lower_ascii c) "." = Ascii.eqb c ".".
Proof. destruct c as [[] [] [] [] [] [] [] []]; reflexivity. Qed.

Lemma rsplit_dot_lower (s : string) :
  rsplit_dot (lower s)
  = (λ p : string * string, (lower p.1, lower p.2)) <$> rsplit_dot s.
Proof.
  induction s as [|c s IH]; [done|]. cbn [lower rsplit_dot]. rewrite IH.
  destruct (rsplit_dot s) as [[b a]|]; [done|]. cbn.
  rewrite lower_ascii_dot. by destruct (Ascii.eqb c ".").
Qed.

Lemma rsplit_dot_app (p e : string) :
  rsplit_dot e = None → rsplit_dot (p +:+ String "." e) = Some (p, e).
Proof.
  intros He. induction p as [|c p IH].
  - simpl. by rewrite He.
  - simpl. by rewrite IH.
Qed.

Lemma rsplit_dot_Some (t b e : string) :
  rsplit_dot t = Some (b, e) → t = b +:+ String "." e ∧ rsplit_dot e = None.
Proof.
  revert b. induction t as [|c t IH]; intros b; [done|]. cbn [rsplit_dot].
  destruct (rsplit_dot t) as [[b' a']|] eqn:Ht.
  - intros [= <- <-]. destruct (IH b' eq_refl) as [-> Hn]. by split.
  - destruct (Ascii.eqb_spec c "."); [|done]. intros [= <- <-]. by subst.
Qed.

Lemma substring_all (q : string) : substring 0 (String.length q) q = q.
Proof. induction q as [|c q IH]; [done|]. simpl. by rewrite IH. Qed.

Lemma substring_append (p q : string) :
  substring (String.length p) (String.length q) (p +:+ q) = q.
Proof. induction p as [|c p IH]; [apply substring_all|]. by simpl. Qed.

Lemma length_append (p q : string) :
  String.length (p +:+ q) = String.length p + String.length q.
Proof. induction p as [|c p IH]; [done|]. simpl. by rewrite IH. Qed.

Lemma substring_split (s : string) (n : nat) :
  n ≤ String.length s →
  s = substring 0 n s +:+ substring n (String.length s - n) s.
Proof.
  revert n. induction s as [|c s IH]; intros [|n] Hn; simpl in *; try lia.
  - done.
  - change (String c s = String c (substring 0 (String.length s) s)).
    by rewrite substring_all.
  - change (String c s
            = String c (substring 0 n s +:+ substring n (String.length s - n) s)).
    f_equal. apply IH. lia.
Qed.

Lemma endswith_spec (s suffix : string) :
  endswith s suffix = true ↔ ∃ p, s = p +:+ suffix.
Proof.
  unfold endswith. rewrite andb_true_iff, Nat.leb_le, String.eqb_eq. split.
  - intros [Hlen Hsub].
    exists (substring 0 (String.length s - String.length suffix) s).
    pose proof (substring_split s (String.length s - String.length suffix)) as H.
    replace (String.length s - (String.length s - String.length suffix))
      with (String.length suffix) in H by lia.
    rewrite Hsub in H. apply H. lia.
  - intros [p ->]. rewrite length_append. split; [lia|].
    replace (String.length p + String.length suffix - String.length suffix)
      with (String.length p) by lia.
    apply substring_append.
Qed.

Lemma allowed_extension (e : string) :
  e ∈ ALLOWED_EXTENSIONS ↔ e = "png" ∨ e = "jpg" ∨ e = "jpeg".
Proof.
  unfold ALLOWED_EXTENSIONS. rewrite !elem_of_union, !elem_of_singleton. tauto.
Qed.

Lemma endswith_extension (t e : string) :
  rsplit_dot e = None →
  endswith t (String "." e) = true ↔ ∃ b, rsplit_dot t = Some (b, e).
Proof.
  intros He. rewrite endswith_spec. split.
  - intros [p ->]. exists p. by apply rsplit_dot_app.
  - intros [b Hb]. exists b. by apply rsplit_dot_Some in Hb as [-> _].
Qed.

  (** X9.  The registry reload and the classifier's training scan accept
      exactly the same file names: [allowed_file], which looks at the text
      after the last dot, and the ends-with test of [train] agree on every
      name. *)
Theorem scan_and_reload_accept_the_same_files (filename : string) :
  is_image_name filename = allowed_file filename.
Proof.
  unfold is_image_name, allowed_file. cbv zeta.
  pose proof (rsplit_dot_lower filename) as Hl.
  pose proof (endswith_extension (lower filename) "png" eq_refl) as Hpng.
  pose proof (endswith_extension (lower filename) "jpg" eq_refl) as Hjpg.
  pose proof (endswith_extension (lower filename) "jpeg" eq_refl) as Hjpeg.
  destruct (rsplit_dot filename) as [[b e]|]; cbn in Hl; rewrite Hl in *.
  - destruct (bool_decide (lower e ∈ ALLOWED_EXTENSIONS)) eqn:Hin.
    + apply bool_decide_eq_true, allowed_extension in Hin.
      apply orb_true_iff. rewrite orb_true_iff.
      destruct Hin as [He|[He|He]]; rewrite He in *.
      * left; left. apply Hpng. eauto.
      * left; right. apply Hjpg. eauto.
      * right. apply Hjpeg. eauto.
    + apply bool_decide_eq_false in Hin. rewrite allowed_extension in Hin.
      apply orb_false_iff. rewrite orb_false_iff.
      split_and!; apply not_true_is_false; intros H.
      * apply Hpng in H as [? [= _ He]]. auto.
      * apply Hjpg in H as [? [= _ He]]. auto.
      * apply Hjpeg in H as [? [= _ He]]. auto.
  - apply orb_false_iff. rewrite orb_false_iff.
    split_and!; apply not_true_is_false; intros H.
    + by apply Hpng in H as [? ?].
    + by apply Hjpg in H as [? ?].
    + by apply Hjpeg in H as [? ?].
Qed.

End FileUtilsMore.

(* --------------------------------------------------------------------- *)
(** ** More on feature extraction *)
(* --------------------------------------------------------------------- *)

Module FeatureExtractionMore.
  Import Numpy FeatureExtraction FeatureExtractionFacts.

Lemma pixel_cells (image : gray_image) (rows cols i j : nat) :
  i < rows → j < cols →
  pixel (map (λ i, map (λ j, lbp_cell image rows cols i j) (seq 0 cols)) (seq 0 rows)) i j
  = lbp_cell image rows cols i j.
Proof.
  intros Hi Hj. unfold pixel.
  erewrite (nth_lookup_Some _ i []);
    [|rewrite list_lookup_fmap, lookup_seq_lt by done; reflexivity].
  erewrite (nth_lookup_Some _ j 0%Z);
    [|rewrite list_lookup_fmap, lookup_seq_lt by done; reflexivity].
  done.
Qed.

  (** X10.  The LBP image has the shape of its input; every entry is a
      byte value; at an interior pixel it is the pixel's LBP code, and on
      the one-pixel border it is zero. *)
Theorem lbp_image_layout (image : gray_image) (rows cols : nat) :
  0 < rows → has_shape image rows cols →
  has_shape (lbp_image image) rows cols
  ∧ Forall (Forall (λ v, 0 <= v < 256)%Z) (lbp_image image)
  ∧ ∀ i j, i < rows → j < cols →
      pixel (lbp_image image) i j
      = if decide ((1 ≤ i ∧ i + 2 ≤ rows) ∧ (1 ≤ j ∧ j + 2 ≤ cols))
        then lbp_code image i j else 0%Z.
Proof.
  intros Hr Hs. rewrite (lbp_image_cells image rows cols) by done.
  split_and!.
  - split.
    + by rewrite length_map, length_seq.
    + apply Forall_fmap, Forall_forall. intros i _. cbn.
      by rewrite length_map, length_seq.
  - apply Forall_fmap, Forall_forall. intros i _.
    apply Forall_fmap, Forall_forall. intros j _. apply lbp_cell_range.
  - intros i j Hi Hj. by rewrite pixel_cells.
Qed.

Lemma sum_div (l : list R) (d : R) :
  sum (map (λ x, x / d)%R l) = (sum l / d)%R.
Proof.
  unfold sum. induction l as [|x l IH]; cbn [map foldr]; [lra|].
  rewrite IH. lra.
Qed.

Lemma bin_count_nonneg (b : nat) (data : list Z) : (0 <= bin_count 256 b data)%Z.
Proof. unfold bin_count. lia. Qed.

  (** X11.  The LBP feature vector of an image has 256 entries, none
      negative, and they add up to n / (n + epsilon), where n is the
      number of pixels: just below one, and never a division by zero. *)
Theorem lbp_features_distribution (image : gray_image) (rows cols : nat) :
  0 < rows → has_shape image rows cols →
  length (_extract_lbp_features image) = 256
  ∧ Forall (λ x, 0 <= x)%R (_extract_lbp_features image)
  ∧ sum (_extract_lbp_features image)
    = (IZR (Z.of_nat (rows * cols)) / (IZR (Z.of_nat (rows * cols)) + epsilon))%R.
Proof.
  intros Hr Hs. unfold _extract_lbp_features. cbv zeta.
  assert (Hsum : sum (map IZR (histogram (ravel (lbp_image image)) 256))
                 = IZR (Z.of_nat (rows * cols))).
  { rewrite sum_IZR, histogram_sum by (by apply (lbp_image_range image rows cols)).
    by rewrite (lbp_image_size image rows cols). }
  assert (Hn : (0 <= IZR (Z.of_nat (rows * cols)))%R) by (apply IZR_le; lia).
  assert (He : (0 < epsilon)%R) by (unfold epsilon; lra).
  rewrite sum_div, Hsum. split_and!; [|  |done].
  - unfold histogram. by rewrite !length_map, length_seq.
  - apply Forall_fmap, Forall_fmap. unfold histogram.
    apply Forall_fmap, Forall_forall. intros b _. cbn.
    apply Rmult_le_pos.
    + apply IZR_le, bin_count_nonneg.
    + apply Rlt_le, Rinv_0_lt_compat. lra.
Qed.

Lemma neighbour_at (image : gray_image) (i j : nat) :
  1 ≤ i → 1 ≤ j →
  neighbour image i j (-1, -1)%Z = pixel image (i - 1) (j - 1)
  ∧ neighbour image i j (-1, 0)%Z = pixel image (i - 1) j
  ∧ neighbour image i j (-1, 1)%Z = pixel image (i - 1) (j + 1)
  ∧ neighbour image i j (0, 1)%Z = pixel image i (j + 1)
  ∧ neighbour image i j (1, 1)%Z = pixel image (i + 1) (j + 1)
  ∧ neighbour image i j (1, 0)%Z = pixel image (i + 1) j
  ∧ neighbour image i j (1, -1)%Z = pixel image (i + 1) (j - 1)
  ∧ neighbour image i j (0, -1)%Z = pixel image i (j - 1).
Proof.
  intros Hi Hj. unfold neighbour. cbn [fst snd].
  assert (Hm : ∀ n, 1 ≤ n → Z.to_nat (Z.of_nat n + -1) = n - 1) by (intros; lia).
  assert (Hz : ∀ n, Z.to_nat (Z.of_nat n + 0) = n) by (intros; lia).
  assert (Hp : ∀ n, Z.to_nat (Z.of_nat n + 1) = n + 1) by (intros; lia).
  by rewrite !Hm, !Hz, !Hp by done.
Qed.

  (** X12.  The two extreme codes: where none of the eight neighbours is
      below the centre (a flat patch, or a local minimum) the code is 255,
      and where all eight are below it (a strict local maximum) the code
      is 0. *)
Theorem lbp_code_extremes (image : gray_image) (i j : nat) :
  1 ≤ i → 1 ≤ j →
  ((∀ offset, offset ∈ clockwise_from_top_left →
      (pixel image i j <= neighbour image i j offset)%Z) →
   lbp_code image i j = 255%Z)
  ∧ ((∀ offset, offset ∈ clockwise_from_top_left →
        (neighbour image i j offset < pixel image i j)%Z) →
     lbp_code image i j = 0%Z).
Proof.
  intros Hi Hj.
  destruct (neighbour_at image i j Hi Hj) as (H1 & H2 & H3 & H4 & H5 & H6 & H7 & H8).
  assert (Hin : Forall (λ o, o ∈ clockwise_from_top_left) clockwise_from_top_left)
    by (apply Forall_forall; auto).
  unfold clockwise_from_top_left in Hin at 2.
  repeat (apply Forall_cons in Hin as [? Hin]).
  split; intros Hall; unfold lbp_code, ge_bit; cbv zeta.
  - rewrite <- H1, <- H2, <- H3, <- H4, <- H5, <- H6, <- H7, <- H8.
    repeat match goal with
           | |- context [(?a <=? ?b)%Z] =>
               replace (a <=? b)%Z with true by (symmetry; apply Z.leb_le; by apply Hall)
           end.
    done.
  - rewrite <- H1, <- H2, <- H3, <- H4, <- H5, <- H6, <- H7, <- H8.
    repeat match goal with
           | |- context [(?a <=? ?b)%Z] =>
               replace (a <=? b)%Z with false
                 by (symmetry; apply Z.leb_gt; by apply Hall)
           end.
    done.
Qed.

  (** X13.  Normalising is idempotent: a vector that has been normalised
      is left as it is by a second normalisation. *)
Theorem l2_normalize_idempotent (v : list R) :
  l2_normalize (l2_normalize v) = l2_normalize v.
Proof.
  destruct (zero_or_not v) as [Hz|Hnz].
  - by rewrite !(l2_normalize_zero v Hz).
  - pose proof (l2_normalize_unit v Hnz) as Hunit.
    unfold l2_normalize at 1. cbv zeta. rewrite Hunit.
    rewrite decide_True by lra.
    rewrite <- (map_id (l2_normalize v)) at 2.
    apply map_ext. intros x. lra.
Qed.

Lemma norm_scale (c : R) (v : list R) :
  (0 < c)%R → norm (map (λ x, c * x)%R v) = (c * norm v)%R.
Proof.
  intros Hc. unfold norm.
  assert (Hs : sum (map (λ x, x * x)%R (map (λ x, c * x)%R v))
               = ((c * c) * sum (map (λ x, x * x)%R v))%R).
  { unfold sum. induction v as [|x v IH]; cbn [map foldr]; [lra|]. rewrite IH. lra. }
  rewrite Hs, sqrt_mult by (nra || apply sum_squares_nonneg).
  rewrite sqrt_square by lra. done.
Qed.

  (** Normalising is insensitive to a positive scale: a vector and
      any positive multiple of it normalise to the same vector. *)
Theorem l2_normalize_scale_invariant (c : R) (v : list R) :
  (0 < c)%R → l2_normalize (map (λ x, c * x)%R v) = l2_normalize v.
Proof.
  intros Hc. unfold l2_normalize. cbv zeta. rewrite norm_scale by done.
  pose proof (norm_nonneg v) as Hn.
  destruct (decide (norm v > 0)%R) as [Hpos|Hzero].
  - rewrite decide_True by nra. rewrite map_map.
    apply map_ext. intros x. field. lra.
  - rewrite decide_False by nra.
    assert (Hz : Forall (λ x, x = 0%R) v) by (apply norm_zero; lra).
    rewrite <- (map_id v) at 2. apply map_ext_Forall.
    eapply Forall_impl; [exact Hz|]. intros x ->. cbn. lra.
Qed.

Lemma length_l2_normalize (v : list R) : length (l2_normalize v) = length v.
Proof. unfold l2_normalize. cbv zeta. case_decide; [apply length_map|done]. Qed.

Section Extraction.
Context {image : Type}.
Variable face_locations : string → image → list box.
Variable haarcascade_frontalface_default : gray_image → list (Z * Z * Z * Z).
Variable lbpcascade_frontalface : gray_image → list (Z * Z * Z * Z).
Variable cvtColor_RGB2GRAY : image → gray_image.
Variable resize : gray_image → nat * nat → gray_image.
Variable hog_compute : gray_image → list R.

  (** X14.  Both cascade detectors hand back one rectangle per detection,
      in the detector's order, and the conversion keeps the geometry: the
      rectangle for a detection (x, y, w, h) has its top-left corner at
      row y, column x, and spans h rows and w columns; so a detection of
      positive size inside the image gives top < bottom and left <
      right. *)
Theorem cascade_boxes_keep_geometry (img : image) (k : nat) (x y w h : Z) :
  let gray := cvtColor_RGB2GRAY img in
  (haarcascade_frontalface_default gray !! k = Some (x, y, w, h) →
     _custom_hog_detection haarcascade_frontalface_default cvtColor_RGB2GRAY img !! k
     = Some (y, x + w, y + h, x)%Z)
  ∧ (lbpcascade_frontalface gray !! k = Some (x, y, w, h) →
     _lbp_detection lbpcascade_frontalface cvtColor_RGB2GRAY img !! k
     = Some (y, x + w, y + h, x)%Z)
  ∧ length (_custom_hog_detection haarcascade_frontalface_default cvtColor_RGB2GRAY img)
    = length (haarcascade_frontalface_default gray)
  ∧ length (_lbp_detection lbpcascade_frontalface cvtColor_RGB2GRAY img)
    = length (lbpcascade_frontalface gray)
  ∧ ∀ top right' bottom left',
      to_css (x, y, w, h) = (top, right', bottom, left') →
      (top = y ∧ left' = x ∧ bottom - top = h ∧ right' - left' = w
       ∧ (0 < w → left' < right') ∧ (0 < h → top < bottom))%Z.
Proof.
  intros gray. subst gray. unfold _custom_hog_detection, _lbp_detection. cbv zeta.
  split_and!.
  - intros Hk. by rewrite list_lookup_fmap, Hk.
  - intros Hk. by rewrite list_lookup_fmap, Hk.
  - apply length_map.
  - apply length_map.
  - intros top r b l [= <- <- <- <-]. lia.
Qed.

  (** The hand-engineered descriptor holds the HOG entries followed by
      the 256 entries of the LBP histogram. *)
Lemma length_custom_descriptor (face_image : gray_image) :
  length (custom_descriptor resize hog_compute face_image)
  = length (hog_compute (resize face_image (64, 64))) + 256.
Proof.
  unfold custom_descriptor, combined_features. cbv zeta.
  rewrite length_l2_normalize, length_app.
  unfold _extract_lbp_features, histogram. cbv zeta.
  by rewrite !length_map, length_seq.
Qed.

  (** X15.  The hand-engineered extraction returns one descriptor per
      face rectangle; and when resizing to 128 x 128 yields an image of
      that shape, every descriptor has L2 norm 1 and holds the HOG entries
      followed by 256 LBP entries. *)
Theorem custom_features_per_face (img : image) (locations : list box) :
  (∀ face size, size = (128, 128) → has_shape (resize face size) 128 128) →
  let features :=
    _custom_feature_extraction cvtColor_RGB2GRAY resize hog_compute img locations in
  length features = length locations
  ∧ Forall (λ d, norm d = 1%R) features
  ∧ ∀ k location, locations !! k = Some location →
      ∃ d, features !! k = Some d
           ∧ length d
             = length (hog_compute
                         (resize (resize (crop (cvtColor_RGB2GRAY img) location)
                                    (128, 128)) (64, 64))) + 256.
Proof.
  intros Hresize features. subst features.
  unfold _custom_feature_extraction. cbv zeta. split_and!.
  - apply length_map.
  - apply Forall_fmap, Forall_forall. intros location _. cbn.
    apply custom_descriptor_unit_norm_128. by apply Hresize.
  - intros k location Hk. rewrite list_lookup_fmap, Hk. cbn.
    eexists. split; [reflexivity|].
    unfold custom_descriptor, combined_features. cbv zeta.
    rewrite length_l2_normalize, length_app.
    unfold _extract_lbp_features, histogram. cbv zeta.
    by rewrite !length_map, length_seq.
Qed.

End Extraction.

Lemma lbp_image_layout_witness :
  has_shape (lbp_image black_crop) 128 128.
Proof.
  apply (lbp_image_layout black_crop 128 128).
  - lia.
  - split; [reflexivity|]. apply Forall_replicate. reflexivity.
Defined.

Lemma lbp_features_distribution_witness :
  length (_extract_lbp_features black_crop) = 256.
Proof.
  apply (lbp_features_distribution black_crop 128 128).
  - lia.
  - split; [reflexivity|]. apply Forall_replicate. reflexivity.
Defined.

Lemma lbp_code_extremes_witness : lbp_code black_crop 1 1 = 255%Z.
Proof.
  apply (lbp_code_extremes black_crop 1 1); [lia|lia|].
  intros offset Hoff. unfold clockwise_from_top_left in Hoff.
  repeat (apply elem_of_cons in Hoff as [->|Hoff]); try (by vm_compute).
  by apply elem_of_nil in Hoff.
Defined.

Example flat_patch_code : lbp_code black_crop 1 1 = 255%Z.
Proof. by vm_compute. Qed.

Lemma l2_normalize_scale_invariant_witness :
  l2_normalize (map (λ x, 2 * x)%R [3; 4]%R) = l2_normalize [3; 4]%R.
Proof.
  apply (l2_normalize_scale_invariant 2 [3; 4]%R). lra.
Defined.

Lemma custom_features_per_face_witness :
  length (_custom_feature_extraction (λ _ : unit, []) (λ _ _, black_crop)
            (λ _, [3; 4]%R) tt [(0, 10, 10, 0)%Z])
  = 1.
Proof.
  apply (custom_features_per_face (λ _ : unit, []) (λ _ _, black_crop)
           (λ _, [3; 4]%R) tt [(0, 10, 10, 0)%Z]).
  intros face size _. split; [reflexivity|]. apply Forall_replicate. reflexivity.
Defined.

Lemma cascade_boxes_keep_geometry_witness :
  _custom_hog_detection (λ _, [(20, 10, 30, 40)%Z]) (λ _ : unit, []) tt !! 0
  = Some (10, 50, 50, 20)%Z.
Proof.
  exact (proj1 (cascade_boxes_keep_geometry (λ _, [(20, 10, 30, 40)%Z]) (λ _, [])
                  (λ _ : unit, []) tt 0 20 10 30 40) eq_refl).
Defined.

End FeatureExtractionMore.

(* --------------------------------------------------------------------- *)
(** ** More on matching and detection *)
(* --------------------------------------------------------------------- *)

Module RecognitionMore.
  Import Numpy NumpyFacts FeatureExtraction Recognition RecognitionFacts.

Lemma sum_sq_diff_nonneg (a b : descriptor) : (0 <= sum_sq_diff a b)%R.
Proof.
  revert b. induction a as [|x a IH]; intros [|y b]; cbn [sum_sq_diff]; try lra.
  specialize (IH b). pose proof (pow2_ge_0 (x - y)). lra.
Qed.

Lemma euclidean_distance_nonneg (a b : descriptor) : (0 <= euclidean_distance a b)%R.
Proof. apply sqrt_pos. Qed.

Lemma euclidean_distance_self (a : descriptor) : euclidean_distance a a = 0%R.
Proof.
  unfold euclidean_distance.
  replace (sum_sq_diff a a) with 0%R; [apply sqrt_0|].
  induction a as [|x a IH]; cbn [sum_sq_diff]; [done|]. rewrite <- IH. lra.
Qed.

Lemma euclidean_distance_zero (a b : descriptor) :
  length a = length b → euclidean_distance a b = 0%R → a = b.
Proof.
  unfold euclidean_distance. intros Hlen H0.
  apply sqrt_eq_0 in H0; [|apply sum_sq_diff_nonneg].
  revert b Hlen H0. induction a as [|x a IH]; intros [|y b] Hlen H0;
    cbn [sum_sq_diff length] in *; try done.
  pose proof (sum_sq_diff_nonneg a b) as Hn.
  pose proof (pow2_ge_0 (x - y)) as Hp.
  assert (Hxy : ((x - y) ^ 2 = 0)%R) by lra.
  assert (Hrest : sum_sq_diff a b = 0%R) by lra.
  f_equal; [|apply IH; [lia|done]].
  assert (x - y = 0)%R; [|lra].
  apply Rmult_integral in Hxy as [H|H]; [done|]. lra.
Qed.

  (** X16.  Whatever the registry, the probe and the threshold, a match
      that returns reports a confidence of at most one and a label that is
      either the sentinel or one of the enrolled names; so with a
      threshold of one or more nobody is ever recognised. *)
Theorem match_face_reports_enrolled_label (known_face_encodings : list descriptor)
    (known_face_names : list string) (probe : descriptor) (threshold : R)
    (label : string) (confidence : R) :
  match_face known_face_encodings known_face_names probe threshold
  = Some (label, confidence) →
  (confidence <= 1)%R
  ∧ (label = Inconnu ∨ label ∈ known_face_names)
  ∧ ((1 <= threshold)%R → label = Inconnu).
Proof.
  unfold match_face. destruct known_face_encodings as [|e0 rest].
  { intros [= <- <-]. split_and!; [lra|by left|done]. }
  cbv beta iota zeta.
  destruct (face_distance (e0 :: rest) probe) as [fd|] eqn:Hfd; [|done].
  apply face_distance_nonneg in Hfd as [_ Hpos]. cbn [mbind option_bind].
  destruct (argmin fd) as [k|]; [|done]. cbn [mbind option_bind].
  destruct (fd !! k) as [d|] eqn:Hd; [|done]. cbn [mbind option_bind].
  pose proof (Forall_lookup_1 _ _ _ _ Hpos Hd) as Hnn. cbn beta in Hnn.
  destruct (decide _) as [Hgt|Hle].
  - destruct (known_face_names !! k) as [n|] eqn:Hn; [|done]. cbn [mbind option_bind].
    intros [= <- <-]. split_and!; [lra| |intros; lra].
    right. by eapply list_elem_of_lookup_2.
  - intros [= <- <-]. split_and!; [lra|by left|done].
Qed.

  (** X17.  A probe equal to an enrolled encoding is matched, for any
      threshold below one, with confidence exactly one, to the first
      identity in registry order that carries this encoding. *)
Theorem match_face_exact (known_face_encodings : list descriptor)
    (known_face_names : list string) (probe : descriptor) (threshold : R) (k : nat) :
  length known_face_names = length known_face_encodings →
  Forall (λ e, length e = length probe) known_face_encodings →
  known_face_encodings !! k = Some probe →
  (threshold < 1)%R →
  ∃ k0 label,
    k0 ≤ k
    ∧ known_face_encodings !! k0 = Some probe
    ∧ (∀ j, j < k0 → known_face_encodings !! j ≠ Some probe)
    ∧ known_face_names !! k0 = Some label
    ∧ match_face known_face_encodings known_face_names probe threshold
      = Some (label, 1%R).
Proof.
  intros Hlen Hshape Hk Ht.
  pose proof (face_distance_same_length _ _ Hshape) as Hfd.
  set (face_distances := map (λ e, euclidean_distance e probe) known_face_encodings) in *.
  assert (Hlookup : ∀ j, face_distances !! j
                         = (λ e, euclidean_distance e probe) <$> known_face_encodings !! j)
    by (intros j; apply list_lookup_fmap).
  destruct (argmin_is_Some face_distances) as [k0 Hk0].
  { unfold face_distances. by destruct known_face_encodings. }
  destruct (argmin_spec _ _ Hk0) as (v & Hv & Hmin & Hfirst).
  rewrite Hlookup in Hv.
  destruct (known_face_encodings !! k0) as [e0|] eqn:He0; simpl in Hv; [|done].
  injection Hv as <-.
  assert (Hdk : face_distances !! k = Some 0%R).
  { by rewrite Hlookup, Hk; simpl; rewrite euclidean_distance_self. }
  assert (Hzero : euclidean_distance e0 probe = 0%R).
  { pose proof (Hmin k 0%R Hdk). pose proof (euclidean_distance_nonneg e0 probe). lra. }
  assert (He0p : e0 = probe).
  { apply euclidean_distance_zero; [|done]. by eapply (Forall_lookup_1 _ _ _ _ Hshape). }
  subst e0.
  destruct (lookup_lt_is_Some_2 known_face_names k0) as [label Hlabel].
  { rewrite Hlen. by eapply lookup_lt_Some. }
  exists k0, label. split_and!; try done.
  - destruct (decide (k0 ≤ k)) as [|Hgt]; [done|].
    assert (Hlt : k < k0) by lia. pose proof (Hfirst k 0%R Hlt Hdk). lra.
  - intros j Hj Hjp.
    assert (Hdj : face_distances !! j = Some 0%R).
    { by rewrite Hlookup, Hjp; simpl; rewrite euclidean_distance_self. }
    pose proof (Hfirst j 0%R Hj Hdj). lra.
  - assert (Hd : face_distances !! k0 = Some 0%R).
    { by rewrite Hlookup, He0; simpl; rewrite Hzero. }
    unfold match_face. destruct known_face_encodings as [|e1 rest]; [done|].
    cbv beta iota zeta. rewrite Hfd. cbn [mbind option_bind].
    rewrite Hk0. cbn [mbind option_bind]. rewrite Hd. cbn [mbind option_bind].
    rewrite decide_True by lra. rewrite Hlabel. cbn [mbind option_bind].
    do 2 f_equal. lra.
Qed.

  (** X18.  The confidence a match reports does not depend on the
      threshold, and lowering the threshold never loses a match.  When
      the match at one threshold returns a label with a confidence: if
      that confidence exceeds the threshold (the identity is accepted),
      the match at every lower threshold returns the same label with the
      same confidence; at every threshold not below the confidence it
      returns the sentinel with the same confidence; and when the name
      list is as long as the encoding list, the match returns, with that
      confidence, at every threshold. *)
Theorem match_face_threshold_monotone (known_face_encodings : list descriptor)
    (known_face_names : list string) (probe : descriptor) (t : R)
    (label : string) (c : R) :
  match_face known_face_encodings known_face_names probe t = Some (label, c) →
  ((c > t)%R → ∀ t', (t' <= t)%R →
     match_face known_face_encodings known_face_names probe t' = Some (label, c))
  ∧ (∀ t', (c <= t')%R →
       match_face known_face_encodings known_face_names probe t' = Some (Inconnu, c))
  ∧ (length known_face_names = length known_face_encodings →
     ∀ t', ∃ label',
       match_face known_face_encodings known_face_names probe t' = Some (label', c)).
Proof.
  unfold match_face. destruct known_face_encodings as [|e0 rest].
  { intros [= <- <-]. split_and!; [done|done|]. intros _ t'. by exists Inconnu. }
  cbv beta iota zeta.
  destruct (face_distance (e0 :: rest) probe) as [fd|] eqn:Hfd; [|done].
  apply face_distance_nonneg in Hfd as [Hlen _]. cbn [mbind option_bind].
  destruct (argmin fd) as [k|]; [|done]. cbn [mbind option_bind].
  destruct (fd !! k) as [d|] eqn:Hd; [|done]. cbn [mbind option_bind].
  intros Hm.
  assert (Hc : c = (1 - d)%R).
  { destruct (decide _); [destruct (known_face_names !! k)|];
      cbn [mbind option_bind] in Hm; congruence. }
  subst c. split_and!.
  - intros Hgt t' Ht'. rewrite decide_True in Hm by done.
    rewrite decide_True by lra. done.
  - intros t' Ht'. by rewrite decide_False by lra.
  - intros Hnames t'.
    destruct (lookup_lt_is_Some_2 known_face_names k) as [n Hn].
    { rewrite Hnames, <- Hlen. by eapply lookup_lt_Some. }
    rewrite Hn. cbn [mbind option_bind]. destruct (decide (1 - d > t')%R); eauto.
Qed.

Section Detection.
Context {image : Type}.
Variable face_locations : string → image → list box.
Variable haarcascade_frontalface_default : gray_image → list (Z * Z * Z * Z).
Variable lbpcascade_frontalface : gray_image → list (Z * Z * Z * Z).
Variable cvtColor_RGB2GRAY : image → gray_image.

#[local] Abbreviation detect_faces :=
  (FeatureExtraction.detect_faces face_locations haarcascade_frontalface_default
     lbpcascade_frontalface cvtColor_RGB2GRAY).
#[local] Abbreviation locate_faces :=
  (locate_faces face_locations haarcascade_frontalface_default
     lbpcascade_frontalface cvtColor_RGB2GRAY).

  (** X19.  For every method string, detection makes one or two detector
      runs, the first with the method the string resolves to; the faces
      it returns are those of the last run; and it returns no face only
      if the HOG detector finds none in the image. *)
Theorem locate_faces_no_face_means_hog_found_none (method : string) (img : image) :
  let r := locate_faces method img in
  (r.2 = [set_method method] ∨ r.2 = [set_method method; HOG])
  ∧ (∃ last, List.last r.2 HOG = last ∧ r.1 = detect_faces last img)
  ∧ (r.1 = [] → detect_faces HOG img = []).
Proof.
  intros r. subst r. unfold Recognition.locate_faces, detect_faces_logged.
  cbv beta iota zeta.
  destruct (bool_decide (detect_faces (set_method method) img = [])) eqn:Hempty;
    destruct (String.eqb method "hog") eqn:Hm; simpl.
  - apply String.eqb_eq in Hm. subst method.
    apply bool_decide_eq_true in Hempty.
    split_and!; [by left|by eexists|done].
  - split_and!; [by right|by eexists|done].
  - apply bool_decide_eq_false in Hempty.
    split_and!; [by left|by eexists|done].
  - apply bool_decide_eq_false in Hempty.
    split_and!; [by left|by eexists|done].
Qed.

End Detection.

Lemma match_face_reports_enrolled_label_witness :
  (1 <= 1)%R
  ∧ ("alice" = Inconnu ∨ "alice" ∈ ["alice"])
  ∧ ((1 <= 0.6)%R → "alice" = Inconnu).
Proof.
  apply (match_face_reports_enrolled_label [[0; 0]]%R ["alice"] [0; 0]%R 0.6%R
           "alice" 1%R).
  apply threshold_boundary.
Defined.

Lemma match_face_exact_witness :
  ∃ k0 label,
    k0 ≤ 1
    ∧ [[0; 0]; [1; 0]; [1; 0]]%R !! k0 = Some [1; 0]%R
    ∧ (∀ j, j < k0 → [[0; 0]; [1; 0]; [1; 0]]%R !! j ≠ Some [1; 0]%R)
    ∧ ["alice"; "bob"; "carol"] !! k0 = Some label
    ∧ match_face [[0; 0]; [1; 0]; [1; 0]]%R ["alice"; "bob"; "carol"] [1; 0]%R 0.6%R
      = Some (label, 1%R).
Proof.
  apply (match_face_exact [[0; 0]; [1; 0]; [1; 0]]%R ["alice"; "bob"; "carol"]
           [1; 0]%R 0.6%R 1).
  - reflexivity.
  - repeat constructor.
  - reflexivity.
  - lra.
Defined.

Lemma match_face_threshold_monotone_witness :
  match_face [[0; 0]]%R ["alice"] [0; 0]%R 0.5%R = Some ("alice", 1%R)
  ∧ match_face [[0; 0]]%R ["alice"] [0; 0]%R 1%R = Some (Inconnu, 1%R)
  ∧ ∃ label', match_face [[0; 0]]%R ["alice"] [0; 0]%R 0.9%R = Some (label', 1%R).
Proof.
  destruct (match_face_threshold_monotone [[0; 0]]%R ["alice"] [0; 0]%R 0.6%R
              "alice" 1%R (proj1 threshold_boundary)) as (Hlower & Hreject & Hall).
  split_and!.
  - apply Hlower; lra.
  - apply Hreject; lra.
  - by apply Hall.
Defined.

Lemma locate_faces_no_face_means_hog_found_none_witness :
  FeatureExtraction.detect_faces blind_face_locations blind_cascade blind_cascade
    blank_gray HOG tt = [].
Proof.
  exact (proj2 (proj2 (locate_faces_no_face_means_hog_found_none blind_face_locations
                         blind_cascade blind_cascade blank_gray "lbp" tt)) eq_refl).
Defined.

End RecognitionMore.

(* --------------------------------------------------------------------- *)
(** ** More on the classifier: label scan, training outcome, reload *)
(* --------------------------------------------------------------------- *)

Module CNNMore.
  Import Numpy NumpyFacts FileUtils CNN.

Lemma scan_step_NoDup (labels : list string) (f : string) :
  NoDup labels → NoDup (scan_step labels f).
Proof.
  intros Hnd. unfold scan_step. destruct (is_image_name f); [|done].
  case_bool_decide as Hin; [done|].
  apply NoDup_app. split_and!; [done| |apply NoDup_singleton].
  intros x Hx Hx'. apply list_elem_of_singleton in Hx'. by subst.
Qed.

Lemma scan_step_elem (labels : list string) (f n : string) :
  n ∈ scan_step labels f
  ↔ n ∈ labels ∨ (is_image_name f = true ∧ n = (splitext f).1).
Proof.
  unfold scan_step. destruct (is_image_name f).
  - case_bool_decide as Hin.
    + split; [by left|]. intros [?|[_ ->]]; done.
    + rewrite elem_of_app, list_elem_of_singleton. split.
      * intros [?| ->]; [by left|by right].
      * intros [?|[_ ->]]; [by left|by right].
  - split; [by left|]. by intros [?|[? _]].
Qed.

Lemma foldl_scan_step_NoDup (l labels : list string) :
  NoDup labels → NoDup (foldl scan_step labels l).
Proof.
  revert labels. induction l as [|f l IH]; intros labels Hnd; [done|].
  cbn [foldl]. by apply IH, scan_step_NoDup.
Qed.

Lemma foldl_scan_step_elem (l labels : list string) (n : string) :
  n ∈ foldl scan_step labels l
  ↔ n ∈ labels ∨ ∃ f, f ∈ l ∧ is_image_name f = true ∧ n = (splitext f).1.
Proof.
  revert labels. induction l as [|f l IH]; intros labels; cbn [foldl].
  - split; [by left|]. intros [?|(f & Hf & _)]; [done|]. by apply elem_of_nil in Hf.
  - rewrite IH, scan_step_elem. split.
    + intros [[?|[? ?]]|(g & Hg & ?)].
      * by left.
      * right. exists f. split; [by left|done].
      * right. exists g. split; [by right|done].
    + intros [?|(g & Hg & Hi & Hn)].
      * by left; left.
      * apply elem_of_cons in Hg as [->|Hg].
        -- left. by right.
        -- right. by exists g.
Qed.

  (** X20.  The scan of the folder lists no person twice, and lists a name
      exactly when the folder holds a file ending in .png, .jpg or .jpeg
      (in any letter case) with that name as its stem. *)
Theorem scanned_labels_distinct {file_content} (folder : gmap string file_content) :
  NoDup (scanned_labels folder)
  ∧ ∀ n, n ∈ scanned_labels folder
         ↔ ∃ f, is_Some (folder !! f) ∧ is_image_name f = true ∧ n = (splitext f).1.
Proof.
  unfold scanned_labels. split.
  - apply foldl_scan_step_NoDup, NoDup_nil_2.
  - intros n. rewrite foldl_scan_step_elem. split.
    + intros [Hn|(f & Hf & H)]; [by apply elem_of_nil in Hn|].
      exists f. split; [|done]. by apply FaceServiceFacts.elem_of_listdir.
    + intros (f & Hf & H). right. exists f. split; [|done].
      by apply FaceServiceFacts.elem_of_listdir.
Qed.

Section Classifier.
Context {Model saved_model file_content train_image generators : Type}.
Variable _create_model : nat → option Model.
Variable imread : file_content → option train_image.
Variable random_variation : string → nat → train_image → train_image.
Variable flow_from_directory
  : gmap string (gmap string train_image) → nat → option generators.
Variable model_fit : Model → generators → nat → nat → Model * bool.
Variable model_save : Model → option saved_model → save_outcome saved_model.
Variable load_model : saved_model → option Model.

#[local] Abbreviation CNNFaceModel := (@CNNFaceModel Model).
#[local] Abbreviation models_dir := (@models_dir saved_model train_image).
#[local] Abbreviation person_files := (person_files random_variation).
#[local] Abbreviation scan_entry := (scan_entry imread random_variation).
#[local] Abbreviation training_directory := (training_directory imread random_variation).
#[local] Abbreviation init := (init (train_image := train_image) load_model).
#[local] Abbreviation _save_model := (_save_model (train_image := train_image) model_save).
#[local] Abbreviation train :=
  (train _create_model imread random_variation flow_from_directory model_fit model_save).

  (** The scan keeps one directory per listed person, each filled from a
      file of the folder that carries the person's name. *)
Lemma foldl_scan_entry_dirs (folder : gmap string file_content) (l : list string)
    (acc : list string * gmap string (gmap string train_image)) :
  (∀ f, f ∈ l → is_Some (folder !! f)) →
  (∀ p, is_Some (acc.2 !! p) ↔ p ∈ acc.1) →
  (∀ p files, acc.2 !! p = Some files →
     ∃ f content, folder !! f = Some content
          ∧ is_image_name f = true ∧ (splitext f).1 = p
          ∧ files = person_files p (imread content)) →
  let r := foldl (scan_entry folder) acc l in
  (∀ p, is_Some (r.2 !! p) ↔ p ∈ r.1)
  ∧ (∀ p files, r.2 !! p = Some files →
       ∃ f content, folder !! f = Some content
            ∧ is_image_name f = true ∧ (splitext f).1 = p
            ∧ files = person_files p (imread content)).
Proof.
  revert acc. induction l as [|f l IH]; intros acc Hl Hdom Hfiles; [done|].
  cbn [foldl]. apply IH.
  - intros g Hg. apply Hl. by right.
  - intros p. unfold CNN.scan_entry. destruct (is_image_name f); [|apply Hdom].
    cbv zeta. case_bool_decide as Hin; [apply Hdom|]. cbn [fst snd].
    rewrite elem_of_app, list_elem_of_singleton, <- Hdom.
    destruct (decide (p = (splitext f).1)) as [->|Hne].
    + rewrite lookup_insert_eq. split; [by right|eauto].
    + rewrite lookup_insert_ne by done. split; [by left|]. by intros [?|?].
  - intros p files. unfold CNN.scan_entry.
    destruct (is_image_name f) eqn:Hf; [|apply Hfiles].
    cbv zeta. case_bool_decide as Hin; [apply Hfiles|]. cbn [fst snd].
    destruct (decide (p = (splitext f).1)) as [->|Hne].
    + rewrite lookup_insert_eq. intros [= <-].
      destruct (Hl f) as [content Hc]; [by left|].
      exists f, content. by rewrite Hc.
    + rewrite lookup_insert_ne by done. apply Hfiles.
Qed.

  (** The files written for a person whose image can be read. *)
Lemma person_files_readable (person : string) (image : train_image) :
  person_files person (Some image) !! "original.jpg" = Some image
  ∧ (∀ i, i < 10 →
       person_files person (Some image) !! ("aug_" +:+ digit i +:+ ".jpg")
       = Some (random_variation person i image))
  ∧ size (person_files person (Some image)) = 11.
Proof.
  unfold CNN.person_files. cbn [foldl seq].
  split_and!.
  - by vm_compute.
  - intros i Hi.
    do 10 (destruct i as [|i]; [by vm_compute|]). lia.
  - by vm_compute.
Qed.

  (** What a training that returns [True] went through. *)
Lemma train_success (self : CNNFaceModel) (disk : models_dir)
    (known_faces_folder : option (gmap string file_content)) (epochs batch_size : nat) :
  (train self disk known_faces_folder epochs batch_size).1.1 = true →
  ∃ folder train_generators m,
    known_faces_folder = Some folder
    ∧ 2 ≤ length (scanned_labels folder)
    ∧ flow_from_directory (training_directory folder) batch_size = Some train_generators
    ∧ _create_model (length (scanned_labels folder)) = Some m
    ∧ (model_fit m train_generators epochs batch_size).2 = true
    ∧ train self disk known_faces_folder epochs batch_size
      = (true,
         {| model := Some (model_fit m train_generators epochs batch_size).1;
            face_labels := scanned_labels folder; is_trained := true |},
         (_save_model
            {| model := Some (model_fit m train_generators epochs batch_size).1;
               face_labels := scanned_labels folder; is_trained := is_trained self |}
            {| model_file := model_file disk; labels_file := labels_file disk;
               train_data := Some (training_directory folder) |}).2).
Proof.
  unfold CNN.train. destruct known_faces_folder as [folder|]; [|done].
  case_bool_decide; [done|]. cbv zeta. cbn [face_labels model is_trained].
  fold (training_directory folder).
  rewrite (CNNFacts.scanned_labels_scan imread random_variation).
  destruct (length (scanned_labels folder) <? 2) eqn:Hlen; [done|].
  apply Nat.ltb_ge in Hlen.
  destruct (flow_from_directory _ _) as [gens|] eqn:Hgens; [|done].
  destruct (_create_model _) as [m|] eqn:Hm; [|done].
  destruct (model_fit m gens epochs batch_size) as [fitted ok] eqn:Hfit.
  cbn [fst snd]. destruct ok; [|done].
  intros _. exists folder, gens, m. by rewrite Hfit.
Qed.

  (** X21.  When training returns [True], the classifier is trained on
      the scanned labels (at least two, pairwise distinct), its network is
      the one built for exactly that many classes and fitted on the
      generators over the rebuilt training directory.  Whether the network
      was saved is not looked at: if [model.save] returned, the models
      directory holds the saved network together with the labels, and a
      classifier constructed afterwards is the same classifier whenever
      the saved file loads back to the network; if [model.save] raised,
      the call has still returned [True], the label file is as before and
      the network file is what the failed save left. *)
Theorem successful_training_outcome (self : CNNFaceModel) (disk : models_dir)
    (known_faces_folder : option (gmap string file_content)) (epochs batch_size : nat) :
  let r := train self disk known_faces_folder epochs batch_size in
  r.1.1 = true →
  ∃ folder train_generators m fitted,
    known_faces_folder = Some folder
    ∧ flow_from_directory (training_directory folder) batch_size = Some train_generators
    ∧ _create_model (length (scanned_labels folder)) = Some m
    ∧ model_fit m train_generators epochs batch_size = (fitted, true)
    ∧ r.1.2 = {| model := Some fitted; face_labels := scanned_labels folder;
                 is_trained := true |}
    ∧ 2 ≤ length (scanned_labels folder)
    ∧ NoDup (scanned_labels folder)
    ∧ train_data r.2 = Some (training_directory folder)
    ∧ match model_save fitted (model_file disk) with
      | Saved file =>
          model_file r.2 = Some file
          ∧ labels_file r.2 = Some (scanned_labels folder)
          ∧ (load_model file = Some fitted → init r.2 = r.1.2)
      | SaveRaised left_behind =>
          model_file r.2 = left_behind ∧ labels_file r.2 = labels_file disk
      end.
Proof.
  intros r Hr. subst r.
  destruct (train_success _ _ _ _ _ Hr)
    as (folder & gens & m & Hf & Hlen & Hgens & Hm & Hok & ->).
  destruct (model_fit m gens epochs batch_size) as [fitted ok] eqn:Hfit.
  cbn [fst snd] in *. subst ok.
  exists folder, gens, m, fitted. split_and!; try done.
  - apply foldl_scan_step_NoDup, NoDup_nil_2.
  - unfold CNN._save_model. cbn [model model_file train_data].
    by destruct (model_save fitted (model_file disk)).
  - unfold CNN._save_model. cbn [model model_file labels_file train_data face_labels].
    destruct (model_save fitted (model_file disk)) as [file|left_behind]; [|done].
    split_and!; [done|done|]. intros Hload.
    unfold CNN.init, _load_model. cbn [fst snd model_file labels_file]. by rewrite Hload.
Qed.

  (** X22.  When training fails, whatever the reason (missing or empty
      folder, fewer than two persons, the generators, the construction of
      the network or the fitting raising), the saved network file and the
      saved label file are untouched and the trained flag is what it was.
      On a missing or empty folder nothing at all changes.  Otherwise the
      failure comes after the scan: the label list of the object has been
      replaced by the scanned one and the training directory has been
      emptied and refilled from the folder. *)
Theorem failed_training_keeps_saved_model (self : CNNFaceModel) (disk : models_dir)
    (known_faces_folder : option (gmap string file_content)) (epochs batch_size : nat) :
  let r := train self disk known_faces_folder epochs batch_size in
  r.1.1 = false →
  model_file r.2 = model_file disk
  ∧ labels_file r.2 = labels_file disk
  ∧ is_trained r.1.2 = is_trained self
  ∧ match known_faces_folder with
    | Some folder =>
        if bool_decide (length (FaceService.listdir folder) = 0)
        then r.1.2 = self ∧ r.2 = disk
        else face_labels r.1.2 = scanned_labels folder
             ∧ train_data r.2 = Some (training_directory folder)
    | None => r.1.2 = self ∧ r.2 = disk
    end.
Proof.
  intros r. subst r. unfold CNN.train.
  destruct known_faces_folder as [folder|]; [|done].
  case_bool_decide; [done|]. cbv zeta. cbn [face_labels model is_trained].
  fold (training_directory folder).
  rewrite (CNNFacts.scanned_labels_scan imread random_variation).
  destruct (_ <? 2); [done|].
  destruct (flow_from_directory _ _) as [gens|]; [|done].
  destruct (_create_model _) as [m|]; [|done].
  destruct (model_fit m gens epochs batch_size) as [fitted ok].
  cbn [fst snd]. by destruct ok.
Qed.

  (** X23.  A classifier flagged as trained always holds a network: this
      is so after construction from any models directory, and training,
      whether it succeeds or fails, keeps it so. *)
Theorem trained_classifier_has_network :
  (∀ disk : models_dir, is_trained (init disk) = true → is_Some (model (init disk)))
  ∧ ∀ (self : CNNFaceModel) (disk : models_dir)
      (known_faces_folder : option (gmap string file_content)) (epochs batch_size : nat),
      (is_trained self = true → is_Some (model self)) →
      let self' := (train self disk known_faces_folder epochs batch_size).1.2 in
      is_trained self' = true → is_Some (model self').
Proof.
  split.
  - intros disk. unfold CNN.init, _load_model.
    destruct (model_file disk) as [file|], (labels_file disk); simpl; try done.
    destruct (load_model file); simpl; eauto; done.
  - intros self disk folder epochs batch_size Hinv self'. subst self'.
    unfold CNN.train. destruct folder as [folder|]; [|done].
    case_bool_decide; [done|]. cbv zeta. cbn [face_labels model is_trained].
    destruct (_ <? 2); [done|].
    destruct (flow_from_directory _ _) as [gens|]; [|done].
    destruct (_create_model _) as [m|]; [|done].
    destruct (model_fit m gens epochs batch_size) as [fitted ok].
    cbn [fst snd]. destruct ok; simpl; eauto.
Qed.

  (** X29.  After the scan the training directory holds exactly one
      directory per scanned person, filled from a file of the folder that
      carries the person's name: the image and its ten variations when
      OpenCV can read that file, nothing when it cannot. *)
Theorem training_directory_persons (folder : gmap string file_content) :
  (∀ person, is_Some (training_directory folder !! person)
             ↔ person ∈ scanned_labels folder)
  ∧ (∀ person files, training_directory folder !! person = Some files →
       ∃ f content,
         folder !! f = Some content
         ∧ is_image_name f = true ∧ (splitext f).1 = person
         ∧ match imread content with
           | Some image =>
               files !! "original.jpg" = Some image
               ∧ (∀ i, i < 10 →
                    files !! ("aug_" +:+ digit i +:+ ".jpg")
                    = Some (random_variation person i image))
               ∧ size files = 11
           | None => files = ∅
           end).
Proof.
  destruct (foldl_scan_entry_dirs folder (FaceService.listdir folder) ([], ∅))
    as [Hdom Hfiles].
  { intros f. apply FaceServiceFacts.elem_of_listdir. }
  { intros p. cbn [fst snd]. rewrite lookup_empty.
    split; [by intros [? ?]|]. by intros ?%elem_of_nil. }
  { intros p files. cbn [fst snd]. by rewrite lookup_empty. }
  split.
  - intros person. unfold CNN.training_directory. rewrite Hdom.
    by rewrite (CNNFacts.scanned_labels_scan imread random_variation).
  - intros person files Hp. destruct (Hfiles person files Hp)
      as (f & content & Hc & Hf & Hstem & ->).
    exists f, content. split_and!; try done.
    destruct (imread content) as [image|]; [|done].
    apply person_files_readable.
Qed.

End Classifier.

Lemma successful_training_outcome_witness :
  let r := demo_train fresh_classifier empty_models_dir
             (Some {[ "alice.jpg" := tt; "bob.png" := tt ]}) 10 32 in
  r.1.1 = true
  ∧ face_labels r.1.2 = ["alice"; "bob"]
  ∧ labels_file r.2 = Some ["alice"; "bob"]
  ∧ demo_init r.2 = r.1.2.
Proof.
  cbv zeta.
  assert (Hr : (demo_train fresh_classifier empty_models_dir
                  (Some {[ "alice.jpg" := tt; "bob.png" := tt ]}) 10 32).1.1 = true)
    by by vm_compute.
  split; [exact Hr|].
  destruct (successful_training_outcome demo_create_model demo_imread demo_variation
              demo_flow demo_fit demo_save demo_load_model fresh_classifier
              empty_models_dir (Some {[ "alice.jpg" := tt; "bob.png" := tt ]}) 10 32 Hr)
    as (folder & gens & m & fitted & [= <-] & _ & _ & _ & Hself & _ & _ & _ & Hsaved).
  unfold demo_train, demo_init, demo_save in *.
  destruct Hsaved as (_ & Hlabels & Hinit).
  split_and!.
  - rewrite Hself. by vm_compute.
  - rewrite Hlabels. by vm_compute.
  - apply Hinit. reflexivity.
Defined.

Lemma failed_training_keeps_saved_model_witness :
  let disk := {| model_file := Some 2; labels_file := Some ["alice"; "bob"];
                 train_data := None |} in
  let r := demo_train trained_classifier disk (Some {[ "alice.jpg" := tt ]}) 10 32 in
  r.1.1 = false
  ∧ model_file r.2 = Some 2
  ∧ labels_file r.2 = Some ["alice"; "bob"]
  ∧ is_trained r.1.2 = true
  ∧ face_labels r.1.2 = scanned_labels ({[ "alice.jpg" := tt ]} : gmap string unit)
  ∧ train_data r.2
    = Some (training_directory demo_imread demo_variation {[ "alice.jpg" := tt ]}).
Proof.
  cbv zeta.
  assert (Hr : (demo_train trained_classifier
                  {| model_file := Some 2; labels_file := Some ["alice"; "bob"];
                     train_data := None |}
                  (Some {[ "alice.jpg" := tt ]}) 10 32).1.1 = false)
    by by vm_compute.
  split; [exact Hr|].
  destruct (failed_training_keeps_saved_model demo_create_model demo_imread
              demo_variation demo_flow demo_fit demo_save trained_classifier
              {| model_file := Some 2; labels_file := Some ["alice"; "bob"];
                 train_data := None |}
              (Some {[ "alice.jpg" := tt ]}) 10 32 Hr)
    as (Hmodel & Hlabels & Htrained & Hrest).
  rewrite bool_decide_eq_false_2 in Hrest by by vm_compute.
  destruct Hrest as [Hscanned Hdata].
  by split_and!.
Defined.

Lemma trained_classifier_has_network_witness :
  is_Some (model (demo_init {| model_file := Some 2;
                               labels_file := Some ["alice"; "bob"];
                               train_data := None |})).
Proof.
  apply (trained_classifier_has_network demo_create_model demo_imread demo_variation
           demo_flow demo_fit demo_save demo_load_model).
  reflexivity.
Defined.

Lemma training_directory_persons_witness :
  ∃ files,
    training_directory demo_imread demo_variation
      ({[ "alice.jpg" := tt; "bob.png" := tt ]} : gmap string unit) !! "bob"
    = Some files
    ∧ files !! "original.jpg" = Some tt ∧ size files = 11.
Proof.
  destruct (training_directory_persons demo_imread demo_variation
              ({[ "alice.jpg" := tt; "bob.png" := tt ]} : gmap string unit))
    as [Hdom Hfiles].
  destruct (proj2 (Hdom "bob")) as [files Hbob].
  { replace (scanned_labels _) with ["alice"; "bob"] by by vm_compute.
    by right; left. }
  exists files. split; [exact Hbob|].
  destruct (Hfiles "bob" files Hbob) as (f & [] & _ & _ & _ & Horig & _ & Hsize).
  by split.
Defined.

End CNNMore.

(* --------------------------------------------------------------------- *)
(** ** The recognition request as a whole *)
(* --------------------------------------------------------------------- *)

Module RecognizeFacesFacts.
  Import Numpy FileUtils FeatureExtraction Recognition RecognizeFaces.

Lemma result_name_differs (f : string) : "result_" +:+ f ≠ f.
Proof.
  intros H. apply (f_equal String.length) in H.
  rewrite FileUtilsMore.length_append in H. simpl in H. lia.
Qed.

Section Recognize.
Context {file_content image face_image tensor Model saved_model train_image generators : Type}.
Variable normalize_NFKD : string → string.
Variable load_image_file : file_content → option image.
Variable face_locations : string → image → list box.
Variable haarcascade_frontalface_default : gray_image → list (Z * Z * Z * Z).
Variable lbpcascade_frontalface : gray_image → list (Z * Z * Z * Z).
Variable cvtColor_RGB2GRAY : image → gray_image.
Variable resize : gray_image → nat * nat → gray_image.
Variable hog_compute : gray_image → list R.
Variable face_encodings_at : image → list box → option (list (list R)).
Variable crop_image : image → box → face_image.
Variable _create_model : nat → option Model.
Variable imread : file_content → option train_image.
Variable random_variation : string → nat → train_image → train_image.
Variable flow_from_directory
  : gmap string (gmap string train_image) → nat → option generators.
Variable model_fit : Model → generators → nat → nat → Model * bool.
Variable model_save : Model → option saved_model → CNN.save_outcome saved_model.
Variable load_model : saved_model → option Model.
Variable _preprocess_image : face_image → option tensor.
Variable model_predict : Model → tensor → option (list R).
Variable imwrite : string → image → list face_result → option file_content.
Variable threshold : R.

#[local] Abbreviation secure_filename := (secure_filename normalize_NFKD).
#[local] Abbreviation recognize_faces :=
  (recognize_faces normalize_NFKD load_image_file face_locations
     haarcascade_frontalface_default lbpcascade_frontalface cvtColor_RGB2GRAY resize
     hog_compute face_encodings_at crop_image _create_model imread random_variation
     flow_from_directory model_fit model_save load_model _preprocess_image
     model_predict imwrite threshold).
#[local] Abbreviation identify_faces :=
  (identify_faces crop_image _preprocess_image model_predict threshold).
#[local] Abbreviation identify_face :=
  (identify_face crop_image _preprocess_image model_predict threshold).
#[local] Abbreviation locate_faces :=
  (locate_faces face_locations haarcascade_frontalface_default
     lbpcascade_frontalface cvtColor_RGB2GRAY).
#[local] Abbreviation request_classifier :=
  (request_classifier _create_model imread random_variation flow_from_directory
     model_fit model_save load_model).

  (** The loop gives one result per pair, numbered from [i] on, each at
      its own rectangle. *)
Lemma identify_faces_results method use_cnn cnn encs names img
    (faces : list (box * face_probe)) (i : nat) (rs : list face_result) :
  identify_faces method use_cnn cnn encs names img i faces = Some rs →
  length rs = length faces
  ∧ ∀ k r, rs !! k = Some r →
      id r = i + k
      ∧ result_method r = (if use_cnn then "cnn_model" else method)
      ∧ ∃ p, faces !! k = Some (location r, p)
             ∧ identify_face method use_cnn cnn encs names img (i + k) (location r) p
               = Some r.
Proof.
  revert i rs. induction faces as [|[loc p] faces IH]; intros i rs; cbn [RecognizeFaces.identify_faces].
  - intros [= <-]. split; [done|]. by intros k r Hk.
  - destruct (identify_face _ _ _ _ _ _ i loc p) as [r0|] eqn:Hr0; [|done]. cbn.
    destruct (identify_faces _ _ _ _ _ _ (S i) faces) as [rs0|] eqn:Hrs0; [|done]. cbn.
    intros [= <-]. destruct (IH _ _ Hrs0) as [Hlen Hres].
    split; [cbn; by rewrite Hlen|].
    intros [|k] r Hk; cbn in Hk.
    + injection Hk as <-. rewrite Nat.add_0_r.
      assert (Hloc : location r0 = loc ∧ id r0 = i
                     ∧ result_method r0 = (if use_cnn then "cnn_model" else method)).
      { revert Hr0. unfold RecognizeFaces.identify_face. cbv zeta.
        match goal with |- context [_ <$> ?a] => destruct a end; [|done].
        by intros [= <-]. }
      destruct Hloc as (Hl & Hi & Hm). split_and!; [done|done|].
      exists p. rewrite Hl. by split.
    + destruct (Hres k r Hk) as (Hid & Hm & q & Hq & Hq').
      replace (i + S k) with (S i + k) by lia.
      split_and!; [done|done|]. by exists q.
Qed.

  (** What a request that was answered with status 200 did. *)
Lemma recognize_faces_recognized file save_result method use_cnn_model uploads known disk
    (r : recognition) uploads' disk' :
  recognize_faces file save_result method use_cnn_model uploads known disk
  = (Recognized r, uploads', disk') →
  ∃ img encodings,
    FaceService.filename file ≠ EmptyString
    ∧ secure_filename (FaceService.filename file) ≠ EmptyString
    ∧ load_image_file (FaceService.stream file) = Some img
    ∧ disk' = (request_classifier use_cnn_model (FaceService.known_faces_folder known) disk).2
    ∧ (if use_cnn_model
       then encodings = replicate (length (locate_faces method img).1) Placeholder
       else extract_features cvtColor_RGB2GRAY resize hog_compute face_encodings_at
              (List.last (locate_faces method img).2 HOG) img
              (locate_faces method img).1 = Some encodings)
    ∧ identify_faces method use_cnn_model
        (request_classifier use_cnn_model (FaceService.known_faces_folder known) disk).1
        (FaceService.known_face_encodings known) (FaceService.known_face_names known)
        img 0 (zip (locate_faces method img).1 encodings) = Some (results r)
    ∧ faces_detected r = length (locate_faces method img).1
    ∧ response_method r = (if use_cnn_model then "cnn_model" else method)
    ∧ (if save_result && negb (bool_decide ((locate_faces method img).1 = []))
       then ∃ annotated,
         imwrite ("result_" +:+ secure_filename (FaceService.filename file)) img (results r)
         = Some annotated
         ∧ output_image r = Some ("result_" +:+ secure_filename (FaceService.filename file))
         ∧ uploads'
           = <["result_" +:+ secure_filename (FaceService.filename file) := annotated]>
               (<[secure_filename (FaceService.filename file) := FaceService.stream file]>
                  uploads)
       else output_image r = None
            ∧ uploads'
              = <[secure_filename (FaceService.filename file) := FaceService.stream file]>
                  uploads).
Proof.
  unfold RecognizeFaces.recognize_faces.
  case_bool_decide as Hf; [done|]. cbv zeta.
  case_bool_decide as Hs; [done|].
  destruct (load_image_file _) as [img|] eqn:Himg; [|done].
  destruct (request_classifier _ _ _) as [cnn d] eqn:Hcnn.
  destruct (locate_faces method img) as [locs log] eqn:Hloc.
  unfold FaceService.get_known_faces. cbn [fst snd].
  destruct use_cnn_model.
  - destruct (identify_faces _ _ _ _ _ _ _ _) as [rs|] eqn:Hid; [|done].
    destruct (save_result && _) eqn:Hsave.
    + destruct (imwrite _ _ _) as [ann|] eqn:Hw; [|done].
      intros [= <- <- <-]. exists img, (replicate (length locs) Placeholder).
      rewrite Hloc. cbn [fst snd results faces_detected response_method output_image].
      rewrite Hsave.
      split_and!; try done. by exists ann.
    + intros [= <- <- <-]. exists img, (replicate (length locs) Placeholder).
      rewrite Hloc. cbn [fst snd results faces_detected response_method output_image].
      rewrite Hsave.
      by split_and!.
  - destruct (extract_features _ _ _ _ _ _ _) as [encs|] eqn:Hex; [|done].
    destruct (identify_faces _ _ _ _ _ _ _ _) as [rs|] eqn:Hid; [|done].
    destruct (save_result && _) eqn:Hsave.
    + destruct (imwrite _ _ _) as [ann|] eqn:Hw; [|done].
      intros [= <- <- <-]. exists img, encs.
      rewrite Hloc. cbn [fst snd results faces_detected response_method output_image].
      rewrite Hsave.
      split_and!; try done. by exists ann.
    + intros [= <- <- <-]. exists img, encs.
      rewrite Hloc. cbn [fst snd results faces_detected response_method output_image].
      rewrite Hsave.
      by split_and!.
Qed.

  (** X24.  A request answered with status 200 reports as
      [faces_detected] the number of rectangles detection returned, lists
      at most that many results, numbered from 0 in detection order, each
      at the rectangle of its number; and it names an output image,
      [result_] followed by the sanitised upload name, exactly when saving
      was asked for and at least one face was found. *)
Theorem recognized_response_shape file save_result method use_cnn_model uploads known disk
    (r : recognition) uploads' disk' :
  recognize_faces file save_result method use_cnn_model uploads known disk
  = (Recognized r, uploads', disk') →
  ∃ img,
    load_image_file (FaceService.stream file) = Some img
    ∧ faces_detected r = length (locate_faces method img).1
    ∧ length (results r) ≤ faces_detected r
    ∧ (∀ k res, results r !! k = Some res →
         id res = k ∧ (locate_faces method img).1 !! k = Some (location res))
    ∧ output_image r
      = (if save_result && negb (bool_decide (faces_detected r = 0))
         then Some ("result_" +:+ secure_filename (FaceService.filename file))
         else None).
Proof.
  intros H. apply recognize_faces_recognized in H
    as (img & encs & _ & _ & Himg & _ & _ & Hid & Hn & _ & Hout).
  apply identify_faces_results in Hid as [Hlen Hres].
  exists img. split_and!; try done.
  - rewrite Hlen, Hn, length_zip. lia.
  - intros k res Hk. destruct (Hres k res Hk) as (Hid & _ & p & Hp & _).
    split; [done|]. apply lookup_zip_with_Some in Hp as (a & b & [= <- <-] & Ha & _).
    done.
  - rewrite Hn.
    assert (Hb : bool_decide (length (locate_faces method img).1 = 0)
                 = bool_decide ((locate_faces method img).1 = [])).
    { apply bool_decide_ext. by destruct ((locate_faces method img).1). }
    rewrite Hb. destruct (save_result && _).
    + by destruct Hout as (ann & _ & -> & _).
    + by destruct Hout as [-> _].
Qed.

  (** X25.  Finding no face is not an error: when the image decodes,
      detection returns nothing and (on the standard path) the encoder
      does not raise, the reply has status 200 with zero faces, no result
      and no output image, and the only change to the upload folder is the
      saved upload. *)
Theorem no_face_is_an_empty_success file save_result method use_cnn_model uploads known disk
    (img : image) :
  FaceService.filename file ≠ EmptyString →
  secure_filename (FaceService.filename file) ≠ EmptyString →
  load_image_file (FaceService.stream file) = Some img →
  (locate_faces method img).1 = [] →
  (use_cnn_model = true
   ∨ is_Some (extract_features cvtColor_RGB2GRAY resize hog_compute face_encodings_at
                (List.last (locate_faces method img).2 HOG) img [])) →
  recognize_faces file save_result method use_cnn_model uploads known disk
  = (Recognized {| faces_detected := 0; results := [];
                   response_method := if use_cnn_model then "cnn_model" else method;
                   output_image := None |},
     <[secure_filename (FaceService.filename file) := FaceService.stream file]> uploads,
     (request_classifier use_cnn_model (FaceService.known_faces_folder known) disk).2).
Proof.
  intros Hf Hs Himg Hnone Hex. unfold RecognizeFaces.recognize_faces.
  rewrite !bool_decide_eq_false_2 by done. cbv zeta. rewrite Himg.
  destruct (request_classifier _ _ _) as [cnn d].
  destruct (locate_faces method img) as [locs log]. cbn [fst snd] in *. subst locs.
  unfold FaceService.get_known_faces. cbn [fst snd length replicate].
  rewrite andb_false_r.
  destruct use_cnn_model; [done|].
  destruct Hex as [?|[encs Hencs]]; [done|]. rewrite Hencs. done.
Qed.

  (** X26.  On the standard path with nobody enrolled, every face of a
      request answered with status 200 is reported as "Inconnu" with
      confidence 0. *)
Theorem empty_registry_reports_unknown file save_result method uploads known disk
    (r : recognition) uploads' disk' :
  FaceService.known_face_encodings known = [] →
  recognize_faces file save_result method false uploads known disk
  = (Recognized r, uploads', disk') →
  Forall (λ res, name res = Some Inconnu ∧ confidence res = 0%R) (results r).
Proof.
  intros Hempty H. apply recognize_faces_recognized in H
    as (img & encs & _ & _ & _ & _ & _ & Hid & _).
  apply identify_faces_results in Hid as [_ Hres].
  apply Forall_lookup. intros k res Hk.
  destruct (Hres k res Hk) as (_ & _ & p & _ & Hone).
  revert Hone. unfold RecognizeFaces.identify_face. rewrite Hempty. cbn.
  by intros [= <-].
Qed.

  (** X27.  Whatever the outcome, once the upload has a usable name it is
      saved under its sanitised name in the upload folder and is still
      there, with its content, when the call returns: the request never
      removes it. *)
Theorem upload_is_never_removed file save_result method use_cnn_model uploads known disk :
  FaceService.filename file ≠ EmptyString →
  secure_filename (FaceService.filename file) ≠ EmptyString →
  (recognize_faces file save_result method use_cnn_model uploads known disk).1.2
    !! secure_filename (FaceService.filename file)
  = Some (FaceService.stream file).
Proof.
  intros Hf Hs. unfold RecognizeFaces.recognize_faces.
  rewrite !bool_decide_eq_false_2 by done. cbv zeta.
  destruct (load_image_file _) as [img|]; [|cbn; apply lookup_insert_eq].
  destruct (request_classifier _ _ _) as [cnn d].
  destruct (locate_faces method img) as [locs log].
  unfold FaceService.get_known_faces. cbn [fst snd].
  destruct (if use_cnn_model then _ else _) as [encs|]; [|cbn; apply lookup_insert_eq].
  destruct (RecognizeFaces.identify_faces _ _ _ _ _ _ _ _ _ _ _ _) as [rs|];
    [|cbn; apply lookup_insert_eq].
  destruct (save_result && _); [|cbn; apply lookup_insert_eq].
  destruct (imwrite _ _ _) as [ann|]; [|cbn; apply lookup_insert_eq].
  cbn. rewrite lookup_insert_ne by apply result_name_differs.
  apply lookup_insert_eq.
Qed.

  (** X28.  When the classifier is requested but cannot be used (it is
      neither loaded as trained nor trained by the request), a request
      that finds a face while somebody is enrolled fails with status 500:
      the placeholder that stands for the face's encoding cannot be
      compared with the known encodings. *)
Theorem untrained_classifier_request_fails file save_result method uploads known disk
    (img : image) :
  FaceService.filename file ≠ EmptyString →
  secure_filename (FaceService.filename file) ≠ EmptyString →
  load_image_file (FaceService.stream file) = Some img →
  (∀ cnn, (request_classifier true (FaceService.known_faces_folder known) disk).1
          = Some cnn → CNN.is_trained cnn = false) →
  (locate_faces method img).1 ≠ [] →
  FaceService.known_face_encodings known ≠ [] →
  (recognize_faces file save_result method true uploads known disk).1.1 = Failed 500.
Proof.
  intros Hf Hs Himg Huntrained Hfaces Hknown. unfold RecognizeFaces.recognize_faces.
  rewrite !bool_decide_eq_false_2 by done. cbv zeta. rewrite Himg.
  destruct (request_classifier _ _ _) as [cnn d] eqn:Hcnn. cbn [fst] in Huntrained.
  destruct (locate_faces method img) as [locs log]. cbn [fst snd] in *.
  unfold FaceService.get_known_faces. cbn [fst snd].
  destruct locs as [|loc locs]; [done|].
  destruct (FaceService.known_face_encodings known) as [|e encs] eqn:He; [done|].
  cbn [length replicate zip zip_with RecognizeFaces.identify_faces].
  unfold RecognizeFaces.identify_face at 1. cbv zeta.
  destruct cnn as [cnn|]; [|done].
  by rewrite (Huntrained cnn eq_refl).
Qed.

  (** X30.  The hand-engineered descriptors cannot be compared with the
      encodings the registry holds.  On the standard path, a request
      whose method resolves to CUSTOM_HOG or LBP and whose detector finds
      a face extracts descriptors of 256 or more entries (the HOG entries
      and the LBP histogram); against a non-empty registry of 128-entry
      encodings the subtraction inside [face_distance] raises, and the
      request fails with status 500. *)
Theorem custom_descriptors_cannot_be_matched file save_result method uploads known disk
    (img : image) :
  FaceService.filename file ≠ EmptyString →
  secure_filename (FaceService.filename file) ≠ EmptyString →
  load_image_file (FaceService.stream file) = Some img →
  set_method method = CUSTOM_HOG ∨ set_method method = LBP →
  detect_faces face_locations haarcascade_frontalface_default lbpcascade_frontalface
    cvtColor_RGB2GRAY (set_method method) img ≠ [] →
  FaceService.known_face_encodings known ≠ [] →
  Forall (λ e, length e = 128) (FaceService.known_face_encodings known) →
  (recognize_faces file save_result method false uploads known disk).1.1 = Failed 500.
Proof.
  intros Hf Hs Himg Hmethod Hfaces Hknown Hshape. unfold RecognizeFaces.recognize_faces.
  rewrite !bool_decide_eq_false_2 by done. cbv zeta. rewrite Himg.
  cbn [RecognizeFaces.request_classifier].
  unfold Recognition.locate_faces, detect_faces_logged. cbv zeta.
  rewrite (bool_decide_eq_false_2 _ Hfaces). cbn [andb app List.last].
  unfold FaceService.get_known_faces. cbn [fst snd].
  assert (Hextract :
    extract_features cvtColor_RGB2GRAY resize hog_compute face_encodings_at
      (set_method method) img
      (detect_faces face_locations haarcascade_frontalface_default
         lbpcascade_frontalface cvtColor_RGB2GRAY (set_method method) img)
    = Some (map Encoding
              (_custom_feature_extraction cvtColor_RGB2GRAY resize hog_compute img
                 (detect_faces face_locations haarcascade_frontalface_default
                    lbpcascade_frontalface cvtColor_RGB2GRAY (set_method method) img)))).
  { unfold RecognizeFaces.extract_features. by destruct Hmethod as [-> | ->]. }
  rewrite Hextract.
  destruct (detect_faces _ _ _ _ _ _) as [|loc locs]; [done|].
  unfold _custom_feature_extraction. cbv zeta.
  cbn [map zip zip_with RecognizeFaces.identify_faces].
  unfold RecognizeFaces.identify_face at 1. cbv zeta.
  destruct (FaceService.known_face_encodings known) as [|e0 encs] eqn:He; [done|].
  unfold match_face.
  rewrite (RecognitionFacts.face_distance_shape_mismatch (e0 :: encs) _ 128);
    [done|done|done| |lia|].
  - rewrite FeatureExtractionMore.length_custom_descriptor. lia.
  - rewrite FeatureExtractionMore.length_custom_descriptor. lia.
Qed.

End Recognize.

Lemma demo_recognized :
  demo_recognize demo_upload true "hog" false ∅ demo_nobody CNN.empty_models_dir
  = (Recognized demo_reply,
     <["result_photo.jpg" := FaceService.stream demo_upload]>
       (<["photo.jpg" := FaceService.stream demo_upload]> ∅),
     CNN.empty_models_dir).
Proof. by vm_compute. Qed.

Lemma recognized_response_shape_witness :
  demo_recognize demo_upload true "hog" false ∅ demo_nobody CNN.empty_models_dir
  = (Recognized demo_reply,
     <["result_photo.jpg" := FaceService.stream demo_upload]>
       (<["photo.jpg" := FaceService.stream demo_upload]> ∅),
     CNN.empty_models_dir)
  ∧ ∃ img,
      Some (FaceService.stream demo_upload) = Some img
      ∧ faces_detected demo_reply = length (demo_locate_faces "hog" img).1
      ∧ length (results demo_reply) ≤ faces_detected demo_reply
      ∧ (∀ k res, results demo_reply !! k = Some res →
           id res = k ∧ (demo_locate_faces "hog" img).1 !! k = Some (location res))
      ∧ output_image demo_reply
        = (if true && negb (bool_decide (faces_detected demo_reply = 0))
           then Some ("result_" +:+ secure_filename NFKD_of_ascii_text (FaceService.filename demo_upload))
           else None).
Proof.
  split; [exact demo_recognized|].
  unfold demo_locate_faces.
  eapply recognized_response_shape. exact demo_recognized.
Defined.

Lemma no_face_is_an_empty_success_witness :
  demo_recognize demo_blank_upload true "lbp" false ∅ demo_registry CNN.empty_models_dir
  = (Recognized {| faces_detected := 0; results := [];
                   response_method := "lbp"; output_image := None |},
     <[secure_filename NFKD_of_ascii_text (FaceService.filename demo_blank_upload)
         := FaceService.stream demo_blank_upload]> ∅,
     CNN.empty_models_dir).
Proof.
  unfold demo_recognize.
  eapply no_face_is_an_empty_success.
  - by vm_compute.
  - by vm_compute.
  - reflexivity.
  - reflexivity.
  - right. vm_compute. eauto.
Defined.

Lemma empty_registry_reports_unknown_witness :
  Forall (λ res, name res = Some Inconnu ∧ confidence res = 0%R) (results demo_reply).
Proof.
  eapply empty_registry_reports_unknown; [|exact demo_recognized]. reflexivity.
Defined.

Lemma upload_is_never_removed_witness :
  (demo_recognize demo_upload true "lbp" true ∅ demo_registry CNN.empty_models_dir).1.2
    !! secure_filename NFKD_of_ascii_text (FaceService.filename demo_upload)
  = Some (FaceService.stream demo_upload).
Proof.
  unfold demo_recognize. eapply upload_is_never_removed; by vm_compute.
Defined.

Lemma untrained_classifier_request_fails_witness :
  (demo_recognize demo_upload false "hog" true ∅ demo_registry CNN.empty_models_dir).1.1
  = Failed 500.
Proof.
  unfold demo_recognize.
  eapply untrained_classifier_request_fails.
  - by vm_compute.
  - by vm_compute.
  - reflexivity.
  - intros cnn. vm_compute. by intros [= <-].
  - by vm_compute.
  - by vm_compute.
Defined.

Lemma custom_descriptors_cannot_be_matched_witness :
  (demo_recognize_cascade demo_upload true "lbp" false ∅ demo_registry_128
     CNN.empty_models_dir).1.1
  = Failed 500.
Proof.
  unfold demo_recognize_cascade. eapply custom_descriptors_cannot_be_matched.
  - by vm_compute.
  - by vm_compute.
  - reflexivity.
  - right. reflexivity.
  - by vm_compute.
  - by vm_compute.
  - repeat constructor.
Defined.

End RecognizeFacesFacts.

